(** * Marigold normals pipeline: a shallow embedding and its properties

    The development follows
    [src/diffusers/pipelines/marigold/pipeline_marigold_normals.py].

    - Python integers are [Z]; [//] and [%] are [Z.div] and [Z.modulo]
      (both round towards minus infinity, the sign of [%] follows the
      divisor, as in Python), with the division by zero written out.
    - A raised exception is the [Raise] branch of [result].
    - A torch tensor (or numpy array) is its dtype, its shape and its
      elements addressed by multi-index.
    - Floating-point elements are kept behind the [Scalar] interface; its
      instance is IEEE 754 arithmetic in the format of the tensor's dtype
      (the Standard Library's [spec_float]).
    - A call of the pipeline is a computation on a state: the pipeline, the
      state of its scheduler and of the generators, and the list of the
      collaborators invoked so far.
    - [logger.warning] calls do not change the control flow and are left
      out. *)

From Stdlib Require Import String ZArith List Bool Lia Arith.
From Stdlib Require Import SpecFloat.
Import ListNotations.

Set Implicit Arguments.

(** ** Exceptions *)

(** The [ValueError]s raised by the file, one constructor per [raise], and
    the two of Python itself that the code can meet. *)
Inductive message : Type :=
  | ExtremeAspectRatio          (* "Extreme aspect ratio of the input image" *)
  | DtypeSignedInteger          (* "... cannot be a signed integer." *)
  | DtypeComplex                (* "... cannot be complex." *)
  | DtypeBoolean                (* "... cannot be boolean." *)
  | DtypeNotSupported           (* "Image dtype=... is not supported." *)
  | NotOneOrThreeChannel        (* "Input image is not 1- or 3-channel" *)
  | NotTwoThreeFourDim          (* "Input image is not a 2-, 3-, or 4-dimensional tensor." *)
  | OutsideRange                (* "Input image data is partially outside of the [-1,1] range." *)
  | StepsUnresolved             (* "`num_inference_steps` is not specified ..." *)
  | StepsNotPositive            (* "`num_inference_steps` must be positive." *)
  | EnsembleNotPositive         (* "`ensemble_size` must be positive." *)
  | ResolutionUnresolved        (* "`processing_resolution` is not specified ..." *)
  | ResolutionNegative          (* "`processing_resolution` must be non-negative ..." *)
  | ResolutionNotMultiple       (* "`processing_resolution` must be a multiple of ..." *)
  | ResampleInput               (* "`resample_method_input` takes string values ..." *)
  | ResampleOutput              (* "`resample_method_output` takes string values ..." *)
  | BatchNotPositive            (* "`batch_size` must be positive." *)
  | OutputFormat                (* "`output_prediction_format` must be one of `pt` or `np`." *)
  | LatentAndGenerator          (* "`input_latent` and `generator` cannot be used together." *)
  | EnsemblingKwargsNotDict     (* "`ensembling_kwargs` must be a dictionary." *)
  | VisualizationKwargsNotDict  (* "`output_visualization_kwargs` must be a dictionary." *)
  | ImageDimension              (* "`image` has unsupported dimension or shape" *)
  | ImageType                   (* "Unsupported `image` type" *)
  | LatentNotTensor             (* "`input_latent` must be a torch.FloatTensor." *)
  | LatentDimension             (* "`input_latent` has unsupported dimensions or shape" *)
  | LatentShape                 (* "`input_latent` has unexpected shape=... expected=..." *)
  | GeneratorDevice             (* "`generator` device differs from the pipeline's device." *)
  | GeneratorCount              (* "The number generators must match ..." *)
  | GeneratorListDevice         (* "At least one of the `generator` devices differs ..." *)
  | GeneratorType               (* "Unsupported generator type" *)
  | NaNValues                   (* "NaN values detected, ..." *)
  | NonFiniteValues             (* "Non-finite values detected, ..." *)
  | NonUnitVectors              (* "Non-unit vectors detected, ..." *)
  | NegativeZ                   (* "Negative Z-component detected, ..." *)
  | UnpackShape                 (* Python's "not enough values to unpack" *)
  | RangeStepZero.              (* Python's "range() arg 3 must not be zero" *)

Inductive exn : Type :=
  | ValueError (m : message)
  | AssertionError
  | ZeroDivisionError
  | RuntimeError          (* raised inside torch *)
  | NotImplementedError   (* raised inside torch *)
  | TypeError
  | AttributeError
  | IndexError.           (* raised inside torch *)

Inductive result (A : Type) : Type :=
  | Ok (a : A)
  | Raise (e : exn).
Arguments Ok {A} a.
Arguments Raise {A} e.

Definition bind {A B} (r : result A) (k : A -> result B) : result B :=
  match r with
  | Ok a => k a
  | Raise e => Raise e
  end.

Notation "x <- r ;; k" := (bind r (fun x => k))
  (at level 61, r at next level, right associativity).
Notation "' p <- r ;; k" := (bind r (fun p => k))
  (at level 61, p pattern, r at next level, right associativity).

(** ** Python integers *)
Module Py.
Local Open Scope Z_scope.

Definition floordiv (a b : Z) : result Z :=
  if b =? 0 then Raise ZeroDivisionError else Ok (a / b).

Definition mod_ (a b : Z) : result Z :=
  if b =? 0 then Raise ZeroDivisionError else Ok (a mod b).

(** [seq[:stop]] on a sequence of length [len]: the number of elements kept. *)
Definition slice_stop (len : nat) (stop : option Z) : nat :=
  match stop with
  | None => len
  | Some s =>
      if s <? 0 then Z.to_nat (Z.max 0 (Z.of_nat len + s))
      else Nat.min (Z.to_nat s) len
  end.

Fixpoint str_in (s : string) (l : list string) : bool :=
  match l with
  | [] => false
  | x :: l' => String.eqb s x || str_in s l'
  end.
End Py.

(** ** Tensors *)

Inductive dtype : Type :=
  | Bool_ | UInt8 | UInt16 | UInt32 | UInt64
  | Int8 | Int16 | Int32 | Int64
  | Float16 | Float32 | Float64
  | Complex64 | Complex128.

Definition is_unsigned (d : dtype) : bool :=
  match d with UInt8 | UInt16 | UInt32 | UInt64 => true | _ => false end.

Definition is_signed_integer (d : dtype) : bool :=
  match d with Int8 | Int16 | Int32 | Int64 => true | _ => false end.

Definition is_complex (d : dtype) : bool :=
  match d with Complex64 | Complex128 => true | _ => false end.

Definition is_bool (d : dtype) : bool :=
  match d with Bool_ => true | _ => false end.

Definition is_floating_point (d : dtype) : bool :=
  match d with Float16 | Float32 | Float64 => true | _ => false end.

(** [np.iinfo(dtype).max] of an unsigned integer dtype. *)
Definition iinfo_max (d : dtype) : Z :=
  match d with
  | UInt8 => 255
  | UInt16 => 65535
  | UInt32 => 4294967295
  | UInt64 => 18446744073709551615
  | _ => 0
  end%Z.

Record tensor (T : Type) : Type := mkTensor {
  t_dtype : dtype;
  shape : list nat;
  get : list nat -> T
}.
Arguments mkTensor {T} _ _ _.

Definition dim {T} (t : tensor T) : nat := length (shape t).

(** All multi-indices of a shape, in row-major order. *)
Fixpoint indices (s : list nat) : list (list nat) :=
  match s with
  | [] => [[]]
  | n :: s' => flat_map (fun i => map (cons i) (indices s')) (seq 0 n)
  end.

(** The elements of a tensor, flattened in row-major order. *)
Definition elements {T} (t : tensor T) : list T :=
  map (get t) (indices (shape t)).

Definition in_bounds (idx s : list nat) : Prop := Forall2 lt idx s.

(** Two tensors hold the same data. *)
Definition same_tensor {T} (x y : tensor T) : Prop :=
  t_dtype x = t_dtype y /\ shape x = shape y /\ elements x = elements y.

(** A tensor from nested lists [N][C][H][W], for concrete inputs. *)
Definition of_lists {T} (d : dtype) (dflt : T) (l : list (list (list (list T))))
  : tensor T :=
  mkTensor d
    [length l; length (hd [] l); length (hd [] (hd [] l));
     length (hd [] (hd [] (hd [] l)))]
    (fun idx =>
       match idx with
       | [n; c; i; j] => nth j (nth i (nth c (nth n l []) []) []) dflt
       | _ => dflt
       end).

(** ** Resolution normalizer: padding *)
Section Padding.
Context {T : Type}.

(** [F.pad(image, (0, pw, 0, ph), mode="replicate")] on a 4-D tensor: the
    last row and the last column are repeated.  torch rejects an input
    with an empty channel or spatial axis.  A negative amount, which a
    positive alignment never produces, is outside the model and reported as
    an error. *)
Definition F_pad_replicate (image : tensor T) (pw ph : Z) : result (tensor T) :=
  match shape image with
  | [n; c; h; w] =>
      if (c =? 0) || (h =? 0) || (w =? 0) then Raise RuntimeError
      else if (pw <? 0)%Z || (ph <? 0)%Z then Raise NotImplementedError
      else
        Ok (mkTensor (t_dtype image)
              [n; c; h + Z.to_nat ph; w + Z.to_nat pw]
              (fun idx =>
                 match idx with
                 | [a; b; i; j] =>
                     get image [a; b; Nat.min i (h - 1); Nat.min j (w - 1)]
                 | _ => get image idx
                 end))
  | _ => Raise NotImplementedError
  end.

Definition pad_image (image : tensor T) (align : Z)
  : result (tensor T * (Z * Z)) :=
  match shape image with
  | [_; _; h; w] =>
      ph <- Py.mod_ (- Z.of_nat h) align ;;
      pw <- Py.mod_ (- Z.of_nat w) align ;;
      image' <- F_pad_replicate image pw ph ;;
      Ok (image', (ph, pw))
  | _ => Raise AssertionError
  end.

Definition unpad_image (image : tensor T) (padding : Z * Z)
  : result (tensor T) :=
  match shape image with
  | [n; c; h; w] =>
      let '(ph, pw) := padding in
      let uh := if (ph =? 0)%Z then None else Some (- ph)%Z in
      let uw := if (pw =? 0)%Z then None else Some (- pw)%Z in
      Ok (mkTensor (t_dtype image)
            [n; c; Py.slice_stop h uh; Py.slice_stop w uw]
            (get image))
  | _ => Raise AssertionError
  end.
End Padding.

(** ** Resolution normalizer: resizing *)
Section Resizing.
Context {T : Type}.

(** The elements [F.interpolate] computes: external to the file. *)
Variable resample :
  tensor T -> nat * nat -> string -> bool -> list nat -> T.

Definition resample_modes : list string :=
  ["nearest"; "nearest-exact"; "bilinear"; "bicubic"; "area"]%string.

(** [F.interpolate(image, size, mode=mode, antialias=antialias)] on a 4-D
    tensor: the result has the requested spatial size.  torch rejects an
    unknown mode and input or output sizes that are not positive. *)
Definition F_interpolate (image : tensor T) (size : Z * Z) (mode : string)
    (antialias : bool) : result (tensor T) :=
  match shape image with
  | [n; c; h; w] =>
      let '(new_h, new_w) := size in
      if negb (Py.str_in mode resample_modes) then Raise NotImplementedError
      else if (h =? 0) || (w =? 0) || (new_h <=? 0)%Z || (new_w <=? 0)%Z
      then Raise RuntimeError
      else
        let sz := (Z.to_nat new_h, Z.to_nat new_w) in
        Ok (mkTensor (t_dtype image) [n; c; fst sz; snd sz]
              (resample image sz mode antialias))
  | _ => Raise NotImplementedError
  end.

Definition resize_antialias (image : tensor T) (size : Z * Z) (mode : string)
    (is_aa : option bool) : result (tensor T) :=
  match dim image, is_aa with
  | 4, Some is_aa =>
      let antialias := is_aa && Py.str_in mode ["bilinear"; "bicubic"]%string in
      F_interpolate image size mode antialias
  | _, _ => Raise AssertionError
  end.

Definition resize_to_max_edge (image : tensor T) (max_edge_sz : Z)
    (mode : string) : result (tensor T) :=
  match shape image with
  | [_; _; h; w] =>
      let h := Z.of_nat h in
      let w := Z.of_nat w in
      let max_orig := Z.max h w in
      new_h <- Py.floordiv (h * max_edge_sz) max_orig ;;
      new_w <- Py.floordiv (w * max_edge_sz) max_orig ;;
      if (new_h =? 0)%Z || (new_w =? 0)%Z
      then Raise (ValueError ExtremeAspectRatio)
      else resize_antialias image (new_h, new_w) mode (Some true)
  | _ => Raise AssertionError
  end.
End Resizing.

(** ** Scalars *)

(** The arithmetic the normal-map code performs on tensor elements. *)
Class Scalar (T : Type) : Type := {
  zero : T;
  of_nat : nat -> T;        (* an element count, as a float *)
  eps_default : T;          (* the literal [1e-6] *)
  fadd : T -> T -> T;
  fmul : T -> T -> T;
  fdiv : T -> T -> T;
  fsqrt : T -> T;
  flt : T -> T -> bool;      (* [<]; false when either side is NaN *)
  isnan : T -> bool
}.

(** What [torch.argmax] needs of the comparison: a strict order that a NaN
    never satisfies. *)
Class ScalarOrder (T : Type) `{Scalar T} : Prop := {
  flt_irrefl : forall a, flt a a = false;
  flt_trans : forall a b c, flt a b = true -> flt b c = true -> flt a c = true;
  flt_nan_l : forall a b, isnan a = true -> flt a b = false;
  flt_nan_r : forall a b, isnan b = true -> flt a b = false
}.

Section Normals.
Context {T : Type} `{Scalar T}.

(** [arccos] and [np.pi] serve the uncertainty map only. *)
Variable arccos : T -> T.
Variable pi : T.

(** A sum in index order. *)
Definition sum (l : list T) : T :=
  match l with
  | [] => zero
  | x :: l' => fold_left fadd l' x
  end.

(** [x.clamp(min=m)]: a NaN stays a NaN. *)
Definition clamp_min (x m : T) : T := if flt x m then m else x.

(** The channel vector of a 4-D tensor at one pixel. *)
Definition pixel (t : tensor T) (n i j : nat) : list T :=
  map (fun c => get t [n; c; i; j]) (seq 0 (nth 1 (shape t) 0)).

Definition sqnorm (v : list T) : T := sum (map (fun x => fmul x x) v).

(** [torch.norm(v, dim=1)] at one pixel. *)
Definition norm (v : list T) : T := fsqrt (sqnorm v).

Definition dot (u v : list T) : T :=
  sum (map (fun p => fmul (fst p) (snd p)) (combine u v)).

(** [normals /= norm.clamp(min=eps)]: the update is in place and the
    updated tensor is returned; every caller rebinds its argument to the
    result. *)
Definition normalize_normals (normals : tensor T) (eps : T)
  : result (tensor T) :=
  match shape normals with
  | [_; _; _; _] =>
      Ok (mkTensor (t_dtype normals) (shape normals)
            (fun idx =>
               match idx with
               | [n; c; i; j] =>
                   fdiv (get normals idx)
                       (clamp_min (norm (pixel normals n i j)) eps)
               | _ => get normals idx
               end))
  | _ => Raise AssertionError
  end.

(** [normals.mean(dim=0, keepdim=True)]. *)
Definition mean_dim0 (t : tensor T) : tensor T :=
  match shape t with
  | e :: rest =>
      mkTensor (t_dtype t) (1 :: rest)
        (fun idx =>
           fdiv (sum (map (fun k => get t (k :: tl idx)) (seq 0 e)))
               (of_nat e))
  | [] => t
  end.

(** [torch.argmax]: the first index of a greatest element, a NaN counting
    as greater than every number. *)
Definition greater (a b : T) : bool :=
  (isnan a && negb (isnan b)) || flt b a.

Fixpoint argmax_from (best : nat) (bestv : T) (k : nat) (l : list T) : nat :=
  match l with
  | [] => best
  | x :: l' =>
      if greater x bestv then argmax_from k x (S k) l'
      else argmax_from best bestv (S k) l'
  end.

Definition argmax (l : list T) : nat :=
  match l with
  | [] => 0
  | x :: l' => argmax_from 0 x 1 l'
  end.

(** [sim_cos] of sample [e] at pixel [(i, j)]. *)
Definition sim_cos (mean_normals normals : tensor T) (e i j : nat) : T :=
  dot (pixel mean_normals 0 i j) (pixel normals e i j).

Definition ensemble_normals (normals : tensor T) (output_uncertainty : bool)
    (reduction : string) : result (tensor T * option (tensor T)) :=
  match shape normals with
  | [E; C; H; W] =>
      if negb (Py.str_in reduction ["closest"; "mean"]%string)
      then Raise AssertionError
      else if negb (C =? 3) then Raise AssertionError
      else
        let mean_normals := mean_dim0 normals in
        mean_normals <- normalize_normals mean_normals eps_default ;;
        let sim := sim_cos mean_normals normals in
        let uncertainty :=
          if output_uncertainty then
            Some (mkTensor (t_dtype normals) [1; 1; H; W]
                    (fun idx =>
                       match idx with
                       | [_; _; i; j] =>
                           fdiv (fdiv (sum (map (fun e => arccos (sim e i j))
                                            (seq 0 E)))
                                    (of_nat E))
                               pi
                       | _ => zero
                       end))
          else None in
        if String.eqb reduction "mean" then Ok (mean_normals, uncertainty)
        else if E =? 0 then Raise IndexError
        else
          let closest_indices i j :=
            argmax (map (fun e => sim e i j) (seq 0 E)) in
          let closest_normals :=
            mkTensor (t_dtype normals) [1; 3; H; W]
              (fun idx =>
                 match idx with
                 | [_; c; i; j] => get normals [closest_indices i j; c; i; j]
                 | _ => zero
                 end) in
          Ok (closest_normals, uncertainty)
  | _ => Raise AssertionError
  end.
End Normals.

(** ** IEEE 754 elements *)
Module Float.
Local Open Scope Z_scope.

Definition is_nan (x : spec_float) : bool :=
  match x with S754_nan => true | _ => false end.

(** [torch.isfinite]: neither an infinity nor a NaN. *)
Definition is_finite (x : spec_float) : bool :=
  match x with S754_zero _ | S754_finite _ _ _ => true | _ => false end.

(** A NaN or plus infinity: what a sum of squares with an infinite term
    evaluates to. *)
Definition nan_or_pinf (x : spec_float) : bool :=
  match x with S754_nan | S754_infinity false => true | _ => false end.

(** An integer as an unrounded float. *)
Definition exact (z : Z) : spec_float :=
  match z with
  | Z0 => S754_zero false
  | Zpos p => S754_finite false p 0
  | Zneg p => S754_finite true p 0
  end.

Section Format.
(** The format of a dtype: 11 and 16 for float16, 24 and 128 for
    float32, 53 and 1024 for float64. *)
Variables prec emax : Z.

(** Rounding to nearest even into the format. *)
Definition round (x : spec_float) : spec_float :=
  match x with
  | S754_finite s m e => binary_normalize prec emax (cond_Zopp s (Zpos m)) e s
  | _ => x
  end.

Definition of_Z (z : Z) : spec_float := round (exact z).

(** The decimal literal [m * 10^-k], correctly rounded. *)
Definition of_dec (m : Z) (k : nat) : spec_float :=
  SFdiv prec emax (exact m) (exact (10 ^ Z.of_nat k)).
End Format.

(** Python floats are binary64; [.item()] on a tensor element is exact. *)
Definition py_float (z : Z) : spec_float := of_Z 53 1024 z.
Definition py_dec (m : Z) (k : nat) : spec_float := of_dec 53 1024 m k.
Definition item (x : spec_float) : spec_float := round 53 1024 x.

(** Python's [<] and [>] on floats. *)
Definition py_lt (a b : spec_float) : bool := SFltb a b.
Definition py_gt (a b : spec_float) : bool := SFltb b a.

(** [tensor.max()] and [tensor.min()] over all elements: a NaN wins; torch
    raises on an empty tensor. *)
Definition max2 (a b : spec_float) : spec_float :=
  if is_nan a then a else if is_nan b then b
  else if SFltb a b then b else a.

Definition min2 (a b : spec_float) : spec_float :=
  if is_nan a then a else if is_nan b then b
  else if SFltb b a then b else a.

Definition torch_max (l : list spec_float) : result spec_float :=
  match l with
  | [] => Raise RuntimeError
  | x :: l' => Ok (fold_left max2 l' x)
  end.

Definition torch_min (l : list spec_float) : result spec_float :=
  match l with
  | [] => Raise RuntimeError
  | x :: l' => Ok (fold_left min2 l' x)
  end.

(** The arithmetic of a float tensor of the given format. *)
Definition scalar (prec emax : Z) : Scalar spec_float := {|
  zero := S754_zero false;
  of_nat := fun n => of_Z prec emax (Z.of_nat n);
  eps_default := round prec emax (py_dec 1 6);
  fadd := SFadd prec emax;
  fmul := SFmul prec emax;
  fdiv := SFdiv prec emax;
  fsqrt := SFsqrt prec emax;
  flt := SFltb;
  isnan := is_nan
|}.

Definition binary32 : Scalar spec_float := scalar 24 128.
End Float.

(** ** Image canonicalizer *)

Inductive py_image (T : Type) : Type :=
  | PILImage (pixels : tensor T)   (* carries the array [np.array(image)] gives *)
  | NdArray (a : tensor T)
  | TorchTensor (t : tensor T)
  | OtherObject.
Arguments OtherObject {T}.

Definition dtype_eqb (a b : dtype) : bool :=
  match a, b with
  | Bool_, Bool_ | UInt8, UInt8 | UInt16, UInt16 | UInt32, UInt32
  | UInt64, UInt64 | Int8, Int8 | Int16, Int16 | Int32, Int32 | Int64, Int64
  | Float16, Float16 | Float32, Float32 | Float64, Float64
  | Complex64, Complex64 | Complex128, Complex128 => true
  | _, _ => false
  end.

(** The array behind an image object, if it is one. *)
Definition image_array {T} (image : py_image T) : option (tensor T) :=
  match image with
  | PILImage a | NdArray a | TorchTensor a => Some a
  | OtherObject => None
  end.

Section Canonical.
Context {T : Type}.

(** The value conversion of [image.astype(np.float32)]. *)
Variable to_float32 : T -> T.

Definition astype_float32 (a : tensor T) : tensor T :=
  mkTensor Float32 (shape a) (fun idx => to_float32 (get a idx)).

(** [image.permute(2, 0, 1)] on a 3-D tensor. *)
Definition permute_2_0_1 (t : tensor T) : tensor T :=
  match shape t with
  | [s0; s1; s2] =>
      mkTensor (t_dtype t) [s2; s0; s1]
        (fun idx =>
           match idx with
           | [a; b; c] => get t [b; c; a]
           | _ => get t idx
           end)
  | _ => t
  end.

(** [image.repeat(3, 1, 1)] on a 3-D tensor. *)
Definition repeat_3_1_1 (t : tensor T) : tensor T :=
  match shape t with
  | [s0; s1; s2] =>
      mkTensor (t_dtype t) [3 * s0; s1; s2]
        (fun idx =>
           match idx with
           | [a; b; c] => get t [a mod s0; b; c]
           | _ => get t idx
           end)
  | _ => t
  end.

(** [image.unsqueeze(0)]. *)
Definition unsqueeze_0 (t : tensor T) : tensor T :=
  mkTensor (t_dtype t) (1 :: shape t) (fun idx => get t (tl idx)).

Definition load_image_canonical (image : py_image T)
  : result (tensor T * option Z) :=
  let image :=
    match image with
    | PILImage pixels => NdArray pixels
    | _ => image
    end in
  '(image, input_dtype_max) <-
    match image with
    | NdArray a =>
        let d := t_dtype a in
        if is_signed_integer d then Raise (ValueError DtypeSignedInteger)
        else if is_complex d then Raise (ValueError DtypeComplex)
        else if is_bool d then Raise (ValueError DtypeBoolean)
        else if is_unsigned d then Ok (astype_float32 a, Some (iinfo_max d))
        else Ok (a, None)
    | TorchTensor t => Ok (t, None)
    | _ => Raise AttributeError
    end ;;
  input_dtype_max <-
    match input_dtype_max with
    | None =>
        if negb (is_floating_point (t_dtype image)) then
          if negb (dtype_eqb (t_dtype image) UInt8)
          then Raise (ValueError DtypeNotSupported)
          else Ok (Some 255%Z)
        else Ok None
    | Some _ => Ok input_dtype_max
    end ;;
  match dim image with
  | 2 =>
      (* unsqueeze(0).unsqueeze(0).repeat(1, 3, 1, 1) *)
      Ok (mkTensor (t_dtype image) (1 :: 3 :: shape image)
            (fun idx => get image (tl (tl idx))),
          input_dtype_max)
  | 3 =>
      let image :=
        if (nth 2 (shape image) 0 =? 1) || (nth 2 (shape image) 0 =? 3)
        then permute_2_0_1 image else image in
      let image :=
        if nth 0 (shape image) 0 =? 1 then repeat_3_1_1 image else image in
      if negb (nth 0 (shape image) 0 =? 3)
      then Raise (ValueError NotOneOrThreeChannel)
      else Ok (unsqueeze_0 image, input_dtype_max)
  | 4 => Ok (image, input_dtype_max)
  | _ => Raise (ValueError NotTwoThreeFourDim)
  end.
End Canonical.

(** ** The pipeline *)

Definition check_image_values_range (image : tensor spec_float) : result unit :=
  if negb (is_floating_point (t_dtype image)) then Raise AssertionError
  else
    val_min <- Float.torch_min (elements image) ;;
    val_max <- Float.torch_max (elements image) ;;
    let val_min := Float.item val_min in
    let val_max := Float.item val_max in
    if Float.py_lt val_min (Float.py_float (-1))
       || Float.py_gt val_max (Float.py_float 1)
    then Raise (ValueError OutsideRange)
    else Ok tt.

Inductive py_latent : Type :=
  | LatentTensor (t : tensor spec_float)
  | OtherLatent.

Inductive py_generator : Type :=
  | Generator (device : string)
  | GeneratorList (devices : list string)
  | OtherGenerator.

Inductive py_kwargs : Type :=
  | Dict (items : list (string * string))
  | NotDict.

(** The fields of [self] the code reads. *)
Record pipeline : Type := mkPipeline {
  latent_space_size : Z;                       (* vae.config.latent_channels *)
  default_denoising_steps : option Z;
  default_processing_resolution : option Z;
  use_full_z_range : option bool;
  execution_device : string;
  self_dtype : dtype;
  empty_text_embedding : option (tensor spec_float)
}.

(** [self.empty_text_embedding is not None]. *)
Definition has_empty_text_embedding (self : pipeline) : bool :=
  match empty_text_embedding self with
  | Some _ => true
  | None => false
  end.

Definition latent_size_scale : Z := 8.

(** The format of [self.dtype]. *)
Definition format_of (d : dtype) : Z * Z :=
  match d with
  | Float16 => (11, 16)
  | Float64 => (53, 1024)
  | _ => (24, 128)
  end%Z.

(** The arguments of [__call__]. *)
Record call_args : Type := mkArgs {
  image : py_image spec_float;
  num_inference_steps : option Z;
  ensemble_size : Z;
  processing_resolution : option Z;
  match_input_resolution : bool;
  resample_method_input : string;
  resample_method_output : string;
  batch_size : Z;
  check_input : bool;
  ensembling_kwargs : option py_kwargs;
  input_latent : option py_latent;
  generator : option py_generator;
  output_prediction_format : string;
  output_visualization : bool;
  output_visualization_kwargs : option py_kwargs;
  output_uncertainty : bool;
  output_latent : bool
}.

Definition is_dict (k : py_kwargs) : bool :=
  match k with Dict _ => true | NotDict => false end.

(** [H, W = image.shape[-2:]]. *)
Definition last_two (s : list nat) : result (Z * Z) :=
  match rev s with
  | w :: h :: _ => Ok (Z.of_nat h, Z.of_nat w)
  | _ => Raise (ValueError UnpackShape)
  end.

Fixpoint shape_eqb (a b : list Z) : bool :=
  match a, b with
  | [], [] => true
  | x :: a', y :: b' => (x =? y)%Z && shape_eqb a' b'
  | _, _ => false
  end.

Section CheckInputs.
Local Open Scope Z_scope.
Variable self : pipeline.

Definition check_inputs
    (image : py_image spec_float)
    (num_inference_steps : option Z)
    (ensemble_size : Z)
    (processing_resolution : option Z)
    (resample_method_input resample_method_output : string)
    (batch_size : Z)
    (ensembling_kwargs : option py_kwargs)
    (input_latent : option py_latent)
    (generator : option py_generator)
    (output_prediction_format : string)
    (output_visualization_kwargs : option py_kwargs) : result unit :=
  num_inference_steps <-
    match num_inference_steps with
    | None => Raise (ValueError StepsUnresolved)
    | Some n => Ok n
    end ;;
  if num_inference_steps <? 1 then Raise (ValueError StepsNotPositive)
  else if ensemble_size <? 1 then Raise (ValueError EnsembleNotPositive)
  else
  processing_resolution <-
    match processing_resolution with
    | None => Raise (ValueError ResolutionUnresolved)
    | Some r => Ok r
    end ;;
  if processing_resolution <? 0 then Raise (ValueError ResolutionNegative)
  else if negb (processing_resolution mod latent_size_scale =? 0)
  then Raise (ValueError ResolutionNotMultiple)
  else if negb (Py.str_in resample_method_input resample_modes)
  then Raise (ValueError ResampleInput)
  else if negb (Py.str_in resample_method_output resample_modes)
  then Raise (ValueError ResampleOutput)
  else if batch_size <? 1 then Raise (ValueError BatchNotPositive)
  else if negb (Py.str_in output_prediction_format ["pt"; "np"]%string)
  then Raise (ValueError OutputFormat)
  else if match input_latent, generator with
          | Some _, Some _ => true
          | _, _ => false
          end
  then Raise (ValueError LatentAndGenerator)
  else if match ensembling_kwargs with
          | Some k => negb (is_dict k)
          | None => false
          end
  then Raise (ValueError EnsemblingKwargsNotDict)
  else if match output_visualization_kwargs with
          | Some k => negb (is_dict k)
          | None => false
          end
  then Raise (ValueError VisualizationKwargsNotDict)
  else
  (* image checks *)
  '(num_images, H, W) <-
    match image with
    | NdArray t | TorchTensor t =>
        '(H, W) <- last_two (shape t) ;;
        if negb (existsb (Nat.eqb (dim t)) [2; 3; 4]%nat)
        then Raise (ValueError ImageDimension)
        else if (dim t =? 4)%nat
        then Ok (Z.of_nat (nth 0 (shape t) 0%nat), H, W)
        else Ok (1, H, W)
    | PILImage pixels =>
        (* W, H = image.size *)
        Ok (1, Z.of_nat (nth 0 (shape pixels) 0%nat),
               Z.of_nat (nth 1 (shape pixels) 0%nat))
    | OtherObject => Raise (ValueError ImageType)
    end ;;
  (* input_latent checks *)
  _ <-
    match input_latent with
    | None => Ok tt
    | Some OtherLatent => Raise (ValueError LatentNotTensor)
    | Some (LatentTensor input_latent) =>
        if negb (negb (dim input_latent =? 4)%nat)
        then Raise (ValueError LatentDimension)
        else
          '(H, W) <-
            (if processing_resolution >? 0 then
               let max_orig := Z.max H W in
               new_H <- Py.floordiv (H * processing_resolution) max_orig ;;
               new_W <- Py.floordiv (W * processing_resolution) max_orig ;;
               if (new_H =? 0) || (new_W =? 0)
               then Raise (ValueError ExtremeAspectRatio)
               else Ok (new_H, new_W)
             else Ok (H, W)) ;;
          let w := (W + latent_size_scale - 1) / latent_size_scale in
          let h := (H + latent_size_scale - 1) / latent_size_scale in
          let shape_expected :=
            [num_images * ensemble_size; latent_space_size self; h; w] in
          if negb (shape_eqb (map Z.of_nat (shape input_latent)) shape_expected)
          then Raise (ValueError LatentShape)
          else Ok tt
    end ;;
  (* generator checks *)
  match generator with
  | None => Ok tt
  | Some (Generator d) =>
      if negb (String.eqb d (execution_device self))
      then Raise (ValueError GeneratorDevice)
      else Ok tt
  | Some (GeneratorList ds) =>
      if negb (Z.of_nat (length ds) =? num_images * ensemble_size)
      then Raise (ValueError GeneratorCount)
      else if negb (forallb (fun d => String.eqb d (execution_device self)) ds)
      then Raise (ValueError GeneratorListDevice)
      else Ok tt
  | Some OtherGenerator => Raise (ValueError GeneratorType)
  end.
End CheckInputs.

(** Python's [not x] on an [Optional[bool]]. *)
Definition py_not (x : option bool) : bool :=
  match x with
  | Some true => false
  | _ => true
  end.

Section Encoding.
(** The format of the tensors' dtype. *)
Variables prec emax : Z.

(** The mean half of [vae.quant_conv(vae.encoder(image))]; external. *)
Variable vae_encode_mean : tensor spec_float -> tensor spec_float.
Variable latent_scaling_factor : spec_float.
Variable self : pipeline.

Definition encode_image (image : tensor spec_float)
  : result (tensor spec_float) :=
  match shape image with
  | [_; 3; _; _] =>
      let mean := vae_encode_mean image in
      Ok (mkTensor (t_dtype mean) (shape mean)
            (fun idx => SFmul prec emax (get mean idx) latent_scaling_factor))
  | _ => Raise AssertionError
  end.

(** [((prediction**2).sum(dim=1) - 1.0).abs()], of shape [B,H,W]. *)
Definition unit_defect (prediction : tensor spec_float) : tensor spec_float :=
  match shape prediction with
  | [b; _; h; w] =>
      mkTensor (t_dtype prediction) [b; h; w]
        (fun idx =>
           match idx with
           | [n; i; j] =>
               SFabs
                 (SFsub prec emax
                    (@sqnorm _ (Float.scalar prec emax) (pixel prediction n i j))
                    (Float.of_Z prec emax 1))
           | _ => S754_nan
           end)
  | _ => prediction
  end.

(** [prediction[:, 2, :, :]]. *)
Definition z_channel (prediction : tensor spec_float) : tensor spec_float :=
  match shape prediction with
  | [b; _; h; w] =>
      mkTensor (t_dtype prediction) [b; h; w]
        (fun idx =>
           match idx with
           | [n; i; j] => get prediction [n; 2; i; j]
           | _ => S754_nan
           end)
  | _ => prediction
  end.

Definition encode_prediction (prediction : tensor spec_float)
    (check_input : bool) : result (tensor spec_float) :=
  if negb (is_floating_point (t_dtype prediction)) then Raise AssertionError
  else
    match shape prediction with
    | [_; 3; _; _] =>
        _ <-
          (if check_input then
             if existsb Float.is_nan (elements prediction)
             then Raise (ValueError NaNValues)
             else if forallb Float.is_finite (elements prediction)
             then Raise (ValueError NonFiniteValues)
             else
               m <- Float.torch_max (elements (unit_defect prediction)) ;;
               if Float.py_lt (Float.item m) (Float.py_dec 1 3)
               then Raise (ValueError NonUnitVectors)
               else Ok tt
           else Ok tt) ;;
        prediction <-
          (if py_not (use_full_z_range self) then
             let any_negative :=
               existsb (fun z => SFltb z (S754_zero false))
                 (elements (z_channel prediction)) in
             if check_input
                && Float.py_lt (Float.py_float (Z.b2z any_negative))
                     (Float.py_dec 1 3)
             then Raise (ValueError NegativeZ)
             else
               Ok (mkTensor (t_dtype prediction) (shape prediction)
                     (fun idx =>
                        match idx with
                        | [_; 2; _; _] =>
                            SFsub prec emax
                              (SFmul prec emax (get prediction idx)
                                 (Float.of_Z prec emax 2))
                              (Float.of_Z prec emax 1)
                        | _ => get prediction idx
                        end))
           else Ok prediction) ;;
        encode_image prediction
    | _ => Raise AssertionError
    end.
End Encoding.

(** ** Steps 0 to 3 of [__call__] *)

Section Preprocessing.
Variable resample :
  tensor spec_float -> nat * nat -> string -> bool -> list nat -> spec_float.

(** [image.to(device=device, dtype=dtype)]. *)
Definition to_dtype (d : dtype) (t : tensor spec_float) : tensor spec_float :=
  let '(prec, emax) := format_of d in
  mkTensor d (shape t) (fun idx => Float.round prec emax (get t idx)).

(** [image * (2.0 / input_dtype_max) - 1.0]. *)
Definition rescale (d : dtype) (t : tensor spec_float) (input_dtype_max : Z)
  : tensor spec_float :=
  let '(prec, emax) := format_of d in
  let factor :=
    Float.round prec emax
      (SFdiv 53 1024 (Float.py_float 2) (Float.py_float input_dtype_max)) in
  mkTensor (t_dtype t) (shape t)
    (fun idx =>
       SFsub prec emax (SFmul prec emax (get t idx) factor)
         (Float.of_Z prec emax 1)).

(** Step 3 of [__call__]: preprocessing the input image. *)
Definition preprocess (self : pipeline) (a : call_args)
    (processing_resolution : option Z)
  : result (tensor spec_float * (Z * Z) * list nat) :=
  '(image, input_dtype_max) <-
    load_image_canonical (Float.round 24 128) (image a) ;;
  let image := to_dtype (self_dtype self) image in
  let original_resolution := skipn (dim image - 2) (shape image) in
  image <-
    match input_dtype_max with
    | Some m => Ok (rescale (self_dtype self) image m)
    | None =>
        if check_input a
        then _ <- check_image_values_range image ;; Ok image
        else Ok image
    end ;;
  processing_resolution <-
    match processing_resolution with
    | Some r => Ok r
    | None => Raise TypeError
    end ;;
  image <-
    (if (processing_resolution >? 0)%Z
     then resize_to_max_edge resample image processing_resolution
            (resample_method_input a)
     else Ok image) ;;
  '(image, padding) <- pad_image image latent_size_scale ;;
  Ok (image, padding, original_resolution).

(** Steps 0 and 1 of [__call__]: the defaults are resolved and the inputs
    checked. *)
Definition resolve (arg default : option Z) : option Z :=
  match arg with
  | None => default
  | Some x => Some x
  end.

Definition resolve_and_check (self : pipeline) (a : call_args) : result unit :=
  (* 0. Resolving variables *)
  let num_inference_steps :=
    resolve (num_inference_steps a) (default_denoising_steps self) in
  let processing_resolution :=
    resolve (processing_resolution a) (default_processing_resolution self) in
  (* 1. Checking inputs *)
  check_inputs self (image a) num_inference_steps (ensemble_size a)
    processing_resolution (resample_method_input a)
    (resample_method_output a) (batch_size a) (ensembling_kwargs a)
    (input_latent a) (generator a) (output_prediction_format a)
    (output_visualization_kwargs a).

End Preprocessing.

(** ** Decoding and post-processing *)

(** The literals [-1.0], [1.0] and [0.5] in the element type. *)
Class Literals (T : Type) : Type := {
  minus_one : T;
  plus_one : T;
  one_half : T
}.

Definition float_literals (prec emax : Z) : Literals spec_float := {|
  minus_one := Float.of_Z prec emax (-1);
  plus_one := Float.of_Z prec emax 1;
  one_half := Float.of_dec prec emax 5 1
|}.

(** [torch.cat(ts, dim=0)]: torch rejects an empty list and tensors whose
    other axes differ. *)
Fixpoint cat_get {T} (ts : list (tensor T)) (a : nat) (r : list nat)
    (dflt : T) : T :=
  match ts with
  | [] => dflt
  | t :: ts' =>
      let n := hd 0 (shape t) in
      if a <? n then get t (a :: r) else cat_get ts' (a - n) r dflt
  end.

Definition cat_dim0 {T} (ts : list (tensor T)) : result (tensor T) :=
  match ts with
  | [] => Raise RuntimeError
  | t :: ts' =>
      if forallb
           (fun u => shape_eqb (map Z.of_nat (tl (shape u)))
                       (map Z.of_nat (tl (shape t)))) ts'
      then
        Ok (mkTensor (t_dtype t)
              (fold_right (fun u n => hd 0 (shape u) + n) 0 ts :: tl (shape t))
              (fun idx =>
                 match idx with
                 | a :: r => cat_get ts a r (get t idx)
                 | [] => get t idx
                 end))
      else Raise RuntimeError
  end.

(** A list comprehension whose body may raise. *)
Fixpoint for_each {A B} (f : A -> result B) (l : list A) : result (list B) :=
  match l with
  | [] => Ok []
  | x :: l' =>
      y <- f x ;;
      ys <- for_each f l' ;;
      Ok (y :: ys)
  end.

(** [**(ensembling_kwargs or {})] as the keyword arguments of
    [ensemble_normals]: only [reduction] is left to pass, and the keys of a
    dictionary are distinct.  A non-dictionary has been refused by
    [check_inputs]. *)
Definition ensembling_reduction (kwargs : option py_kwargs) : result string :=
  match kwargs with
  | None | Some (Dict []) => Ok "closest"%string
  | Some (Dict [(key, value)]) =>
      if String.eqb key "reduction" then Ok value else Raise TypeError
  | Some (Dict _) => Raise TypeError
  | Some NotDict => Raise TypeError
  end.

Section Decoding.
Context {T : Type} {scalar : Scalar T} {literals : Literals T}.

(** [vae.decoder(vae.post_quant_conv(x))]; external. *)
Variable vae_decode : tensor T -> tensor T.
Variable latent_scaling_factor : T.
Variable self : pipeline.

Definition decode_image (pred_latent : tensor T) : result (tensor T) :=
  match shape pred_latent with
  | [_; c; _; _] =>
      if negb (Z.of_nat c =? latent_space_size self)%Z then Raise AssertionError
      else
        Ok (vae_decode
              (mkTensor (t_dtype pred_latent) (shape pred_latent)
                 (fun idx => fdiv (get pred_latent idx) latent_scaling_factor)))
  | _ => Raise AssertionError
  end.

(** [torch.clip(x, lo, hi)]: a NaN stays a NaN. *)
Definition clip (x lo hi : T) : T :=
  if flt x lo then lo else if flt hi x then hi else x.

Definition decode_prediction (pred_latent : tensor T) : result (tensor T) :=
  match shape pred_latent with
  | [_; c; _; _] =>
      if negb (Z.of_nat c =? latent_space_size self)%Z then Raise AssertionError
      else
        prediction <- decode_image pred_latent ;;
        let prediction :=
          mkTensor (t_dtype prediction) (shape prediction)
            (fun idx => clip (get prediction idx) minus_one plus_one) in
        prediction <-
          (if py_not (use_full_z_range self) then
             (* prediction[:, 2, :, :] *= 0.5; prediction[:, 2, :, :] += 0.5 *)
             match shape prediction with
             | [_; c'; _; _] =>
                 if c' <=? 2 then Raise IndexError
                 else
                   Ok (mkTensor (t_dtype prediction) (shape prediction)
                         (fun idx =>
                            match idx with
                            | [_; 2; _; _] =>
                                fadd (fmul (get prediction idx) one_half) one_half
                            | _ => get prediction idx
                            end))
             | _ => Raise IndexError
             end
           else Ok prediction) ;;
        normalize_normals prediction eps_default
  | _ => Raise AssertionError
  end.
End Decoding.

Section Postprocess.
Context {T : Type} {scalar : Scalar T}.
Variable resample : tensor T -> nat * nat -> string -> bool -> list nat -> T.
Variable arccos : T -> T.
Variable pi : T.

(** [prediction.reshape(num_images, ensemble_size, ...)[i]]: the samples of
    image [i]. *)
Definition image_samples (prediction : tensor T) (E i : nat) : tensor T :=
  mkTensor (t_dtype prediction) (E :: tl (shape prediction))
    (fun idx =>
       match idx with
       | e :: r => get prediction ((i * E + e) :: r)
       | [] => get prediction idx
       end).

(** The size argument of [F.interpolate] from [image.shape[-2:]]. *)
Definition size_of (resolution : list nat) : result (Z * Z) :=
  match resolution with
  | [h; w] => Ok (Z.of_nat h, Z.of_nat w)
  | _ => Raise RuntimeError
  end.

(** Step 7 of [__call__], up to the visualization: unpadding, ensembling
    and the resize to the input resolution. *)
Definition postprocess (prediction : tensor T) (padding : Z * Z)
    (num_images : nat) (ensemble_size : Z)
    (ensembling_kwargs : option py_kwargs) (output_uncertainty : bool)
    (match_input_resolution : bool) (original_resolution : list nat)
    (resample_method_output : string)
  : result (tensor T * option (tensor T)) :=
  prediction <- unpad_image prediction padding ;;
  '(prediction, uncertainty) <-
    (if (ensemble_size >? 1)%Z then
       (* prediction.reshape(num_images, ensemble_size, *prediction.shape[1:]):
          the numbers of elements must agree *)
       if negb (Z.of_nat (fold_right Nat.mul 1%nat (shape prediction))
                =? Z.of_nat num_images * ensemble_size
                   * Z.of_nat (fold_right Nat.mul 1%nat (tl (shape prediction))))%Z
       then Raise RuntimeError
       else
         results <-
           for_each
             (fun i =>
                reduction <- ensembling_reduction ensembling_kwargs ;;
                ensemble_normals arccos pi
                  (image_samples prediction (Z.to_nat ensemble_size) i)
                  output_uncertainty reduction)
             (seq 0 num_images) ;;
         (* prediction, uncertainty = zip( *prediction) *)
         match results with
         | [] => Raise (ValueError UnpackShape)
         | _ =>
             prediction <- cat_dim0 (map fst results) ;;
             uncertainty <-
               for_each
                 (fun u =>
                    match u with
                    | Some t => Ok t
                    | None => Raise TypeError
                    end)
                 (map snd results) ;;
             uncertainty <- cat_dim0 uncertainty ;;
             Ok (prediction, Some uncertainty)
         end
     else Ok (prediction, None)) ;;
  if match_input_resolution then
    size <- size_of original_resolution ;;
    prediction <-
      resize_antialias resample prediction size resample_method_output
        (Some false) ;;
    prediction <- normalize_normals prediction eps_default ;;
    uncertainty <-
      match uncertainty with
      | Some u =>
          if output_uncertainty then
            u <- resize_antialias resample u size resample_method_output
                   (Some false) ;;
            Ok (Some u)
          else Ok (Some u)
      | None => Ok None
      end ;;
    Ok (prediction, uncertainty)
  else Ok (prediction, uncertainty).
End Postprocess.

(** ** Batching *)

(** [range(0, stop, step)] for a length [stop]; [None] stands for the
    ValueError Python raises on a zero step. *)
Definition py_range (stop : nat) (step : Z) : option (list Z) :=
  if (step =? 0)%Z then None
  else if (step <? 0)%Z || (stop =? 0) then Some []
  else
    Some (map (fun k => Z.of_nat k * step)%Z
            (seq 0 (Z.to_nat ((Z.of_nat stop - 1) / step + 1)))).

Section Batching.
Context {T : Type}.

(** [t[start : stop]] along the first axis, for bounds that are not
    negative: a slice clamps them to the length. *)
Definition rows (t : tensor T) (start stop : nat) : tensor T :=
  let len := hd 0 (shape t) in
  mkTensor (t_dtype t)
    ((Nat.min stop len - Nat.min start len) :: tl (shape t))
    (fun idx =>
       match idx with
       | a :: r => get t ((start + a) :: r)
       | [] => get t idx
       end).

(** [[t[i : i + batch_size] for i in range(0, t.shape[0], batch_size)]], as
    [prepare_latent] and steps 5 and 6 of [__call__] cut their input. *)
Definition batches (t : tensor T) (batch_size : Z)
  : option (list (tensor T)) :=
  match py_range (hd 0 (shape t)) batch_size with
  | Some starts =>
      Some (map (fun i => rows t (Z.to_nat i) (Z.to_nat (i + batch_size)))
              starts)
  | None => None
  end.

(** [torch.cat([f(t[i : i + batch_size]) for i in range(...)], dim=0)], the
    way [prepare_latent] encodes and step 6 of [__call__] decodes. *)
Definition cat_batches (f : tensor T -> result (tensor T)) (t : tensor T)
    (batch_size : Z) : option (result (tensor T)) :=
  match batches t batch_size with
  | Some bs => Some (ts <- for_each f bs ;; cat_dim0 ts)
  | None => None
  end.

(** [t.repeat_interleave(repeats, dim=0)] for a count that [check_inputs]
    has found positive. *)
Definition repeat_interleave (t : tensor T) (repeats : nat) : tensor T :=
  mkTensor (t_dtype t) (hd 0 (shape t) * repeats :: tl (shape t))
    (fun idx =>
       match idx with
       | a :: r => get t ((a / repeats) :: r)
       | [] => get t idx
       end).
End Batching.

(** ** Vocabulary of the properties *)

(** [num_images] as [__call__] and [check_inputs] compute it: the batch axis
    of a 4-D array or tensor, and 1 otherwise. *)
Definition num_images (img : py_image spec_float) : Z :=
  match img with
  | NdArray t | TorchTensor t =>
      if dim t =? 4 then Z.of_nat (nth 0 (shape t) 0) else 1%Z
  | _ => 1%Z
  end.

(** A PIL image, or an array or tensor with 2, 3 or 4 axes. *)
Definition supported_image (img : py_image spec_float) : bool :=
  match img with
  | PILImage _ => true
  | NdArray t | TorchTensor t => (2 <=? dim t) && (dim t <=? 4)
  | OtherObject => false
  end.

(** No generator, one generator on the pipeline's device, or one generator
    per ensemble member, all on the pipeline's device. *)
Definition supported_generator (self : pipeline) (gen : option py_generator)
    (members : Z) : bool :=
  match gen with
  | None => true
  | Some (Generator d) => String.eqb d (execution_device self)
  | Some (GeneratorList ds) =>
      (Z.of_nat (length ds) =? members)%Z
      && forallb (fun d => String.eqb d (execution_device self)) ds
  | Some OtherGenerator => false
  end.

Definition is_not_dict (k : option py_kwargs) : bool :=
  match k with
  | Some NotDict => true
  | _ => false
  end.

(** The source maximum the canonicalizer reports: the maximum of the dtype
    for a numpy array (or PIL image) of unsigned integers, 255 for a torch
    uint8 tensor, none for floating-point data. *)
Definition source_max {T} (img : py_image T) : option Z :=
  match img with
  | PILImage a | NdArray a =>
      if is_unsigned (t_dtype a) then Some (iinfo_max (t_dtype a)) else None
  | TorchTensor t => if dtype_eqb (t_dtype t) UInt8 then Some 255%Z else None
  | OtherObject => None
  end.

(** The element types the canonicalizer takes. *)
Definition accepted_dtype {T} (img : py_image T) : bool :=
  match img with
  | PILImage a | NdArray a =>
      is_floating_point (t_dtype a) || is_unsigned (t_dtype a)
  | TorchTensor t =>
      is_floating_point (t_dtype t) || dtype_eqb (t_dtype t) UInt8
  | OtherObject => false
  end.

(** The shapes the canonicalizer takes: 2-D, 4-D, and 3-D with 1 or 3 as
    last or first axis. *)
Definition accepted_shape (s : list nat) : bool :=
  match s with
  | [_; _] => true
  | [s0; _; s2] => (s2 =? 1) || (s2 =? 3) || (s0 =? 1) || (s0 =? 3)
  | [_; _; _; _] => true
  | _ => false
  end.

(** The value of an element after the dtype handling: numpy arrays of
    unsigned integers are converted to float32. *)
Definition converted {T} (to_float32 : T -> T) (img : py_image T) (x : T) : T :=
  match img with
  | PILImage a | NdArray a => if is_unsigned (t_dtype a) then to_float32 x else x
  | _ => x
  end.

(** The words of the claims on ensembles, written out on the elements of a
    tensor of shape [E,3,H,W]: the mean of the samples at a pixel, the
    direction of that mean (its components over its length, the length
    floored at 1e-6), and the cosine similarity of sample [e] with that
    direction. *)
Section EnsembleWords.
Context {T : Type} {scalar : Scalar T}.
Variable normals : tensor T.
Variable E : nat.

Definition spec_mean (c i j : nat) : T :=
  match E with
  | 0 => fdiv zero (of_nat 0)
  | S n =>
      fdiv
        (fold_left fadd (map (fun e => get normals [e; c; i; j]) (seq 1 n))
           (get normals [0; c; i; j]))
        (of_nat E)
  end.

Definition spec_mean_length (i j : nat) : T :=
  fsqrt
    (fadd
       (fadd (fmul (spec_mean 0 i j) (spec_mean 0 i j))
          (fmul (spec_mean 1 i j) (spec_mean 1 i j)))
       (fmul (spec_mean 2 i j) (spec_mean 2 i j))).

Definition spec_mean_direction (c i j : nat) : T :=
  fdiv (spec_mean c i j)
    (if flt (spec_mean_length i j) eps_default then eps_default
     else spec_mean_length i j).

Definition spec_cosine (e i j : nat) : T :=
  fadd
    (fadd
       (fmul (spec_mean_direction 0 i j) (get normals [e; 0; i; j]))
       (fmul (spec_mean_direction 1 i j) (get normals [e; 1; i; j])))
    (fmul (spec_mean_direction 2 i j) (get normals [e; 2; i; j])).
End EnsembleWords.

(** ** [__call__] *)

(** The collaborators a call invokes. *)
Inductive collaborator : Type :=
  | Tokenizer | TextEncoder | VaeEncoder | SchedulerSetTimesteps | UNet
  | SchedulerStep | VaeDecoder | Visualizer.

(** [MarigoldNormalsOutput]. *)
Record output (V : Type) : Type := mkOutput {
  out_prediction : tensor spec_float;
  out_visualization : option (list V);
  out_uncertainty : option (tensor spec_float);
  out_latent : option (tensor spec_float)
}.

(** The [ValueError]s this file raises itself, as opposed to Python's own. *)
Definition validation_error (e : exn) : bool :=
  match e with
  | ValueError UnpackShape | ValueError RangeStepZero => false
  | ValueError _ => true
  | _ => false
  end.

(** [torch.cat([a, b], dim=1)]. *)
Definition cat2_dim1 {T} (a b : tensor T) : result (tensor T) :=
  match shape a, shape b with
  | n :: ca :: ra, n' :: cb :: rb =>
      if (n =? n') && shape_eqb (map Z.of_nat ra) (map Z.of_nat rb) then
        Ok (mkTensor (t_dtype a) (n :: (ca + cb) :: ra)
              (fun idx =>
                 match idx with
                 | x :: c :: r =>
                     if c <? ca then get a idx else get b (x :: (c - ca) :: r)
                 | _ => get a idx
                 end))
      else Raise RuntimeError
  | _, _ => Raise IndexError
  end.

(** [t.repeat(n, 1, 1)]: a tensor of fewer than three axes gets leading
    axes of size 1, one of more than three is refused. *)
Definition repeat_first {T} (t : tensor T) (n : Z) : result (tensor T) :=
  let missing := 3 - length (shape t) in
  match repeat 1 missing ++ shape t with
  | [a; b; c] =>
      if (n <? 0)%Z then Raise RuntimeError
      else
        Ok (mkTensor (t_dtype t) [a * Z.to_nat n; b; c]
              (fun idx =>
                 match idx with
                 | x :: r => get t (skipn missing ((x mod a) :: r))
                 | [] => get t idx
                 end))
  | _ => Raise RuntimeError
  end.

(** [prediction[i].permute(1, 2, 0)]. *)
Definition image_hwc {T} (t : tensor T) (i : nat) : result (tensor T) :=
  match shape t with
  | [n; c; h; w] =>
      if i <? n then
        Ok (mkTensor (t_dtype t) [h; w; c]
              (fun idx =>
                 match idx with
                 | [y; x; k] => get t [i; k; y; x]
                 | _ => get t idx
                 end))
      else Raise IndexError
  | [] => Raise IndexError
  | n :: _ => if i <? n then Raise RuntimeError else Raise IndexError
  end.

Section Call.
Variable resample :
  tensor spec_float -> nat * nat -> string -> bool -> list nat -> spec_float.

(** The collaborators.  The text encoder's answer to the empty prompt, the
    VAE and the U-Net are functions of their input; the scheduler and the
    random generators have a state, [S].  A collaborator always answers:
    an exception raised inside one is not modelled. *)
Variable S : Type.
Variable Timestep : Type.
Variable V : Type.                       (* a PIL image *)
Variable text_encoder_output : tensor spec_float.
Variable vae_encode_mean : tensor spec_float -> tensor spec_float.
Variable vae_decode : tensor spec_float -> tensor spec_float.
Variable latent_scaling_factor : spec_float.
Variable unet :
  tensor spec_float -> Timestep -> tensor spec_float -> tensor spec_float.
Variable set_timesteps : S -> option Z -> S.
Variable timesteps : S -> list Timestep.
Variable scheduler_step :
  S -> tensor spec_float -> Timestep -> tensor spec_float ->
  option py_generator -> S * tensor spec_float.
Variable randn_tensor :
  S -> list nat -> option py_generator -> dtype -> S * tensor spec_float.
Variable visualize_normals : tensor spec_float -> option py_kwargs -> V.
Variable arccos : spec_float -> spec_float.
Variable pi : spec_float.

(** What a call can change: the pipeline, the state of the scheduler and
    the generators, and the list of the collaborators invoked so far. *)
Record state : Type := mkState {
  st_self : pipeline;
  st_world : S;
  st_invoked : list collaborator
}.

Definition M (A : Type) : Type := state -> state * result A.

Definition ret {A} (a : A) : M A := fun s => (s, Ok a).

Definition lift {A} (r : result A) : M A := fun s => (s, r).

Definition bindM {A B} (m : M A) (k : A -> M B) : M B :=
  fun s =>
    let '(s', r) := m s in
    match r with
    | Ok a => k a s'
    | Raise e => (s', Raise e)
    end.

Notation "x <~ m ;; k" := (bindM m (fun x => k))
  (at level 61, m at next level, right associativity).
Notation "' p <~ m ;; k" := (bindM m (fun p => k))
  (at level 61, p pattern, m at next level, right associativity).

Definition invoke (c : collaborator) : M unit :=
  fun s => (mkState (st_self s) (st_world s) (st_invoked s ++ [c]), Ok tt).

Definition with_world {A} (f : S -> S * A) : M A :=
  fun s =>
    let '(w, a) := f (st_world s) in
    (mkState (st_self s) w (st_invoked s), Ok a).

Definition get_self : M pipeline := fun s => (s, Ok (st_self s)).

Definition set_self (self : pipeline) : M unit :=
  fun s => (mkState self (st_world s) (st_invoked s), Ok tt).

Fixpoint for_eachM {A B} (f : A -> M B) (l : list A) : M (list B) :=
  match l with
  | [] => ret []
  | x :: l' =>
      y <~ f x ;;
      ys <~ for_eachM f l' ;;
      ret (y :: ys)
  end.

(** [range(0, stop, step)] in a call. *)
Definition range (stop : nat) (step : Z) : M (list Z) :=
  match py_range stop step with
  | Some l => ret l
  | None => lift (Raise (ValueError RangeStepZero))
  end.

(** [t[i : i + batch_size]] for an index [i] of such a range. *)
Definition batch_at (t : tensor spec_float) (i batch_size : Z)
  : tensor spec_float :=
  rows t (Z.to_nat i) (Z.to_nat (i + batch_size)).

Definition encode_empty_text : M unit :=
  self <~ get_self ;;
  _ <~ invoke Tokenizer ;;
  _ <~ invoke TextEncoder ;;
  set_self
    (mkPipeline (latent_space_size self) (default_denoising_steps self)
       (default_processing_resolution self) (use_full_z_range self)
       (execution_device self) (self_dtype self)
       (Some (to_dtype (self_dtype self) text_encoder_output))).

(** [self.encode_image(batch)]: the assertion comes before the VAE. *)
Definition encode_batch (self : pipeline) (batch : tensor spec_float)
  : M (tensor spec_float) :=
  let '(prec, emax) := format_of (self_dtype self) in
  match shape batch with
  | [_; 3; _; _] =>
      _ <~ invoke VaeEncoder ;;
      lift (encode_image prec emax vae_encode_mean latent_scaling_factor batch)
  | _ =>
      lift (encode_image prec emax vae_encode_mean latent_scaling_factor batch)
  end.

Definition prepare_latent (self : pipeline) (image : tensor spec_float)
    (input_latent : option py_latent) (generator : option py_generator)
    (ensemble_size batch_size : Z)
  : M (tensor spec_float * tensor spec_float) :=
  starts <~ range (hd 0 (shape image)) batch_size ;;
  latents <~
    for_eachM (fun i => encode_batch self (batch_at image i batch_size))
      starts ;;
  image_latent <~ lift (cat_dim0 latents) ;;
  image_latent <~
    (if (ensemble_size <? 0)%Z then lift (Raise RuntimeError)
     else ret (repeat_interleave image_latent (Z.to_nat ensemble_size))) ;;
  match input_latent with
  | None =>
      input_latent <~
        with_world
          (fun w =>
             randn_tensor w (shape image_latent) generator
               (t_dtype image_latent)) ;;
      ret (image_latent, input_latent)
  | Some (LatentTensor t) => ret (image_latent, t)
  | Some OtherLatent => lift (Raise TypeError)
  end.

(** The inner loop of step 5, over the time steps of one batch. *)
Fixpoint denoise (ts : list Timestep)
    (batch_image_latent batch_pred_latent batch_text_embedding
       : tensor spec_float)
    (generator : option py_generator) : M (tensor spec_float) :=
  match ts with
  | [] => ret batch_pred_latent
  | t :: ts' =>
      batch_latent <~ lift (cat2_dim1 batch_image_latent batch_pred_latent) ;;
      _ <~ invoke UNet ;;
      let noise := unet batch_latent t batch_text_embedding in
      _ <~ invoke SchedulerStep ;;
      batch_pred_latent <~
        with_world
          (fun w => scheduler_step w noise t batch_pred_latent generator) ;;
      denoise ts' batch_image_latent batch_pred_latent batch_text_embedding
        generator
  end.

(** Step 5 of [__call__]. *)
Definition denoising_loop (image_latent pred_latent : tensor spec_float)
    (num_images : Z) (a : call_args) (num_inference_steps : option Z)
  : M (tensor spec_float) :=
  self <~ get_self ;;
  batch_empty_text_embedding <~
    lift
      match empty_text_embedding self with
      | Some e => repeat_first (to_dtype (self_dtype self) e) (batch_size a)
      | None => Raise AttributeError
      end ;;
  starts <~ range (Z.to_nat (num_images * ensemble_size a)) (batch_size a) ;;
  clean_latent <~
    for_eachM
      (fun i =>
         let batch_image_latent := batch_at image_latent i (batch_size a) in
         let batch_pred_latent := batch_at pred_latent i (batch_size a) in
         let B := hd 0 (shape batch_image_latent) in
         let batch_text_embedding := rows batch_empty_text_embedding 0 B in
         _ <~ invoke SchedulerSetTimesteps ;;
         ts <~
           with_world
             (fun w =>
                let w' := set_timesteps w num_inference_steps in
                (w', timesteps w')) ;;
         denoise ts batch_image_latent batch_pred_latent batch_text_embedding
           (generator a))
      starts ;;
  lift (cat_dim0 clean_latent).

(** [self.decode_prediction(batch)]: the assertion comes before the VAE. *)
Definition decode_batch (self : pipeline) (batch : tensor spec_float)
  : M (tensor spec_float) :=
  let '(prec, emax) := format_of (self_dtype self) in
  let decoded :=
    @decode_prediction _ (Float.scalar prec emax) (float_literals prec emax)
      vae_decode latent_scaling_factor self batch in
  match shape batch with
  | [_; c; _; _] =>
      if (Z.of_nat c =? latent_space_size self)%Z
      then _ <~ invoke VaeDecoder ;; lift decoded
      else lift decoded
  | _ => lift decoded
  end.

(** Step 6 of [__call__]. *)
Definition decode (self : pipeline) (pred_latent : tensor spec_float)
    (batch_size : Z) : M (tensor spec_float) :=
  starts <~ range (hd 0 (shape pred_latent)) batch_size ;;
  predictions <~
    for_eachM (fun i => decode_batch self (batch_at pred_latent i batch_size))
      starts ;;
  lift (cat_dim0 predictions).

(** The visualization of step 7. *)
Definition visualize (prediction : tensor spec_float) (num_images : Z)
    (kwargs : option py_kwargs) : M (list V) :=
  for_eachM
    (fun i =>
       img <~ lift (image_hwc prediction i) ;;
       _ <~ invoke Visualizer ;;
       ret (visualize_normals img kwargs))
    (seq 0 (Z.to_nat num_images)).

(** Steps 4 to 7 of [__call__].  The progress bar is left out, and so is
    the conversion of the output to numpy, which changes the container
    only. *)
Definition steps_4_to_7 (a : call_args) (num_images : Z)
    (num_inference_steps : option Z) (image : tensor spec_float)
    (padding : Z * Z) (original_resolution : list nat) : M (output V) :=
  self <~ get_self ;;
  let '(prec, emax) := format_of (self_dtype self) in
  (* 4. Encode input image into latent space *)
  '(image_latent, pred_latent) <~
    prepare_latent self image (input_latent a) (generator a)
      (ensemble_size a) (batch_size a) ;;
  (* 5. Denoising loop *)
  pred_latent <~
    denoising_loop image_latent pred_latent num_images a
      num_inference_steps ;;
  (* 6. Decode prediction from latent into pixel space *)
  prediction <~ decode self pred_latent (batch_size a) ;;
  (* 7. Postprocess predictions *)
  '(prediction, uncertainty) <~
    lift
      (@postprocess _ (Float.scalar prec emax) resample arccos pi prediction
         padding (Z.to_nat num_images) (ensemble_size a) (ensembling_kwargs a)
         (output_uncertainty a) (match_input_resolution a)
         original_resolution (resample_method_output a)) ;;
  visualization <~
    (if output_visualization a then
       v <~ visualize prediction num_images (output_visualization_kwargs a) ;;
       ret (Some v)
     else ret None) ;;
  ret (mkOutput prediction visualization uncertainty
         (if output_latent a then Some pred_latent else None)).

Definition call_body (a : call_args) : M (output V) :=
  self <~ get_self ;;
  (* 0. Resolving variables *)
  let num_images := num_images (image a) in
  let num_inference_steps :=
    resolve (num_inference_steps a) (default_denoising_steps self) in
  let processing_resolution :=
    resolve (processing_resolution a) (default_processing_resolution self) in
  (* 1. Checking inputs *)
  _ <~ lift (resolve_and_check self a) ;;
  (* 2. Prepare empty text conditioning *)
  _ <~ (if has_empty_text_embedding self then ret tt else encode_empty_text) ;;
  (* 3. Preprocessing input image *)
  '(image, padding, original_resolution) <~
    lift (preprocess resample self a processing_resolution) ;;
  (* 4. to 7. *)
  steps_4_to_7 a num_images num_inference_steps image padding
    original_resolution.

(** A call on a pipeline and a state of its scheduler and generators: the
    collaborators invoked, in order, the pipeline and the state afterwards,
    and the output or the exception. *)
Definition call (self : pipeline) (world : S) (a : call_args)
  : list collaborator * pipeline * S * result (output V) :=
  let '(s, r) := call_body a (mkState self world []) in
  (st_invoked s, st_self s, st_world s, r).
End Call.

(** A computation that raises no [ValueError] of this file. *)
Definition quiet {A} (r : result A) : Prop :=
  forall e, r = Raise e -> validation_error e = false.

(** The models: every collaborator but the tokenizer and the text encoder. *)
Definition is_model (c : collaborator) : bool :=
  match c with
  | Tokenizer | TextEncoder => false
  | _ => true
  end.

(** A part of a call that leaves the pipeline as it is, invokes models
    only, and raises no [ValueError] of this file. *)
Definition late {S A} (m : M S A) : Prop :=
  forall s,
    st_self (fst (m s)) = st_self s /\
    (exists added,
       st_invoked (fst (m s)) = st_invoked s ++ added /\
       forallb is_model added = true) /\
    quiet (snd (m s)).

(** ** Concrete inputs *)

Definition sample_image : tensor Z :=
  of_lists Float32 0%Z [[[[1; 2; 3]; [4; 5; 6]]]]%Z.

(** A stand-in for the elements [F.interpolate] computes: nearest neighbour. *)
Definition nearest {T} (image : tensor T) (size : nat * nat) (mode : string)
    (antialias : bool) (idx : list nat) : T :=
  match shape image, idx with
  | [_; _; h; w], [a; b; i; j] =>
      get image [a; b; i * h / fst size; j * w / snd size]
  | _, _ => get image idx
  end.

(** A pipeline as [from_pretrained] builds it for the LCM checkpoint, before
    its first call. *)
Definition sample_pipeline : pipeline :=
  mkPipeline 4 (Some 4%Z) (Some 768%Z) (Some false) "cpu" Float32 None.

(** A float32 image tensor of shape [1,3,64,64], every element [v]. *)
Definition constant_image (v : spec_float) : tensor spec_float :=
  mkTensor Float32 [1; 3; 64; 64] (fun _ => v).

Definition half : spec_float := Float.of_dec 24 128 5 1.

(** A latent of the shape expected for a 64 x 64 image. *)
Definition sample_latent : tensor spec_float :=
  mkTensor Float32 [1; 4; 8; 8] (fun _ => S754_zero false).

Definition sample_args (img : py_image spec_float)
    (latent : option py_latent) : call_args :=
  mkArgs img (Some 4%Z) 1 (Some 64%Z) true "bilinear" "bilinear" 1 true
    None latent None "np" true None true false.

(** A one-channel batch of shape [1,1,2,3] and an 8-bit grayscale tensor of
    shape [2,3]. *)
Definition gray_batch : tensor spec_float :=
  mkTensor Float32 [1; 1; 2; 3] (fun _ => half).

Definition gray_uint8 : tensor spec_float :=
  mkTensor UInt8 [2; 3] (fun _ => Float.exact 128).

(** An image whose elements are all 2.0, outside of [-1,1]. *)
Definition two : spec_float := Float.of_Z 24 128 2.

(** A stand-in for the VAE encoder: a zero latent at one eighth of the
    resolution. *)
Definition zero_latent (image : tensor spec_float) : tensor spec_float :=
  match shape image with
  | [b; _; h; w] =>
      mkTensor (t_dtype image) [b; 4; h / 8; w / 8] (fun _ => S754_zero false)
  | _ => image
  end.

Definition scaling_factor : spec_float := Float.of_dec 24 128 18215 5.

(** One-pixel predictions of shape [1,3,1,1]. *)
Definition one_pixel (x y z : spec_float) : tensor spec_float :=
  mkTensor Float32 [1; 3; 1; 1]
    (fun idx =>
       match idx with
       | [_; 0; _; _] => x
       | [_; 1; _; _] => y
       | _ => z
       end).

Definition one : spec_float := Float.of_Z 24 128 1.

(** The unit normal (0, 0, 1), facing the observer. *)
Definition facing : tensor spec_float :=
  one_pixel (S754_zero false) (S754_zero false) one.

(** A prediction with an infinite component. *)
Definition infinite : tensor spec_float :=
  one_pixel (S754_infinity false) (S754_zero false) (SFopp one).

(** Ensembles of one-pixel samples, shape [E,3,1,1]: (0,0,1) twice and its
    antipode (0,0,-1); and the antipodal pair alone. *)
Definition three_samples : tensor spec_float :=
  mkTensor Float32 [3; 3; 1; 1]
    (fun idx =>
       match idx with
       | [2; 2; _; _] => SFopp one
       | [_; 2; _; _] => one
       | _ => S754_zero false
       end).

Definition antipodal_pair : tensor spec_float :=
  mkTensor Float32 [2; 3; 1; 1]
    (fun idx =>
       match idx with
       | [0; 2; _; _] => one
       | [_; 2; _; _] => SFopp one
       | _ => S754_zero false
       end).

(** [np.pi], and a stand-in for [arccos], which the examples do not reach. *)
Definition np_pi : spec_float := S754_finite false 7074237752028440 (-51).

Definition no_arccos (x : spec_float) : spec_float := S754_nan.

(** An image with one NaN element among elements of 2.0. *)
Definition nan_image : tensor spec_float :=
  mkTensor Float32 [1; 3; 2; 2]
    (fun idx =>
       match idx with
       | [0; 0; 0; 0] => S754_nan
       | _ => two
       end).

(** Stand-ins for the collaborators of a call: an embedding of shape
    [1,2,4], [zero_latent] as the VAE encoder, a decoder that answers with
    the normal (0, 0, 1) at eight times the resolution, a U-Net that returns
    its input, a scheduler with one time step whose state counts the steps
    taken, and a generator of zeros. *)
Definition sample_embedding : tensor spec_float :=
  mkTensor Float32 [1; 2; 4] (fun _ => S754_zero false).

Definition sample_decoder (x : tensor spec_float) : tensor spec_float :=
  match shape x with
  | [b; _; h; w] =>
      mkTensor (t_dtype x) [b; 3; h * 8; w * 8]
        (fun idx =>
           match idx with
           | [_; 2; _; _] => one
           | _ => S754_zero false
           end)
  | _ => x
  end.

Definition sample_step (w : nat) (noise : tensor spec_float) (t : unit)
    (sample : tensor spec_float) (generator : option py_generator)
  : nat * tensor spec_float :=
  (Datatypes.S w, sample).

Definition sample_randn (w : nat) (s : list nat)
    (generator : option py_generator) (d : dtype) : nat * tensor spec_float :=
  (w, mkTensor d s (fun _ => S754_zero false)).

Abbreviation sample_call :=
  (call nearest sample_embedding zero_latent sample_decoder scaling_factor
     (fun x (_ : unit) _ => x) (fun w _ => w) (fun _ => [tt]) sample_step
     sample_randn (fun _ _ => tt) no_arccos np_pi).

(** [sample_pipeline] after its first call. *)
Definition cached_pipeline : pipeline :=
  mkPipeline 4 (Some 4%Z) (Some 768%Z) (Some false) "cpu" Float32
    (Some (to_dtype Float32 sample_embedding)).

(** Two ensemble members and a reduction that does not exist. *)
Definition median_args : call_args :=
  mkArgs (TorchTensor (constant_image half)) (Some 4%Z) 2 (Some 64%Z) true
    "bilinear" "bilinear" 1 true (Some (Dict [("reduction", "median")]%string))
    None None "np" true None true false.

(** * Properties *)

(** ** Tensors *)

Lemma in_indices (s idx : list nat) :
  In idx (indices s) <-> in_bounds idx s.
Proof.
  unfold in_bounds. revert idx.
  induction s as [|n s IH]; intros idx; simpl.
  - split.
    + intros [<-|[]]. constructor.
    + intros Hb. inversion Hb. now left.
  - rewrite in_flat_map. split.
    + intros (i & Hi & Hin). apply in_map_iff in Hin as (r & <- & Hr).
      apply in_seq in Hi. constructor; [lia | now apply IH].
    + intros Hb. inversion Hb as [|i m r s' Hlt Hrest]; subst.
      exists i. split; [apply in_seq; lia|].
      apply in_map. now apply IH.
Qed.

Lemma elements_ext {T} (x y : tensor T) :
  shape x = shape y ->
  (forall idx, in_bounds idx (shape x) -> get x idx = get y idx) ->
  elements x = elements y.
Proof.
  intros Hs Hget. unfold elements. rewrite <- Hs.
  apply map_ext_in. intros idx Hin. apply Hget. now apply in_indices.
Qed.

Lemma in_bounds_4 (idx : list nat) (n c h w : nat) :
  in_bounds idx [n; c; h; w] ->
  exists a b i j, idx = [a; b; i; j] /\ a < n /\ b < c /\ i < h /\ j < w.
Proof.
  unfold in_bounds. intros H4.
  inversion H4 as [|a ? r1 ? Ha H3]; subst.
  inversion H3 as [|b ? r2 ? Hb H2]; subst.
  inversion H2 as [|i ? r3 ? Hi H1]; subst.
  inversion H1 as [|j ? r4 ? Hj H0]; subst.
  inversion H0; subst.
  exists a, b, i, j. auto.
Qed.

(** ** Padding *)

Lemma neg_mod_bounds (h : nat) (align : Z) :
  (0 < align)%Z ->
  (0 <= (- Z.of_nat h) mod align < align)%Z.
Proof. intros Ha. apply Z.mod_pos_bound. exact Ha. Qed.

Lemma slice_stop_unpad (h : nat) (ph : Z) :
  (0 <= ph)%Z ->
  Py.slice_stop (h + Z.to_nat ph) (if (ph =? 0)%Z then None else Some (- ph)%Z) = h.
Proof.
  intros Hp. destruct (Z.eqb_spec ph 0) as [->|Hne]; simpl.
  - lia.
  - destruct (Z.ltb_spec (- ph) 0); lia.
Qed.

Lemma pad_image_ok {T} (x : tensor T) (align : Z) (n c h w : nat) :
  shape x = [n; c; h; w] -> 0 < c -> 0 < h -> 0 < w -> (0 < align)%Z ->
  pad_image x align =
    Ok (mkTensor (t_dtype x)
          [n; c; h + Z.to_nat ((- Z.of_nat h) mod align);
                 w + Z.to_nat ((- Z.of_nat w) mod align)]
          (fun idx =>
             match idx with
             | [a; b; i; j] => get x [a; b; Nat.min i (h - 1); Nat.min j (w - 1)]
             | _ => get x idx
             end),
        ((- Z.of_nat h) mod align, (- Z.of_nat w) mod align)%Z).
Proof.
  intros Hs Hc Hh Hw Ha.
  pose proof (neg_mod_bounds h Ha) as Bh.
  pose proof (neg_mod_bounds w Ha) as Bw.
  unfold pad_image, Py.mod_, F_pad_replicate. rewrite Hs.
  destruct (Z.eqb_spec align 0) as [E|_]; [lia|]. simpl.
  destruct (Nat.eqb_spec c 0); [lia|].
  destruct (Nat.eqb_spec h 0); [lia|].
  destruct (Nat.eqb_spec w 0); [lia|]. simpl.
  destruct (Z.ltb_spec ((- Z.of_nat w) mod align) 0); [lia|].
  destruct (Z.ltb_spec ((- Z.of_nat h) mod align) 0); [lia|].
  reflexivity.
Qed.

(** C7: for a 4-D image with non-empty channel, height and width axes (the
    inputs [F.pad] accepts) and a positive alignment, [pad_image] returns a
    padded image and a padding record, and [unpad_image] applied to them
    returns a tensor with the dtype, the shape and the elements of the
    image. *)
Theorem unpad_pad_roundtrip {T} (x : tensor T) (align : Z) (n c h w : nat) :
  shape x = [n; c; h; w] -> 0 < c -> 0 < h -> 0 < w -> (0 < align)%Z ->
  exists padded padding restored,
    pad_image x align = Ok (padded, padding) /\
    unpad_image padded padding = Ok restored /\
    same_tensor restored x.
Proof.
  intros Hs Hc Hh Hw Ha.
  pose proof (neg_mod_bounds h Ha) as Bh.
  pose proof (neg_mod_bounds w Ha) as Bw.
  eexists _, _, _. split; [exact (pad_image_ok x Hs Hc Hh Hw Ha)|].
  split.
  - unfold unpad_image. cbn [shape]. reflexivity.
  - unfold same_tensor. cbn [shape t_dtype].
    rewrite !slice_stop_unpad by lia.
    split; [reflexivity|]. split; [now rewrite Hs|].
    apply elements_ext; cbn [shape get].
    + now rewrite Hs.
    + intros idx Hb.
      apply in_bounds_4 in Hb as (a & b & i & j & -> & _ & _ & Hi & Hj).
      rewrite !Nat.min_l by lia. reflexivity.
Qed.

Lemma unpad_pad_roundtrip_witness :
  exists padded padding restored,
    pad_image sample_image 4 = Ok (padded, padding) /\
    unpad_image padded padding = Ok restored /\
    same_tensor restored sample_image.
Proof.
  apply (@unpad_pad_roundtrip Z sample_image 4%Z 1 1 2 3);
    [reflexivity | lia | lia | lia | lia].
Defined.
Lemma next_multiple (h a : Z) :
  (0 < a)%Z ->
  ((a | h + (- h) mod a) /\
   (forall m, (a | m) -> h <= m -> h + (- h) mod a <= m) /\
   ((a | h) -> (- h) mod a = 0))%Z.
Proof.
  intros Ha.
  pose proof (Z.mod_pos_bound (- h) a Ha) as Hb.
  pose proof (Z.div_mod (- h) a ltac:(lia)) as Hd.
  split; [|split].
  - exists (- ((- h) / a))%Z. lia.
  - intros m [k ->] Hle.
    assert (Hk : (- ((- h) / a) <= k)%Z) by nia.
    nia.
  - intros [k ->].
    replace (- (k * a))%Z with ((- k) * a)%Z by lia.
    apply Z.mod_mul. lia.
Qed.

(** C10: for a 4-D image with non-empty channel, height and width axes and a
    positive alignment, [pad_image] returns a tensor whose height and width
    are the least multiples of the alignment that are at least the height
    and width of the image, and a record [(ph, pw)] of the two increases,
    each in [0, align); the image is unchanged in the top-left region, and
    an axis that is already a multiple gets padding 0. *)
Theorem pad_image_aligned {T} (x : tensor T) (align : Z) (n c h w : nat) :
  shape x = [n; c; h; w] -> 0 < c -> 0 < h -> 0 < w -> (0 < align)%Z ->
  exists padded ph pw h' w',
    pad_image x align = Ok (padded, (ph, pw)) /\
    shape padded = [n; c; h'; w'] /\
    (0 <= ph < align)%Z /\ (0 <= pw < align)%Z /\
    Z.of_nat h' = (Z.of_nat h + ph)%Z /\
    Z.of_nat w' = (Z.of_nat w + pw)%Z /\
    (align | Z.of_nat h')%Z /\ (align | Z.of_nat w')%Z /\
    (forall m, (align | m) -> Z.of_nat h <= m -> Z.of_nat h' <= m)%Z /\
    (forall m, (align | m) -> Z.of_nat w <= m -> Z.of_nat w' <= m)%Z /\
    (forall a b i j, a < n -> b < c -> i < h -> j < w ->
       get padded [a; b; i; j] = get x [a; b; i; j]) /\
    ((align | Z.of_nat h) -> ph = 0)%Z /\
    ((align | Z.of_nat w) -> pw = 0)%Z.
Proof.
  intros Hs Hc Hh Hw Ha.
  pose proof (neg_mod_bounds h Ha) as Bh.
  pose proof (neg_mod_bounds w Ha) as Bw.
  destruct (next_multiple (Z.of_nat h) Ha) as (Dh & Mh & Zh).
  destruct (next_multiple (Z.of_nat w) Ha) as (Dw & Mw & Zw).
  eexists _, _, _, _, _.
  split; [exact (pad_image_ok x Hs Hc Hh Hw Ha)|].
  cbn [shape get].
  split; [reflexivity|].
  repeat split; try lia; try assumption.
  - rewrite Nat2Z.inj_add, Z2Nat.id by lia. exact Dh.
  - rewrite Nat2Z.inj_add, Z2Nat.id by lia. exact Dw.
  - intros m Hm Hle. rewrite Nat2Z.inj_add, Z2Nat.id by lia. now apply Mh.
  - intros m Hm Hle. rewrite Nat2Z.inj_add, Z2Nat.id by lia. now apply Mw.
  - intros a b i j _ _ Hi Hj. rewrite !Nat.min_l by lia. reflexivity.
Qed.

Lemma pad_image_aligned_witness :
  exists padded ph pw h' w',
    pad_image sample_image 4 = Ok (padded, (ph, pw)) /\
    shape padded = [1; 1; h'; w'] /\
    (0 <= ph < 4)%Z /\ (0 <= pw < 4)%Z /\
    Z.of_nat h' = (2 + ph)%Z /\
    Z.of_nat w' = (3 + pw)%Z /\
    (4 | Z.of_nat h')%Z /\ (4 | Z.of_nat w')%Z /\
    (forall m, (4 | m) -> 2 <= m -> Z.of_nat h' <= m)%Z /\
    (forall m, (4 | m) -> 3 <= m -> Z.of_nat w' <= m)%Z /\
    (forall a b i j, a < 1 -> b < 1 -> i < 2 -> j < 3 ->
       get padded [a; b; i; j] = get sample_image [a; b; i; j]) /\
    ((4 | 2) -> ph = 0)%Z /\
    ((4 | 3) -> pw = 0)%Z.
Proof.
  apply (@pad_image_aligned Z sample_image 4%Z 1 1 2 3);
    [reflexivity | lia | lia | lia | lia].
Defined.

(** ** Resizing *)

Lemma scaled_edges (h w edge : Z) :
  (0 <= h -> 0 <= w -> 0 < Z.max h w -> 0 <= edge ->
   0 <= h * edge / Z.max h w <= edge /\
   0 <= w * edge / Z.max h w <= edge /\
   Z.max (h * edge / Z.max h w) (w * edge / Z.max h w) = edge)%Z.
Proof.
  intros Hh Hw Hm He.
  assert (Hd : forall a, (0 <= a <= Z.max h w ->
                          0 <= a * edge / Z.max h w <= edge)%Z).
  { intros a Ha. split.
    - apply Z.div_pos; nia.
    - apply Z.div_le_upper_bound; nia. }
  assert (Hself : (Z.max h w * edge / Z.max h w = edge)%Z).
  { rewrite Z.mul_comm. apply Z.div_mul. lia. }
  pose proof (Hd h ltac:(lia)) as Bh.
  pose proof (Hd w ltac:(lia)) as Bw.
  repeat split; try lia.
  destruct (Z.max_spec h w) as [[_ E]|[_ E]]; rewrite E in *; lia.
Qed.

(** C8: on a 4-D image whose larger spatial axis is non-empty, with a
    non-negative target edge and one of the five resampling modes,
    [resize_to_max_edge] raises the extreme-aspect-ratio error exactly when
    the scaled height or the scaled width is zero; otherwise it returns a
    tensor whose larger spatial axis is the target edge. *)
Theorem resize_to_max_edge_spec {T}
    (resample : tensor T -> nat * nat -> string -> bool -> list nat -> T)
    (image : tensor T) (edge : Z) (mode : string) (n c h w : nat) :
  shape image = [n; c; h; w] ->
  0 < Nat.max h w ->
  (0 <= edge)%Z ->
  Py.str_in mode resample_modes = true ->
  let max_orig := Z.max (Z.of_nat h) (Z.of_nat w) in
  let new_h := (Z.of_nat h * edge / max_orig)%Z in
  let new_w := (Z.of_nat w * edge / max_orig)%Z in
  (resize_to_max_edge resample image edge mode
     = Raise (ValueError ExtremeAspectRatio)
   <-> new_h = 0%Z \/ new_w = 0%Z) /\
  (~ (new_h = 0%Z \/ new_w = 0%Z) ->
   exists out h' w',
     resize_to_max_edge resample image edge mode = Ok out /\
     shape out = [n; c; h'; w'] /\
     Z.of_nat h' = new_h /\ Z.of_nat w' = new_w /\
     Z.of_nat (Nat.max h' w') = edge).
Proof.
  intros Hs Hmax He Hmode max_orig new_h new_w.
  destruct (@scaled_edges (Z.of_nat h) (Z.of_nat w) edge)
    as (Bh & Bw & Bm); try lia.
  fold max_orig in Bh, Bw, Bm. fold new_h in Bh, Bm. fold new_w in Bw, Bm.
  unfold resize_to_max_edge, Py.floordiv. rewrite Hs.
  fold max_orig.
  destruct (Z.eqb_spec max_orig 0) as [E|_]; [unfold max_orig in E; lia|].
  cbn [bind]. fold new_h new_w.
  destruct (Z.eqb_spec new_h 0) as [Eh|Nh]; cbn [orb].
  { split; [split; auto|]. intros Hn. exfalso. apply Hn. now left. }
  destruct (Z.eqb_spec new_w 0) as [Ew|Nw].
  { split; [split; auto|]. intros Hn. exfalso. apply Hn. now right. }
  assert (Hh0 : h <> 0).
  { intros ->. apply Nh. unfold new_h. reflexivity. }
  assert (Hw0 : w <> 0).
  { intros ->. apply Nw. unfold new_w. reflexivity. }
  unfold resize_antialias, dim, F_interpolate. rewrite Hs. cbn [length].
  rewrite Hmode. cbn [negb].
  destruct (Nat.eqb_spec h 0); [contradiction|].
  destruct (Nat.eqb_spec w 0); [contradiction|].
  destruct (Z.leb_spec new_h 0); [lia|].
  destruct (Z.leb_spec new_w 0); [lia|].
  cbn [orb fst snd].
  split.
  - split; [discriminate|]. intros [?|?]; contradiction.
  - intros _. eexists _, _, _. split; [reflexivity|].
    cbn [shape]. split; [reflexivity|].
    split; [lia|]. split; [lia|].
    rewrite Nat2Z.inj_max, !Z2Nat.id by lia. exact Bm.
Qed.

Lemma resize_to_max_edge_spec_witness :
  let new_h := (2 * 6 / Z.max 2 3)%Z in
  let new_w := (3 * 6 / Z.max 2 3)%Z in
  (resize_to_max_edge nearest sample_image 6 "bilinear"
     = Raise (ValueError ExtremeAspectRatio)
   <-> new_h = 0%Z \/ new_w = 0%Z) /\
  (~ (new_h = 0%Z \/ new_w = 0%Z) ->
   exists out h' w',
     resize_to_max_edge nearest sample_image 6 "bilinear" = Ok out /\
     shape out = [1; 1; h'; w'] /\
     Z.of_nat h' = new_h /\ Z.of_nat w' = new_w /\
     Z.of_nat (Nat.max h' w') = 6%Z).
Proof.
  apply (@resize_to_max_edge_spec Z nearest sample_image 6%Z "bilinear" 1 1 2 3);
    [reflexivity | simpl; lia | lia | reflexivity].
Defined.

(** The example of the specification: a 1 x 10000 image and a target edge
    of 4. *)
Lemma resize_extreme_aspect_ratio {T}
    (resample : tensor T -> nat * nat -> string -> bool -> list nat -> T)
    (image : tensor T) (mode : string) (n c : nat) :
  shape image = [n; c; 1; 100 * 100] ->
  resize_to_max_edge resample image 4 mode
    = Raise (ValueError ExtremeAspectRatio).
Proof.
  intros Hs. unfold resize_to_max_edge. rewrite Hs. reflexivity.
Qed.

(** ** Input validation *)

Ltac break_if :=
  match goal with
  | |- context [if ?b then _ else _] => destruct b eqn:?
  end.

(** With a tensor as [input_latent], validation never passes: a 4-D latent
    is stopped by the dimension test, any other by the shape comparison. *)
Lemma check_inputs_rejects_tensor_latent
    (self : pipeline) (img : py_image spec_float) (steps : option Z)
    (ens : Z) (res : option Z) (mi mo : string) (bs : Z)
    (ek : option py_kwargs) (t : tensor spec_float)
    (gen : option py_generator) (fmt : string) (vk : option py_kwargs) :
  check_inputs self img steps ens res mi mo bs ek (Some (LatentTensor t))
    gen fmt vk <> Ok tt.
Proof.
  unfold check_inputs.
  destruct steps as [n|]; cbn [bind]; [|discriminate].
  repeat (break_if; [discriminate|]).
  destruct res as [r|]; cbn [bind]; [|discriminate].
  repeat (break_if; [discriminate|]).
  match goal with
  | |- bind ?r _ <> _ => destruct r as [[[k H] W]|e]
  end; cbn [bind]; [|discriminate].
  destruct (dim t =? 4)%nat eqn:Hd; cbn [negb bind]; [discriminate|].
  match goal with
  | |- bind (bind ?r _) _ <> _ => destruct r as [[H' W']|e]
  end; cbn [bind]; [|discriminate].
  assert (Hne : shape_eqb (map Z.of_nat (shape t))
                  [(k * ens)%Z; latent_space_size self;
                   ((H' + latent_size_scale - 1) / latent_size_scale)%Z;
                   ((W' + latent_size_scale - 1) / latent_size_scale)%Z]
                = false).
  { apply Nat.eqb_neq in Hd. unfold dim in Hd.
    destruct (shape t) as [|a [|b [|c0 [|d [|? ?]]]]];
      cbn [length map shape_eqb] in *;
      try reflexivity; try contradiction;
      rewrite ?andb_false_r; reflexivity. }
  rewrite Hne. cbn [negb bind]. discriminate.
Qed.

(** C1: a call with a 64 x 64 image, resolution 64, one ensemble member and
    a latent of the expected shape [1,4,8,8] is stopped by the dimension
    test of [check_inputs]. *)
Theorem check_inputs_rejects_expected_latent :
  check_inputs sample_pipeline (TorchTensor (constant_image half))
    (Some 4%Z) 1 (Some 64%Z) "bilinear" "bilinear" 1 None
    (Some (LatentTensor sample_latent)) None "np" None
  = Raise (ValueError LatentDimension).
Proof. reflexivity. Qed.

(** ** Image canonicalizer *)

(** The claim of C3 fails at two inputs: a 4-D tensor with one channel is
    returned with its one channel, and a torch uint8 tensor is returned as
    uint8. *)
Lemma load_image_canonical_not_always_float_rgb :
  (exists out m,
     load_image_canonical (Float.round 24 128) (TorchTensor gray_batch)
       = Ok (out, m) /\
     shape out = [1; 1; 2; 3]) /\
  (exists out m,
     load_image_canonical (Float.round 24 128) (TorchTensor gray_uint8)
       = Ok (out, m) /\
     shape out = [1; 3; 2; 3] /\ t_dtype out = UInt8 /\
     is_floating_point (t_dtype out) = false).
Proof.
  split.
  - eexists _, _. split; [reflexivity|]. reflexivity.
  - eexists _, _. split; [reflexivity|]. repeat split.
Qed.

Lemma canonical_dims {T} (image : tensor T) (m : option Z)
    (out : tensor T) (m' : option Z) :
  match dim image with
  | 2 =>
      Ok (mkTensor (t_dtype image) (1 :: 3 :: shape image)
            (fun idx => get image (tl (tl idx))), m)
  | 3 =>
      let image1 :=
        if (nth 2 (shape image) 0 =? 1) || (nth 2 (shape image) 0 =? 3)
        then permute_2_0_1 image else image in
      let image2 :=
        if nth 0 (shape image1) 0 =? 1 then repeat_3_1_1 image1 else image1 in
      if negb (nth 0 (shape image2) 0 =? 3)
      then Raise (ValueError NotOneOrThreeChannel)
      else Ok (unsqueeze_0 image2, m)
  | 4 => Ok (image, m)
  | _ => Raise (ValueError NotTwoThreeFourDim)
  end = Ok (out, m') ->
  m' = m /\ dim out = 4 /\ t_dtype out = t_dtype image /\
  ((exists h w, shape out = [1; 3; h; w]) \/ dim image = 4).
Proof.
  unfold dim.
  destruct image as [d s g]. cbn [shape t_dtype].
  destruct s as [|s0 [|s1 [|s2 [|s3 [|? ?]]]]]; cbn [length];
    try discriminate.
  - (* 2-D *)
    intros [= <- <-]. cbn. repeat split. left. eauto.
  - (* 3-D *)
    cbv zeta.
    assert (H3 : forall t : tensor T, length (shape t) = 3 ->
              exists a b c0, shape t = [a; b; c0]).
    { intros t Ht. destruct (shape t) as [|a [|b [|c0 [|? ?]]]];
        try discriminate. eauto. }
    remember (mkTensor d [s0; s1; s2] g) as image0 eqn:E0.
    remember (if (nth 2 [s0; s1; s2] 0 =? 1) || (nth 2 [s0; s1; s2] 0 =? 3)
              then permute_2_0_1 image0 else image0) as image1 eqn:E1.
    remember (if nth 0 (shape image1) 0 =? 1
              then repeat_3_1_1 image1 else image1) as image2 eqn:E2.
    assert (Hd1 : t_dtype image1 = d /\ length (shape image1) = 3).
    { subst image1 image0. destruct (_ || _); cbn; auto. }
    assert (Hd2 : t_dtype image2 = d /\ length (shape image2) = 3).
    { subst image2. destruct (nth 0 (shape image1) 0 =? 1); [|exact Hd1].
      destruct Hd1 as [Hdt1 Hlen1].
      destruct (H3 _ Hlen1) as (a & b & c0 & Es).
      unfold repeat_3_1_1. rewrite Es. cbn [t_dtype shape length]. auto. }
    clear E0 E1 E2.
    destruct Hd2 as [Hdt Hlen].
    destruct (H3 _ Hlen) as (a & b & c0 & Es).
    rewrite Es. cbn [nth].
    destruct (Nat.eqb_spec a 3) as [->|]; cbn [negb]; [|discriminate].
    intros [= <- <-]. cbn [unsqueeze_0 shape t_dtype length].
    rewrite Es. repeat split; auto. left. eauto.
  - (* 4-D *)
    intros [= <- <-]. cbn. repeat split. now right.
Qed.

(** C3, amended: every image the canonicalizer accepts comes back as a 4-D
    tensor; when the array behind the image is 2-D or 3-D its shape is
    [1,3,H,W]; and the result is floating-point unless the image is a torch
    uint8 tensor, which stays uint8 with source maximum 255. *)
Theorem load_image_canonical_result {T} (to_float32 : T -> T)
    (img : py_image T) (out : tensor T) (m : option Z) :
  load_image_canonical to_float32 img = Ok (out, m) ->
  dim out = 4 /\
  (exists a, image_array img = Some a /\
     ((exists h w, shape out = [1; 3; h; w]) \/ dim a = 4)) /\
  (is_floating_point (t_dtype out) = true \/
   (exists t, img = TorchTensor t /\ t_dtype t = UInt8 /\
      t_dtype out = UInt8 /\ m = Some 255%Z)).
Proof.
  unfold load_image_canonical.
  destruct img as [a|a|t|]; cbn [bind image_array].
  1,2: destruct a as [d s g]; cbv zeta; cbn [t_dtype];
       destruct d; cbn [is_signed_integer is_complex is_bool is_unsigned bind];
       try discriminate;
       cbn [astype_float32 t_dtype shape is_floating_point negb bind];
       intros Hc;
       (apply (@canonical_dims T (mkTensor Float32 s _)) in Hc
        || apply (@canonical_dims T (mkTensor Float16 s g)) in Hc
        || apply (@canonical_dims T (mkTensor Float64 s g)) in Hc);
       destruct Hc as (_ & Hd & Hdt & Hsh);
       (split; [exact Hd|]; split;
        [eexists; split; [reflexivity|]; exact Hsh
        |left; rewrite Hdt; reflexivity]).
  - destruct t as [d s g]; cbn [t_dtype];
      destruct d; cbn [is_floating_point negb dtype_eqb bind];
      try discriminate;
      intros Hc; apply (@canonical_dims T (mkTensor _ s g)) in Hc;
      destruct Hc as (Hm & Hd & Hdt & Hsh);
      (split; [exact Hd|]; split;
       [eexists; split; [reflexivity|]; exact Hsh|]).
    + right. eexists. split; [reflexivity|]. rewrite Hdt. cbn. auto.
    + left. now rewrite Hdt.
    + left. now rewrite Hdt.
    + left. now rewrite Hdt.
  - discriminate.
Qed.

Lemma load_image_canonical_result_witness :
  exists out m,
    load_image_canonical (Float.round 24 128) (TorchTensor gray_uint8)
      = Ok (out, m) /\
    dim out = 4 /\
    (exists a, image_array (TorchTensor gray_uint8) = Some a /\
       ((exists h w, shape out = [1; 3; h; w]) \/ dim a = 4)) /\
    (is_floating_point (t_dtype out) = true \/
     (exists t, TorchTensor gray_uint8 = TorchTensor t /\ t_dtype t = UInt8 /\
        t_dtype out = UInt8 /\ m = Some 255%Z)).
Proof.
  eexists _, _. split; [reflexivity|].
  apply (@load_image_canonical_result _ (Float.round 24 128)
           (TorchTensor gray_uint8)).
  reflexivity.
Defined.

(** ** Encoding a prediction *)

(** C5: with [check_input=True], the all-finite unit normal (0, 0, 1) is
    refused with "Non-finite values detected", and a prediction with an
    infinite component is encoded without that error. *)
Theorem encode_prediction_finiteness_inverted :
  encode_prediction 24 128 zero_latent scaling_factor sample_pipeline
    facing true = Raise (ValueError NonFiniteValues) /\
  (exists latent,
     encode_prediction 24 128 zero_latent scaling_factor sample_pipeline
       infinite true = Ok latent).
Proof.
  split.
  - reflexivity.
  - eexists. vm_compute. reflexivity.
Qed.

(** The non-finite error is raised exactly when every element is finite
    (and none is a NaN, which a finite element never is). *)
Lemma encode_prediction_non_finite_iff
    (prec emax : Z) (vae : tensor spec_float -> tensor spec_float)
    (scaling : spec_float) (self : pipeline)
    (prediction : tensor spec_float) (b h w : nat) :
  is_floating_point (t_dtype prediction) = true ->
  shape prediction = [b; 3; h; w] ->
  (encode_prediction prec emax vae scaling self prediction true
     = Raise (ValueError NonFiniteValues)
   <-> forallb Float.is_finite (elements prediction) = true).
Proof.
  intros Hf Hs. unfold encode_prediction. rewrite Hf, Hs. cbn [negb].
  destruct (existsb Float.is_nan (elements prediction)) eqn:Hnan.
  - cbn [bind]. split; [discriminate|]. intros Hall. exfalso.
    apply existsb_exists in Hnan as (x & Hin & Hx).
    rewrite forallb_forall in Hall. specialize (Hall x Hin).
    destruct x; discriminate.
  - destruct (forallb Float.is_finite (elements prediction)) eqn:Hall.
    + cbn [bind]. split; auto.
    + split; [|discriminate]. intros Hr. exfalso. revert Hr.
      unfold Float.torch_max.
      destruct (elements (unit_defect _ _ _)) as [|m l]; cbn [bind];
        [discriminate|].
      destruct (Float.py_lt _ _); cbn [bind]; [discriminate|].
      destruct (py_not _); cbn [bind].
      * destruct (_ && _); cbn [bind]; [discriminate|].
        unfold encode_image. cbn [shape]. rewrite ?Hs. discriminate.
      * unfold encode_image. rewrite ?Hs. discriminate.
Qed.

Module FloatFacts.
Import Float.

Section Format.
Variables prec emax : Z.

Lemma square_of_infinity (x : spec_float) :
  is_nan x = false -> is_finite x = false ->
  SFmul prec emax x x = S754_infinity false.
Proof. destruct x as [s|[|]| |s m e]; simpl; intros; congruence. Qed.

Lemma add_nan_or_pinf_l (a b : spec_float) :
  nan_or_pinf a = true -> nan_or_pinf (SFadd prec emax a b) = true.
Proof.
  destruct a as [s|[|]| |s m e]; try discriminate; intros _;
    destruct b as [s'|[|]| |s' m' e']; reflexivity.
Qed.

Lemma add_nan_or_pinf_r (a b : spec_float) :
  nan_or_pinf b = true -> nan_or_pinf (SFadd prec emax a b) = true.
Proof.
  destruct b as [s|[|]| |s m e]; try discriminate; intros _;
    destruct a as [s'|[|]| |s' m' e']; reflexivity.
Qed.

Lemma sub_nan_or_pinf (a b : spec_float) :
  nan_or_pinf a = true -> nan_or_pinf (SFsub prec emax a b) = true.
Proof.
  destruct a as [s|[|]| |s m e]; try discriminate; intros _;
    destruct b as [s'|[|]| |s' m' e']; reflexivity.
Qed.

Lemma abs_nan_or_pinf (a : spec_float) :
  nan_or_pinf a = true -> nan_or_pinf (SFabs a) = true.
Proof. destruct a as [s|[|]| |s m e]; try discriminate; reflexivity. Qed.

Lemma fold_add_nan_or_pinf (l : list spec_float) (acc : spec_float) :
  nan_or_pinf acc = true \/ (exists v, In v l /\ nan_or_pinf v = true) ->
  nan_or_pinf (fold_left (SFadd prec emax) l acc) = true.
Proof.
  revert acc. induction l as [|x l IH]; intros acc [Hacc|(v & Hin & Hv)];
    cbn [fold_left].
  - exact Hacc.
  - destruct Hin.
  - apply IH. left. now apply add_nan_or_pinf_l.
  - destruct Hin as [->|Hin].
    + apply IH. left. now apply add_nan_or_pinf_r.
    + apply IH. right. eauto.
Qed.

Lemma sum_nan_or_pinf (l : list spec_float) (v : spec_float) :
  In v l -> nan_or_pinf v = true ->
  nan_or_pinf (@sum _ (scalar prec emax) l) = true.
Proof.
  intros Hin Hv. destruct l as [|x l]; [destruct Hin|].
  cbn [sum]. apply fold_add_nan_or_pinf.
  destruct Hin as [->|Hin]; [now left|right; eauto].
Qed.
End Format.

Lemma max2_nan_or_pinf_l (a b : spec_float) :
  nan_or_pinf a = true -> nan_or_pinf (max2 a b) = true.
Proof.
  destruct a as [s|[|]| |s m e]; try discriminate; intros _;
    destruct b as [s'|[|]| |s' m' e']; reflexivity.
Qed.

Lemma max2_nan_or_pinf_r (a b : spec_float) :
  nan_or_pinf b = true -> nan_or_pinf (max2 a b) = true.
Proof.
  destruct b as [s|[|]| |s m e]; try discriminate; intros _;
    destruct a as [s'|[|]| |[|] m' e']; reflexivity.
Qed.

Lemma fold_max2_nan_or_pinf (l : list spec_float) (acc : spec_float) :
  nan_or_pinf acc = true \/ (exists v, In v l /\ nan_or_pinf v = true) ->
  nan_or_pinf (fold_left max2 l acc) = true.
Proof.
  revert acc. induction l as [|x l IH]; intros acc [Hacc|(v & Hin & Hv)];
    cbn [fold_left].
  - exact Hacc.
  - destruct Hin.
  - apply IH. left. now apply max2_nan_or_pinf_l.
  - destruct Hin as [->|Hin].
    + apply IH. left. now apply max2_nan_or_pinf_r.
    + apply IH. right. eauto.
Qed.

Lemma torch_max_nan_or_pinf (l : list spec_float) (v : spec_float) :
  In v l -> nan_or_pinf v = true ->
  exists m, torch_max l = Ok m /\ nan_or_pinf m = true.
Proof.
  intros Hin Hv. destruct l as [|x l]; [destruct Hin|].
  eexists. split; [reflexivity|]. apply fold_max2_nan_or_pinf.
  destruct Hin as [->|Hin]; [now left|right; eauto].
Qed.

Lemma not_lt_nan_or_pinf (m c : spec_float) :
  nan_or_pinf m = true -> py_lt (item m) c = false.
Proof.
  destruct m as [s|[|]| |s m e]; try discriminate; intros _;
    destruct c as [s'|[|]| |s' m' e']; reflexivity.
Qed.
End FloatFacts.

Lemma forallb_false_witness {A} (f : A -> bool) (l : list A) :
  forallb f l = false -> exists x, In x l /\ f x = false.
Proof.
  induction l as [|a l IH]; cbn [forallb]; [discriminate|].
  destruct (f a) eqn:Ha; cbn [andb].
  - intros Hl. destruct (IH Hl) as (x & Hin & Hx). exists x. split; [now right|auto].
  - intros _. exists a. split; [now left|auto].
Qed.

Lemma existsb_false_all {A} (f : A -> bool) (l : list A) (x : A) :
  existsb f l = false -> In x l -> f x = false.
Proof.
  intros He Hin. destruct (f x) eqn:Hx; [|reflexivity].
  rewrite <- He. symmetry. apply existsb_exists. eauto.
Qed.

(** A prediction with an infinite element and no NaN has an infinite or NaN
    unit defect at the pixel of that element. *)
Lemma unit_defect_of_infinite (prec emax : Z)
    (prediction : tensor spec_float) (b h w : nat) :
  shape prediction = [b; 3; h; w] ->
  existsb Float.is_nan (elements prediction) = false ->
  forallb Float.is_finite (elements prediction) = false ->
  exists v, In v (elements (unit_defect prec emax prediction)) /\
            Float.nan_or_pinf v = true.
Proof.
  intros Hs Hnan Hfin.
  apply forallb_false_witness in Hfin as (x & Hin & Hx).
  pose proof (existsb_false_all _ _ _ Hnan Hin) as Hxn.
  unfold elements in Hin. apply in_map_iff in Hin as (idx & <- & Hidx).
  rewrite Hs in Hidx. apply in_indices, in_bounds_4 in Hidx
    as (n & c & i & j & -> & Hn & Hc & Hi & Hj).
  exists (get (unit_defect prec emax prediction) [n; i; j]). split.
  - unfold elements. apply in_map.
    unfold unit_defect. rewrite Hs. cbn [shape].
    apply in_indices. repeat constructor; assumption.
  - unfold unit_defect. rewrite Hs. cbn [get].
    apply FloatFacts.abs_nan_or_pinf, FloatFacts.sub_nan_or_pinf.
    unfold sqnorm.
    apply FloatFacts.sum_nan_or_pinf
      with (v := SFmul prec emax (get prediction [n; c; i; j])
                   (get prediction [n; c; i; j])).
    + apply (in_map (fun x => @fmul _ (Float.scalar prec emax) x x)).
      unfold pixel. rewrite Hs. cbn [nth].
      apply (in_map (fun c => get prediction [n; c; i; j])).
      apply in_seq. lia.
    + rewrite FloatFacts.square_of_infinity by assumption. reflexivity.
Qed.

(** C6: whatever the prediction, the format of its elements and the
    pipeline, [encode_prediction] never raises "Non-unit vectors detected":
    the test is reached only with an infinite element and no NaN, and then
    the largest unit defect is plus infinity or a NaN, which is not below
    [1e-3]. *)
Theorem encode_prediction_never_non_unit
    (prec emax : Z) (vae : tensor spec_float -> tensor spec_float)
    (scaling : spec_float) (self : pipeline)
    (prediction : tensor spec_float) (check_input : bool) :
  encode_prediction prec emax vae scaling self prediction check_input
    <> Raise (ValueError NonUnitVectors).
Proof.
  unfold encode_prediction.
  destruct (is_floating_point (t_dtype prediction)); cbn [negb];
    [|discriminate].
  destruct (shape prediction) as [|b [|c l]] eqn:Hs; try discriminate.
  destruct c as [|[|[|[|c]]]]; try discriminate;
    destruct l as [|h [|w [|? ?]]]; try discriminate.
  assert (Henc : forall p : tensor spec_float,
            encode_image prec emax vae scaling p
              <> Raise (ValueError NonUnitVectors)).
  { intros p. unfold encode_image.
    destruct (shape p) as [|? [|[|[|[|[|?]]]] [|? [|? [|? ?]]]]];
      discriminate. }
  assert (Hb : forall r : result (tensor spec_float),
            r <> Raise (ValueError NonUnitVectors) ->
            bind r (encode_image prec emax vae scaling)
              <> Raise (ValueError NonUnitVectors)).
  { intros [p|e] Hr; cbn [bind]; [apply Henc|exact Hr]. }
  assert (Hz : forall x y : tensor spec_float,
            (if py_not (use_full_z_range self)
             then
               if check_input
                  && Float.py_lt
                       (Float.py_float
                          (Z.b2z (existsb (fun z => SFltb z (S754_zero false))
                                    (elements (z_channel prediction)))))
                       (Float.py_dec 1 3)
               then Raise (ValueError NegativeZ)
               else Ok x
             else Ok y) <> Raise (ValueError NonUnitVectors)).
  { intros x y. destruct (py_not _); [|discriminate].
    destruct (_ && _); discriminate. }
  destruct check_input; cbn [bind]; [|apply Hb, Hz].
  destruct (existsb Float.is_nan (elements prediction)) eqn:Hnan;
    cbn [bind]; [discriminate|].
  destruct (forallb Float.is_finite (elements prediction)) eqn:Hfin;
    cbn [bind]; [discriminate|].
  destruct (unit_defect_of_infinite prec emax prediction Hs Hnan Hfin)
    as (v & Hin & Hv).
  destruct (FloatFacts.torch_max_nan_or_pinf _ _ Hin Hv) as (m & -> & Hm).
  cbn [bind]. rewrite (FloatFacts.not_lt_nan_or_pinf _ (Float.py_dec 1 3) Hm).
  cbn [bind]. apply Hb, Hz.
Qed.

(** ** Ensembling *)

Section ArgMax.
Context {T : Type} `{ScalarOrder T}.

Lemma greater_irrefl (a : T) : greater a a = false.
Proof.
  unfold greater. rewrite flt_irrefl.
  destruct (isnan a); reflexivity.
Qed.

Lemma greater_trans (a b c : T) :
  greater a b = true -> greater b c = true -> greater a c = true.
Proof.
  unfold greater. intros Hab Hbc.
  apply orb_true_iff in Hab as [Hab|Hab];
    apply orb_true_iff in Hbc as [Hbc|Hbc].
  - apply andb_true_iff in Hab as [_ Hnb], Hbc as [Hb _].
    rewrite Hb in Hnb. discriminate.
  - apply andb_true_iff in Hab as [Ha Hnb].
    destruct (isnan c) eqn:Hc.
    + rewrite (flt_nan_l c b Hc) in Hbc. discriminate.
    + rewrite Ha. reflexivity.
  - apply andb_true_iff in Hbc as [Hb _].
    rewrite (flt_nan_l b a Hb) in Hab. discriminate.
  - rewrite (flt_trans c b a Hbc Hab). apply orb_true_r.
Qed.

(** A value no seen element exceeds is still unexceeded after it is
    replaced by a greater one. *)
Lemma not_greater_step (v best x : T) :
  greater v best = false -> greater x best = true -> greater v x = false.
Proof.
  intros Hv Hx. destruct (greater v x) eqn:Hvx; [|reflexivity].
  rewrite (greater_trans _ _ _ Hvx Hx) in Hv. discriminate.
Qed.

Lemma argmax_from_spec (d : T) (l pre : list T) (best : nat) :
  best < length pre ->
  (forall v, In v pre -> greater v (nth best pre d) = false) ->
  let r := argmax_from best (nth best pre d) (length pre) l in
  r < length (pre ++ l) /\
  (forall v, In v (pre ++ l) -> greater v (nth r (pre ++ l) d) = false).
Proof.
  revert pre best. induction l as [|x l IH]; intros pre best Hb Hall;
    cbn [argmax_from].
  - rewrite app_nil_r. auto.
  - replace (pre ++ x :: l) with ((pre ++ [x]) ++ l)
      by now rewrite <- app_assoc.
    assert (Hx : nth (length pre) (pre ++ [x]) d = x).
    { rewrite app_nth2, Nat.sub_diag by lia. reflexivity. }
    assert (Hlen : length (pre ++ [x]) = S (length pre)).
    { rewrite length_app. cbn. lia. }
    destruct (greater x (nth best pre d)) eqn:Hg.
    + specialize (IH (pre ++ [x]) (length pre)).
      rewrite Hx, Hlen in IH. apply IH; [lia|].
      intros v Hin. apply in_app_iff in Hin as [Hin|[<-|[]]].
      * eapply not_greater_step; eauto.
      * apply greater_irrefl.
    + specialize (IH (pre ++ [x]) best).
      rewrite app_nth1, Hlen in IH by lia. apply IH; [lia|].
      intros v Hin. apply in_app_iff in Hin as [Hin|[<-|[]]]; auto.
Qed.

Lemma argmax_spec (d : T) (l : list T) :
  l <> [] ->
  argmax l < length l /\
  (forall k, k < length l ->
     greater (nth k l d) (nth (argmax l) l d) = false).
Proof.
  destruct l as [|x l]; [congruence|]. intros _.
  pose proof (@argmax_from_spec d l [x] 0) as Hs.
  cbn [length nth app] in Hs.
  destruct Hs as [Hlt Hall]; [lia| |].
  - intros v [<-|[]]. apply greater_irrefl.
  - cbn [argmax]. split; [exact Hlt|].
    intros k Hk. apply Hall. apply nth_In. exact Hk.
Qed.
End ArgMax.

Section Ensemble.
Context {T : Type} {scalar : Scalar T}.
Variable arccos : T -> T.
Variable pi : T.

Lemma pixel_3 (t : tensor T) (N H W n i j : nat) :
  shape t = [N; 3; H; W] ->
  pixel t n i j = [get t [n; 0; i; j]; get t [n; 1; i; j]; get t [n; 2; i; j]].
Proof. intros Hs. unfold pixel. rewrite Hs. reflexivity. Qed.

Lemma normalize_normals_ok (t : tensor T) (eps : T) (N C H W : nat) :
  shape t = [N; C; H; W] ->
  exists out,
    normalize_normals t eps = Ok out /\
    shape out = [N; C; H; W] /\
    (forall n c i j,
       get out [n; c; i; j]
       = fdiv (get t [n; c; i; j]) (clamp_min (norm (pixel t n i j)) eps)).
Proof.
  intros Hs. unfold normalize_normals. rewrite Hs.
  eexists. split; [reflexivity|]. cbn [shape get]. auto.
Qed.

(** The "mean" reduction of an ensemble returns the renormalized mean. *)
Lemma ensemble_mean_result (normals : tensor T) (unc : bool) (E H W : nat) :
  shape normals = [E; 3; H; W] ->
  exists out uncertainty,
    ensemble_normals arccos pi normals unc "mean" = Ok (out, uncertainty) /\
    normalize_normals (mean_dim0 normals) eps_default = Ok out.
Proof.
  intros Hs. unfold ensemble_normals. rewrite Hs. cbn [Py.str_in].
  assert (Hm : shape (mean_dim0 normals) = [1; 3; H; W]).
  { unfold mean_dim0. rewrite Hs. reflexivity. }
  destruct (normalize_normals_ok (mean_dim0 normals) eps_default Hm)
    as (out & -> & _).
  cbn. eauto.
Qed.

(** The "closest" reduction of a non-empty ensemble returns, at each pixel,
    the sample [torch.argmax] picks among the similarities to the
    renormalized mean. *)
Lemma ensemble_closest_result (normals : tensor T) (unc : bool) (E H W : nat) :
  shape normals = [E; 3; H; W] -> 0 < E ->
  exists out uncertainty mean_normals,
    ensemble_normals arccos pi normals unc "closest" = Ok (out, uncertainty) /\
    normalize_normals (mean_dim0 normals) eps_default = Ok mean_normals /\
    shape out = [1; 3; H; W] /\
    (forall i j,
       pixel out 0 i j =
       pixel normals
         (argmax (map (fun e => sim_cos mean_normals normals e i j) (seq 0 E)))
         i j).
Proof.
  intros Hs HE. unfold ensemble_normals. rewrite Hs. cbn [Py.str_in].
  assert (Hm : shape (mean_dim0 normals) = [1; 3; H; W]).
  { unfold mean_dim0. rewrite Hs. reflexivity. }
  destruct (normalize_normals_ok (mean_dim0 normals) eps_default Hm)
    as (mean_normals & Hn & _).
  rewrite Hn.
  destruct (Nat.eqb_spec E 0) as [->|_]; [lia|].
  cbn. eexists _, _, _. split; [reflexivity|]. split; [reflexivity|].
  split; [reflexivity|].
  intros i j. unfold pixel at 1. cbn [shape nth seq map get].
  symmetry. apply (pixel_3 normals _ i j Hs).
Qed.
End Ensemble.

(** The two element types order their values as [torch.argmax] needs. *)
Lemma SFltb_irrefl (x : spec_float) : SFltb x x = false.
Proof.
  destruct x as [s|s| |s m e]; try destruct s; cbn;
    rewrite ?Z.compare_refl, ?Pos.compare_cont_refl; reflexivity.
Qed.

Ltac compare_cases :=
  repeat match goal with
  | H : context [Z.compare ?x ?y] |- _ => destruct (Z.compare_spec x y)
  | |- context [Z.compare ?x ?y] => destruct (Z.compare_spec x y)
  | H : context [Pos.compare ?x ?y] |- _ => destruct (Pos.compare_spec x y)
  | |- context [Pos.compare ?x ?y] => destruct (Pos.compare_spec x y)
  end.

Lemma SFltb_trans (a b c : spec_float) :
  SFltb a b = true -> SFltb b c = true -> SFltb a c = true.
Proof.
  unfold SFltb.
  destruct a as [[]|[]| |[] ma ea], b as [[]|[]| |[] mb eb],
           c as [[]|[]| |[] mc ec];
    cbn; try discriminate; try reflexivity;
    change (Pos.compare_cont Eq) with Pos.compare;
    intros Hab Hbc; compare_cases; subst;
    cbn in *; try discriminate; try reflexivity; try lia.
Qed.

Lemma float_order (prec emax : Z) : @ScalarOrder _ (Float.scalar prec emax).
Proof.
  constructor; cbn.
  - apply SFltb_irrefl.
  - apply SFltb_trans.
  - intros a b Ha. destruct a; try discriminate. reflexivity.
  - intros a b Hb. destruct b; try discriminate. destruct a; reflexivity.
Qed.

(** The similarity the code computes is the cosine of the claim. *)
Lemma sim_cos_spec {T : Type} {scalar : Scalar T} (normals mn : tensor T)
    (E H W e i j : nat) :
  shape normals = [E; 3; H; W] ->
  normalize_normals (mean_dim0 normals) eps_default = Ok mn ->
  sim_cos mn normals e i j = spec_cosine normals E e i j.
Proof.
  intros Hs Hn.
  assert (Hm : shape (mean_dim0 normals) = [1; 3; H; W]).
  { unfold mean_dim0. rewrite Hs. reflexivity. }
  destruct (normalize_normals_ok (mean_dim0 normals) eps_default Hm)
    as (mn' & Hn' & Hsm & Hget).
  rewrite Hn in Hn'. injection Hn' as <-.
  unfold sim_cos. rewrite (pixel_3 mn 0 i j Hsm), (pixel_3 normals e i j Hs).
  rewrite !Hget, (pixel_3 (mean_dim0 normals) 0 i j Hm).
  unfold mean_dim0. rewrite Hs. cbn [get tl].
  unfold spec_cosine, spec_mean_direction, spec_mean_length, spec_mean.
  destruct E as [|n]; reflexivity.
Qed.



(** ** Unit length *)


(** ** More on input validation *)

Lemma last_two_ok (s : list nat) :
  2 <= length s -> exists H W, last_two s = Ok (H, W).
Proof.
  intros Hl. unfold last_two.
  rewrite <- length_rev in Hl.
  destruct (rev s) as [|w [|h r]]; cbn in Hl; try lia. eauto.
Qed.

Lemma last_two_short (s : list nat) :
  length s < 2 -> last_two s = Raise (ValueError UnpackShape).
Proof.
  intros Hl. unfold last_two.
  rewrite <- length_rev in Hl.
  destruct (rev s) as [|w [|h r]]; cbn in Hl; try lia; reflexivity.
Qed.

(** The image checks of [check_inputs] pass exactly on a supported image,
    and then compute [num_images]. *)
Lemma image_checks (img : py_image spec_float) :
  match
    match img with
    | NdArray t | TorchTensor t =>
        '(H, W) <- last_two (shape t) ;;
        if negb (existsb (Nat.eqb (dim t)) [2; 3; 4])
        then Raise (ValueError ImageDimension)
        else if dim t =? 4
        then Ok (Z.of_nat (nth 0 (shape t) 0), H, W)
        else Ok (1%Z, H, W)
    | PILImage pixels =>
        Ok (1%Z, Z.of_nat (nth 0 (shape pixels) 0),
               Z.of_nat (nth 1 (shape pixels) 0))
    | OtherObject => Raise (ValueError ImageType)
    end
  with
  | Ok (n, _, _) => supported_image img = true /\ n = num_images img
  | Raise _ => supported_image img = false
  end.
Proof.
  assert (Harr : forall t : tensor spec_float,
    match
      '(H, W) <- last_two (shape t) ;;
      if negb (existsb (Nat.eqb (dim t)) [2; 3; 4])
      then Raise (ValueError ImageDimension)
      else if dim t =? 4
      then Ok (Z.of_nat (nth 0 (shape t) 0), H, W)
      else Ok (1%Z, H, W)
    with
    | Ok (n, _, _) =>
        (2 <=? dim t) && (dim t <=? 4) = true /\
        n = (if dim t =? 4 then Z.of_nat (nth 0 (shape t) 0) else 1%Z)
    | Raise _ => (2 <=? dim t) && (dim t <=? 4) = false
    end).
  { intros t. unfold dim.
    destruct (le_lt_dec 2 (length (shape t))) as [Hge|Hlt].
    - destruct (last_two_ok (shape t) Hge) as (H & W & ->). cbn [bind].
      destruct (length (shape t)) as [|[|[|[|[|k]]]]]; try lia; cbn; auto.
    - rewrite (last_two_short (shape t) Hlt). cbn [bind].
      destruct (length (shape t)) as [|[|k]]; try lia; reflexivity. }
  destruct img as [a|a|a|]; cbn [supported_image num_images];
    try apply Harr; auto.
Qed.

(** X1: [check_inputs] passes exactly when the step count, the ensemble size
    and the batch size are at least 1, the processing resolution is a
    non-negative multiple of 8, both resampling methods and the output
    format are known, the keyword arguments are dictionaries or absent, no
    latent is supplied, the image is supported and the generator fits. *)
Theorem check_inputs_accepts_iff
    (self : pipeline) (img : py_image spec_float) (steps : option Z)
    (ens : Z) (res : option Z) (mi mo : string) (bs : Z)
    (ek : option py_kwargs) (latent : option py_latent)
    (gen : option py_generator) (fmt : string) (vk : option py_kwargs) :
  check_inputs self img steps ens res mi mo bs ek latent gen fmt vk = Ok tt
  <->
  (exists n, steps = Some n /\ (1 <= n)%Z) /\
  (1 <= ens)%Z /\
  (exists r, res = Some r /\ (0 <= r)%Z /\ (r mod 8 = 0)%Z) /\
  Py.str_in mi resample_modes = true /\
  Py.str_in mo resample_modes = true /\
  (1 <= bs)%Z /\
  Py.str_in fmt ["pt"; "np"]%string = true /\
  is_not_dict ek = false /\
  is_not_dict vk = false /\
  latent = None /\
  supported_image img = true /\
  supported_generator self gen (num_images img * ens) = true.
Proof.
  split.
  - intros Hok.
    destruct latent as [[t|]|].
    { exfalso. revert Hok. apply check_inputs_rejects_tensor_latent. }
    all: revert Hok; unfold check_inputs;
      destruct steps as [n|]; cbn [bind]; [|discriminate];
      destruct (Z.ltb_spec n 1); [discriminate|];
      destruct (Z.ltb_spec ens 1); [discriminate|];
      destruct res as [r|]; cbn [bind]; [|discriminate];
      destruct (Z.ltb_spec r 0); [discriminate|];
      destruct (Z.eqb_spec (r mod latent_size_scale) 0); cbn [negb];
        [|discriminate];
      destruct (Py.str_in mi resample_modes) eqn:Emi; cbn [negb];
        [|discriminate];
      destruct (Py.str_in mo resample_modes) eqn:Emo; cbn [negb];
        [|discriminate];
      destruct (Z.ltb_spec bs 1); [discriminate|];
      destruct (Py.str_in fmt ["pt"; "np"]%string) eqn:Efmt; cbn [negb];
        [|discriminate];
      destruct gen as [g|]; try discriminate;
      destruct ek as [[?|]|]; cbn [is_dict negb]; try discriminate;
      destruct vk as [[?|]|]; cbn [is_dict negb]; try discriminate;
      pose proof (image_checks img) as Hi;
      match goal with
      | |- bind ?X _ = _ -> _ => destruct X as [[[k Hh] Ww]|err]
      end; cbn [bind]; try discriminate;
      destruct Hi as [Hsup ->].
    all: try (intros _; repeat split; eauto; fail).
    all: destruct g as [d|ds|]; cbn [supported_generator].
    all: try discriminate.
    all: try (destruct (String.eqb d (execution_device self)) eqn:Ed;
              cbn [negb]; [|discriminate];
              intros _; repeat split; eauto; fail).
    all: destruct (Z.eqb_spec (Z.of_nat (length ds)) (num_images img * ens))
           as [Elen|]; cbn [negb]; [|discriminate];
         destruct (forallb _ ds) eqn:Eds; cbn [negb]; [|discriminate];
         intros _; repeat split; eauto.
  - intros ((n & -> & Hn) & Hens & (r & -> & Hr & Hmod) & Hmi & Hmo & Hbs
            & Hfmt & Hek & Hvk & -> & Himg & Hgen).
    unfold check_inputs. cbn [bind].
    destruct (Z.ltb_spec n 1); [lia|].
    destruct (Z.ltb_spec ens 1); [lia|].
    destruct (Z.ltb_spec r 0); [lia|].
    change latent_size_scale with 8%Z. rewrite Hmod, Hmi, Hmo, Hfmt.
    cbn [Z.eqb negb].
    destruct (Z.ltb_spec bs 1); [lia|].
    destruct ek as [[?|]|]; try discriminate;
      destruct vk as [[?|]|]; try discriminate; cbn [is_dict negb].
    all: pose proof (image_checks img) as Hi;
      match goal with
      | |- bind ?X _ = _ => destruct X as [[[k Hh] Ww]|err]
      end; [|congruence]; destruct Hi as [_ ->]; cbn [bind];
      destruct gen as [[d|ds|]|]; cbn [supported_generator] in Hgen;
      try discriminate; try reflexivity;
      try (rewrite Hgen; reflexivity);
      apply andb_true_iff in Hgen as [-> ->]; reflexivity.
Qed.

(** X2: with a resolved positive step count and a positive ensemble size, a
    non-negative processing resolution that is not a multiple of 8 is
    refused with the error on the multiple, whatever the other arguments. *)
Theorem check_inputs_resolution_not_multiple
    (self : pipeline) (img : py_image spec_float) (n ens r : Z)
    (mi mo : string) (bs : Z) (ek : option py_kwargs)
    (latent : option py_latent) (gen : option py_generator) (fmt : string)
    (vk : option py_kwargs) :
  (1 <= n)%Z -> (1 <= ens)%Z -> (0 <= r)%Z -> (r mod 8 <> 0)%Z ->
  check_inputs self img (Some n) ens (Some r) mi mo bs ek latent gen fmt vk
  = Raise (ValueError ResolutionNotMultiple).
Proof.
  intros Hn Hens Hr Hmod. unfold check_inputs. cbn [bind].
  destruct (Z.ltb_spec n 1); [lia|].
  destruct (Z.ltb_spec ens 1); [lia|].
  destruct (Z.ltb_spec r 0); [lia|].
  change latent_size_scale with 8%Z.
  destruct (Z.eqb_spec (r mod 8) 0); [contradiction|]. reflexivity.
Qed.

Lemma check_inputs_resolution_not_multiple_witness :
  check_inputs sample_pipeline (TorchTensor (constant_image half))
    (Some 4%Z) 1 (Some 97%Z) "bilinear" "bilinear" 1 None None None "np" None
  = Raise (ValueError ResolutionNotMultiple).
Proof.
  apply check_inputs_resolution_not_multiple; [lia | lia | lia |].
  vm_compute. discriminate.
Defined.

(** X3: when the scalar arguments, the resampling methods and the output
    format are valid, supplying both a latent and a generator is refused
    with the error on their combination, before the image, the latent or
    the generator are looked at. *)
Theorem check_inputs_latent_and_generator
    (self : pipeline) (img : py_image spec_float) (n ens r : Z)
    (mi mo : string) (bs : Z) (ek : option py_kwargs)
    (latent : py_latent) (gen : py_generator) (fmt : string)
    (vk : option py_kwargs) :
  (1 <= n)%Z -> (1 <= ens)%Z -> (0 <= r)%Z -> (r mod 8 = 0)%Z ->
  Py.str_in mi resample_modes = true ->
  Py.str_in mo resample_modes = true ->
  (1 <= bs)%Z ->
  Py.str_in fmt ["pt"; "np"]%string = true ->
  check_inputs self img (Some n) ens (Some r) mi mo bs ek (Some latent)
    (Some gen) fmt vk
  = Raise (ValueError LatentAndGenerator).
Proof.
  intros Hn Hens Hr Hmod Hmi Hmo Hbs Hfmt. unfold check_inputs. cbn [bind].
  destruct (Z.ltb_spec n 1); [lia|].
  destruct (Z.ltb_spec ens 1); [lia|].
  destruct (Z.ltb_spec r 0); [lia|].
  change latent_size_scale with 8%Z. rewrite Hmod, Hmi, Hmo, Hfmt.
  cbn [Z.eqb negb].
  destruct (Z.ltb_spec bs 1); [lia|]. reflexivity.
Qed.

Lemma check_inputs_latent_and_generator_witness :
  check_inputs sample_pipeline (TorchTensor (constant_image half))
    (Some 4%Z) 1 (Some 64%Z) "bilinear" "bilinear" 1 None
    (Some (LatentTensor sample_latent)) (Some (Generator "cpu")) "np" None
  = Raise (ValueError LatentAndGenerator).
Proof.
  apply check_inputs_latent_and_generator;
    [lia | lia | lia | reflexivity | reflexivity | reflexivity | lia
    | reflexivity].
Defined.

(** ** The range check *)

Lemma fold_min2_nan (l : list spec_float) (acc : spec_float) :
  Float.is_nan acc = true \/ (exists x, In x l /\ Float.is_nan x = true) ->
  fold_left Float.min2 l acc = S754_nan.
Proof.
  revert acc. induction l as [|y l IH]; intros acc [Hacc|(x & Hin & Hx)];
    cbn [fold_left].
  - destruct acc; try discriminate. reflexivity.
  - destruct Hin.
  - apply IH. left. destruct acc; try discriminate. reflexivity.
  - destruct Hin as [->|Hin].
    + apply IH. left. destruct x; try discriminate.
      destruct acc; reflexivity.
    + apply IH. right. eauto.
Qed.

Lemma fold_max2_nan (l : list spec_float) (acc : spec_float) :
  Float.is_nan acc = true \/ (exists x, In x l /\ Float.is_nan x = true) ->
  fold_left Float.max2 l acc = S754_nan.
Proof.
  revert acc. induction l as [|y l IH]; intros acc [Hacc|(x & Hin & Hx)];
    cbn [fold_left].
  - destruct acc; try discriminate. reflexivity.
  - destruct Hin.
  - apply IH. left. destruct acc; try discriminate. reflexivity.
  - destruct Hin as [->|Hin].
    + apply IH. left. destruct x; try discriminate.
      destruct acc; reflexivity.
    + apply IH. right. eauto.
Qed.

Lemma fold_select_in {A} (f : A -> A -> A) (l : list A) (acc : A) :
  (forall a b, f a b = a \/ f a b = b) ->
  In (fold_left f l acc) (acc :: l).
Proof.
  intros Hf. revert acc. induction l as [|y l IH]; intros acc;
    cbn [fold_left].
  - now left.
  - destruct (IH (f acc y)) as [Heq|Hin].
    + rewrite <- Heq. destruct (Hf acc y) as [->| ->];
        [now left|right; now left].
    + right. now right.
Qed.

Lemma min2_select (a b : spec_float) :
  Float.min2 a b = a \/ Float.min2 a b = b.
Proof.
  unfold Float.min2.
  destruct (Float.is_nan a); [now left|].
  destruct (Float.is_nan b); [now right|].
  destruct (SFltb b a); auto.
Qed.

Lemma max2_select (a b : spec_float) :
  Float.max2 a b = a \/ Float.max2 a b = b.
Proof.
  unfold Float.max2.
  destruct (Float.is_nan a); [now left|].
  destruct (Float.is_nan b); [now right|].
  destruct (SFltb a b); auto.
Qed.

(** X4: the range check lets a floating-point image with a NaN element
    pass, whatever its other elements: the minimum and the maximum are then
    NaN and no comparison with a NaN holds. *)
Theorem range_check_accepts_nan (image : tensor spec_float) (x : spec_float) :
  is_floating_point (t_dtype image) = true ->
  In x (elements image) -> Float.is_nan x = true ->
  check_image_values_range image = Ok tt.
Proof.
  intros Hf Hin Hx. unfold check_image_values_range. rewrite Hf. cbn [negb].
  unfold Float.torch_min, Float.torch_max.
  destruct (elements image) as [|y l]; [destruct Hin|].
  cbn [bind].
  assert (Hnan : Float.is_nan y = true \/
                 (exists z, In z l /\ Float.is_nan z = true)).
  { destruct Hin as [->|Hin]; [now left|right; eauto]. }
  rewrite (fold_min2_nan l y Hnan), (fold_max2_nan l y Hnan).
  reflexivity.
Qed.

(** X5: when the range check raises its error, some element of the image is
    itself below -1 or above 1. *)
Theorem range_check_error_has_culprit (image : tensor spec_float) :
  check_image_values_range image = Raise (ValueError OutsideRange) ->
  exists x, In x (elements image) /\
    (Float.py_lt (Float.item x) (Float.py_float (-1)) = true \/
     Float.py_gt (Float.item x) (Float.py_float 1) = true).
Proof.
  unfold check_image_values_range.
  destruct (is_floating_point (t_dtype image)); cbn [negb]; [|discriminate].
  unfold Float.torch_min, Float.torch_max.
  destruct (elements image) as [|y l]; [discriminate|]. cbn [bind].
  pose proof (fold_select_in Float.min2 l y min2_select) as Hmin.
  pose proof (fold_select_in Float.max2 l y max2_select) as Hmax.
  destruct (Float.py_lt _ _) eqn:Elt; cbn [orb].
  - intros _. eexists. split; [exact Hmin|]. now left.
  - destruct (Float.py_gt _ _) eqn:Egt; [|discriminate].
    intros _. eexists. split; [exact Hmax|]. now right.
Qed.

Lemma range_check_accepts_nan_witness :
  check_image_values_range nan_image = Ok tt.
Proof.
  apply (@range_check_accepts_nan nan_image S754_nan);
    [reflexivity | vm_compute; auto | reflexivity].
Defined.

Lemma range_check_error_has_culprit_witness :
  exists x, In x (elements (constant_image two)) /\
    (Float.py_lt (Float.item x) (Float.py_float (-1)) = true \/
     Float.py_gt (Float.item x) (Float.py_float 1) = true).
Proof.
  apply (@range_check_error_has_culprit (constant_image two)).
  vm_compute. reflexivity.
Defined.

(** ** More on the image canonicalizer *)

Section CanonicalFacts.
Context {T : Type}.
Variable to_float32 : T -> T.

(** The last step of [load_image_canonical], on the tensor the dtype
    handling produced. *)
Local Abbreviation dims_step image m :=
  (match dim image with
   | 2 =>
       Ok (mkTensor (t_dtype image) (1 :: 3 :: shape image)
             (fun idx => get image (tl (tl idx))), m)
   | 3 =>
       let image1 :=
         if (nth 2 (shape image) 0 =? 1) || (nth 2 (shape image) 0 =? 3)
         then permute_2_0_1 image else image in
       let image2 :=
         if nth 0 (shape image1) 0 =? 1 then repeat_3_1_1 image1 else image1 in
       if negb (nth 0 (shape image2) 0 =? 3)
       then Raise (ValueError NotOneOrThreeChannel)
       else Ok (unsqueeze_0 image2, m)
   | 4 => Ok (image, m)
   | _ => Raise (ValueError NotTwoThreeFourDim)
   end).

Lemma load_stages (img : py_image T) :
  match image_array img with
  | None => load_image_canonical to_float32 img = Raise AttributeError
  | Some a =>
      if accepted_dtype img then
        exists a' : tensor T,
          shape a' = shape a /\
          (forall idx, get a' idx = converted to_float32 img (get a idx)) /\
          load_image_canonical to_float32 img = dims_step a' (source_max img)
      else exists e, load_image_canonical to_float32 img = Raise e
  end.
Proof.
  unfold load_image_canonical.
  destruct img as [a|a|a|]; cbn [image_array accepted_dtype source_max
    converted bind]; [| | |reflexivity].
  1,2: destruct a as [d s g]; cbv zeta; cbn [t_dtype];
       destruct d; cbn [is_signed_integer is_complex is_bool is_unsigned
         is_floating_point orb bind]; eauto;
       (eexists; split; [|split]; cycle 2;
        [reflexivity | reflexivity | intros idx; reflexivity]).
  destruct a as [d s g]; cbn [t_dtype];
    destruct d; cbn [is_floating_point dtype_eqb orb negb bind]; eauto;
    (eexists; split; [|split]; cycle 2;
     [reflexivity | reflexivity | intros idx; reflexivity]).
Qed.

Lemma dims_step_layout (image : tensor T) (m : option Z) :
  match shape image with
  | [h; w] =>
      exists out, dims_step image m = Ok (out, m) /\
        shape out = [1; 3; h; w] /\
        (forall n c i j, get out [n; c; i; j] = get image [i; j])
  | [s0; s1; s2] =>
      if (s2 =? 1) || (s2 =? 3) then
        exists out, dims_step image m = Ok (out, m) /\
          shape out = [1; 3; s0; s1] /\
          (forall n c i j,
             get out [n; c; i; j]
             = get image [i; j; if s2 =? 1 then 0 else c])
      else if (s0 =? 1) || (s0 =? 3) then
        exists out, dims_step image m = Ok (out, m) /\
          shape out = [1; 3; s1; s2] /\
          (forall n c i j,
             get out [n; c; i; j]
             = get image [if s0 =? 1 then 0 else c; i; j])
      else dims_step image m = Raise (ValueError NotOneOrThreeChannel)
  | [_; _; _; _] => dims_step image m = Ok (image, m)
  | _ => dims_step image m = Raise (ValueError NotTwoThreeFourDim)
  end.
Proof.
  unfold dim. destruct image as [d s g]. cbn [shape t_dtype].
  destruct s as [|s0 [|s1 [|s2 [|s3 [|? ?]]]]]; cbn [length]; try reflexivity.
  - eexists. split; [reflexivity|]. split; reflexivity.
  - cbn [nth]. cbv zeta.
    destruct (Nat.eqb_spec s2 1) as [->|N1]; cbn [orb].
    { cbn. eexists. split; [reflexivity|]. split; [reflexivity|].
      intros n c i j. cbn. reflexivity. }
    destruct (Nat.eqb_spec s2 3) as [->|N3]; cbn [orb].
    { cbn. eexists. split; [reflexivity|]. split; [reflexivity|].
      intros n c i j. reflexivity. }
    cbn [shape nth].
    destruct (Nat.eqb_spec s0 1) as [->|M1]; cbn [orb].
    { cbn. eexists. split; [reflexivity|]. split; [reflexivity|].
      intros n c i j. cbn. reflexivity. }
    cbn [shape nth].
    destruct (Nat.eqb_spec s0 3) as [->|M3]; cbn [orb negb].
    { eexists. split; [reflexivity|]. split; [reflexivity|].
      intros n c i j. reflexivity. }
    reflexivity.
Qed.

(** X6: the canonicalizer returns a result exactly for an array-like image
    whose element type is floating-point or unsigned (uint8 only for a torch
    tensor) and whose shape is 2-D, 4-D, or 3-D with 1 or 3 as last or first
    axis. *)
Theorem load_image_canonical_accepts_iff (img : py_image T) :
  (exists out m, load_image_canonical to_float32 img = Ok (out, m))
  <->
  (exists a, image_array img = Some a /\
     accepted_dtype img = true /\ accepted_shape (shape a) = true).
Proof.
  pose proof (load_stages img) as Hst.
  destruct (image_array img) as [a|].
  2: { split; [intros (out & m & Hl); congruence|intros (a & Ha & _); congruence]. }
  destruct (accepted_dtype img).
  2: { destruct Hst as (e & He). split.
       - intros (out & m & Hl). congruence.
       - intros (a0 & _ & Hd & _). discriminate. }
  destruct Hst as (a' & Hs & _ & ->).
  pose proof (dims_step_layout a' (source_max img)) as Hl.
  split.
  - intros (out & m & Hr). exists a. split; [reflexivity|]. split; [reflexivity|].
    rewrite <- Hs.
    destruct (shape a') as [|s0 [|s1 [|s2 [|s3 [|? ?]]]]]; try reflexivity;
      try congruence.
    cbn [accepted_shape].
    destruct ((s2 =? 1) || (s2 =? 3)); [reflexivity|]. cbn [orb].
    destruct ((s0 =? 1) || (s0 =? 3)); [reflexivity|congruence].
  - intros (a0 & [= <-] & _ & Hsh). rewrite <- Hs in Hsh.
    destruct (shape a') as [|s0 [|s1 [|s2 [|s3 [|? ?]]]]]; try discriminate.
    + destruct Hl as (out & -> & _). eauto.
    + cbn [accepted_shape] in Hsh.
      destruct ((s2 =? 1) || (s2 =? 3)) eqn:E2.
      * destruct Hl as (out & -> & _). eauto.
      * cbn [orb] in Hsh.
        rewrite Hsh in Hl. destruct Hl as (out & -> & _). eauto.
    + eauto.
Qed.

(** X7: an accepted image comes back with the source maximum of its
    element type: the maximum of the dtype for a numpy array or PIL image of
    unsigned integers, 255 for a torch uint8 tensor, and none for
    floating-point data. *)
Theorem load_image_canonical_source_max (img : py_image T)
    (out : tensor T) (m : option Z) :
  load_image_canonical to_float32 img = Ok (out, m) -> m = source_max img.
Proof.
  intros Hl. pose proof (load_stages img) as Hst.
  destruct (image_array img) as [a|]; [|congruence].
  destruct (accepted_dtype img); [|destruct Hst as (e & He); congruence].
  destruct Hst as (a' & _ & _ & Hd). rewrite Hd in Hl.
  pose proof (dims_step_layout a' (source_max img)) as Hlay.
  destruct (shape a') as [|s0 [|s1 [|s2 [|s3 [|? ?]]]]]; try congruence.
  - destruct Hlay as (o & Ho & _). congruence.
  - destruct ((s2 =? 1) || (s2 =? 3)).
    + destruct Hlay as (o & Ho & _). congruence.
    + destruct ((s0 =? 1) || (s0 =? 3)); [|congruence].
      destruct Hlay as (o & Ho & _). congruence.
Qed.

(** X8: the layout of an accepted image.  A 2-D image is copied to each of
    three channels.  A 3-D image whose last axis has size 1 or 3 is read as
    height x width x channel, also when its first axis has size 3, and a
    single channel is copied three times; any other 3-D image is read as
    channel x height x width.  A 4-D image keeps its shape.  Each element is
    the source element, converted to float32 when the source is a numpy
    array of unsigned integers. *)
Theorem load_image_canonical_layout (img : py_image T) (a out : tensor T)
    (m : option Z) :
  load_image_canonical to_float32 img = Ok (out, m) ->
  image_array img = Some a ->
  match shape a with
  | [h; w] =>
      shape out = [1; 3; h; w] /\
      (forall n c i j,
         get out [n; c; i; j] = converted to_float32 img (get a [i; j]))
  | [s0; s1; s2] =>
      if (s2 =? 1) || (s2 =? 3) then
        shape out = [1; 3; s0; s1] /\
        (forall n c i j,
           get out [n; c; i; j]
           = converted to_float32 img
               (get a [i; j; if s2 =? 1 then 0 else c]))
      else
        shape out = [1; 3; s1; s2] /\
        (forall n c i j,
           get out [n; c; i; j]
           = converted to_float32 img
               (get a [if s0 =? 1 then 0 else c; i; j]))
  | _ =>
      shape out = shape a /\
      (forall idx, get out idx = converted to_float32 img (get a idx))
  end.
Proof.
  intros Hl Ha. pose proof (load_stages img) as Hst. rewrite Ha in Hst.
  destruct (accepted_dtype img); [|destruct Hst as (e & He); congruence].
  destruct Hst as (a' & Hs & Hget & Hd). rewrite Hd in Hl.
  pose proof (dims_step_layout a' (source_max img)) as Hlay.
  rewrite <- Hs.
  destruct (shape a') as [|s0 [|s1 [|s2 [|s3 [|? ?]]]]] eqn:Esh;
    try congruence.
  - destruct Hlay as (o & Ho & Hsh & Hg).
    rewrite Ho in Hl. injection Hl as <- _.
    split; [exact Hsh|]. intros n c i j. now rewrite Hg, Hget.
  - destruct ((s2 =? 1) || (s2 =? 3)).
    + destruct Hlay as (o & Ho & Hsh & Hg).
      rewrite Ho in Hl. injection Hl as <- _.
      split; [exact Hsh|]. intros n c i j. now rewrite Hg, Hget.
    + destruct ((s0 =? 1) || (s0 =? 3)); [|congruence].
      destruct Hlay as (o & Ho & Hsh & Hg).
      rewrite Ho in Hl. injection Hl as <- _.
      split; [exact Hsh|]. intros n c i j. now rewrite Hg, Hget.
  - rewrite Hlay in Hl. injection Hl as <- _.
    split; [congruence|exact Hget].
Qed.
End CanonicalFacts.

Lemma load_image_canonical_source_max_witness :
  exists out m,
    load_image_canonical (Float.round 24 128) (TorchTensor gray_uint8)
      = Ok (out, m) /\
    m = source_max (TorchTensor gray_uint8).
Proof.
  eexists _, _. split; [reflexivity|].
  apply (@load_image_canonical_source_max _ (Float.round 24 128)
           (TorchTensor gray_uint8) _ _ eq_refl).
Defined.

Lemma load_image_canonical_layout_witness :
  exists out m,
    load_image_canonical (Float.round 24 128) (NdArray gray_uint8)
      = Ok (out, m) /\
    shape out = [1; 3; 2; 3] /\
    (forall n c i j,
       get out [n; c; i; j]
       = converted (Float.round 24 128) (NdArray gray_uint8)
           (get gray_uint8 [i; j])).
Proof.
  eexists _, _. split; [reflexivity|].
  apply (@load_image_canonical_layout _ (Float.round 24 128)
           (NdArray gray_uint8) gray_uint8 _ _ eq_refl eq_refl).
Defined.

(** ** More on padding and resizing *)

Lemma slice_stop_nonneg (h : nat) (p : Z) :
  (0 <= p)%Z ->
  Py.slice_stop h (if (p =? 0)%Z then None else Some (- p)%Z) = h - Z.to_nat p.
Proof.
  intros Hp. destruct (Z.eqb_spec p 0) as [->|Hne]; cbn [Py.slice_stop].
  - cbn. lia.
  - destruct (Z.ltb_spec (- p) 0); lia.
Qed.

(** X9: on a 4-D tensor and a padding record without negative entries,
    [unpad_image] never fails: it keeps the elements and cuts the height and
    the width by the record, down to an empty axis when the record exceeds
    the axis; a record of zeros leaves the tensor as it is. *)
Theorem unpad_image_cuts {T} (x : tensor T) (ph pw : Z) (n c h w : nat) :
  shape x = [n; c; h; w] -> (0 <= ph)%Z -> (0 <= pw)%Z ->
  exists out,
    unpad_image x (ph, pw) = Ok out /\
    shape out = [n; c; h - Z.to_nat ph; w - Z.to_nat pw] /\
    t_dtype out = t_dtype x /\
    (forall idx, get out idx = get x idx) /\
    (ph = 0%Z -> pw = 0%Z -> same_tensor out x).
Proof.
  intros Hs Hph Hpw. unfold unpad_image. rewrite Hs.
  eexists. split; [reflexivity|]. cbn [shape t_dtype get].
  rewrite !slice_stop_nonneg by assumption.
  split; [reflexivity|]. split; [reflexivity|]. split; [reflexivity|].
  intros -> ->. change (Z.to_nat 0) with 0. rewrite !Nat.sub_0_r.
  split; [reflexivity|]. split; [symmetry; exact Hs|].
  apply elements_ext; cbn [shape get]; [symmetry; exact Hs|reflexivity].
Qed.

Lemma unpad_image_cuts_witness :
  exists out,
    unpad_image sample_image (1, 5)%Z = Ok out /\
    shape out = [1; 1; 2 - Z.to_nat 1; 3 - Z.to_nat 5] /\
    t_dtype out = t_dtype sample_image /\
    (forall idx, get out idx = get sample_image idx) /\
    (1%Z = 0%Z -> 5%Z = 0%Z -> same_tensor out sample_image).
Proof.
  apply (@unpad_image_cuts Z sample_image 1%Z 5%Z 1 1 2 3);
    [reflexivity | lia | lia].
Defined.

Lemma pad_image_inv {T} (x padded : tensor T) (align : Z) (padding : Z * Z) :
  (0 < align)%Z ->
  pad_image x align = Ok (padded, padding) ->
  exists n c h w,
    shape x = [n; c; h; w] /\ 0 < c /\ 0 < h /\ 0 < w.
Proof.
  intros Ha. unfold pad_image, Py.mod_, F_pad_replicate.
  destruct (shape x) as [|n [|c [|h [|w [|? ?]]]]]; try discriminate.
  destruct (Z.eqb_spec align 0); [lia|]. cbn [bind].
  destruct (Nat.eqb_spec c 0); [discriminate|].
  destruct (Nat.eqb_spec h 0); [discriminate|].
  destruct (Nat.eqb_spec w 0); [discriminate|].
  intros _. exists n, c, h, w. repeat split; lia.
Qed.

Lemma ceil_div_multiple (h a : Z) :
  (0 < a)%Z -> (h + (- h) mod a = a * ((h + a - 1) / a))%Z.
Proof.
  intros Ha.
  destruct (next_multiple h Ha) as ([k Hk] & _ & _).
  pose proof (Z.mod_pos_bound (- h) a Ha) as Hb.
  rewrite Hk.
  assert (Hq : ((h + a - 1) / a = k)%Z).
  { symmetry. apply (Z.div_unique (h + a - 1) a k (a - 1 - (- h) mod a)); lia. }
  rewrite Hq. lia.
Qed.

(** X10: the latent size [check_inputs] expects agrees with the padding of
    the pipeline: the padded height and width are 8 times the quotients
    [(H + 8 - 1) // 8] and [(W + 8 - 1) // 8] of the expected latent
    shape. *)
Theorem padded_size_matches_expected_latent {T} (x padded : tensor T)
    (padding : Z * Z) (n c h w : nat) :
  shape x = [n; c; h; w] ->
  pad_image x latent_size_scale = Ok (padded, padding) ->
  exists h' w',
    shape padded = [n; c; h'; w'] /\
    Z.of_nat h'
    = (latent_size_scale
       * ((Z.of_nat h + latent_size_scale - 1) / latent_size_scale))%Z /\
    Z.of_nat w'
    = (latent_size_scale
       * ((Z.of_nat w + latent_size_scale - 1) / latent_size_scale))%Z.
Proof.
  intros Hs Hp.
  assert (Ha : (0 < latent_size_scale)%Z) by reflexivity.
  destruct (pad_image_inv x Ha Hp) as (n0 & c0 & h0 & w0 & Hs' & Hc & Hh & Hw).
  rewrite Hs in Hs'. injection Hs' as <- <- <- <-.
  rewrite (pad_image_ok x Hs Hc Hh Hw Ha) in Hp. injection Hp as <- _.
  pose proof (neg_mod_bounds h Ha). pose proof (neg_mod_bounds w Ha).
  eexists _, _. split; [reflexivity|].
  rewrite !Nat2Z.inj_add, !Z2Nat.id by lia.
  split; apply ceil_div_multiple; exact Ha.
Qed.

Lemma padded_size_matches_expected_latent_witness :
  exists padded padding h' w',
    pad_image sample_image latent_size_scale = Ok (padded, padding) /\
    shape padded = [1; 1; h'; w'] /\
    Z.of_nat h' = (latent_size_scale * ((2 + latent_size_scale - 1) / latent_size_scale))%Z /\
    Z.of_nat w' = (latent_size_scale * ((3 + latent_size_scale - 1) / latent_size_scale))%Z.
Proof.
  assert (Hp := @pad_image_ok Z sample_image latent_size_scale 1 1 2 3
                  eq_refl ltac:(lia) ltac:(lia) ltac:(lia) eq_refl).
  destruct (@padded_size_matches_expected_latent Z sample_image _ _ 1 1 2 3
              eq_refl Hp) as (h' & w' & H1 & H2 & H3).
  eexists _, _, h', w'. split; [exact Hp|]. auto.
Defined.

(** ** Preprocessing *)

Lemma resize_to_max_edge_inv {T}
    (resample : tensor T -> nat * nat -> string -> bool -> list nat -> T)
    (image out : tensor T) (edge : Z) (mode : string) :
  (0 < edge)%Z ->
  resize_to_max_edge resample image edge mode = Ok out ->
  exists n c h w h' w',
    shape image = [n; c; h; w] /\ shape out = [n; c; h'; w'] /\
    0 < h' /\ 0 < w' /\ Z.of_nat (Nat.max h' w') = edge /\
    t_dtype out = t_dtype image.
Proof.
  intros He. unfold resize_to_max_edge, Py.floordiv.
  destruct (shape image) as [|n [|c [|h [|w [|? ?]]]]] eqn:Hs;
    try discriminate.
  destruct (Z.eqb_spec (Z.max (Z.of_nat h) (Z.of_nat w)) 0) as [E|Hmax];
    [discriminate|]. cbn [bind].
  destruct (@scaled_edges (Z.of_nat h) (Z.of_nat w) edge) as (Bh & Bw & Bm);
    try lia.
  set (new_h := (Z.of_nat h * edge / _)%Z) in *.
  set (new_w := (Z.of_nat w * edge / _)%Z) in *.
  destruct (Z.eqb_spec new_h 0); [discriminate|].
  destruct (Z.eqb_spec new_w 0); [discriminate|]. cbn [orb].
  unfold resize_antialias, dim, F_interpolate. rewrite Hs. cbn [length].
  destruct (Py.str_in mode resample_modes); cbn [negb]; [|discriminate].
  destruct ((h =? 0) || (w =? 0) || (new_h <=? 0)%Z || (new_w <=? 0)%Z);
    [discriminate|].
  intros [= <-]. cbn [shape t_dtype fst snd].
  exists n, c, h, w, (Z.to_nat new_h), (Z.to_nat new_w).
  repeat split; lia.
Qed.

(** The canonical image is 4-D, and its batch axis is [num_images] for an
    array or a tensor. *)
Lemma load_batch_axis (img : py_image spec_float) (out : tensor spec_float)
    (m : option Z) :
  load_image_canonical (Float.round 24 128) img = Ok (out, m) ->
  exists n c h w,
    shape out = [n; c; h; w] /\
    match img with
    | NdArray _ | TorchTensor _ => Z.of_nat n = num_images img
    | _ => True
    end.
Proof.
  intros Hl. pose proof (load_stages (Float.round 24 128) img) as Hst.
  destruct (image_array img) as [a|] eqn:Ha; [|congruence].
  destruct (accepted_dtype img); [|destruct Hst as (e & He); congruence].
  destruct Hst as (a' & Hs & _ & Hd). rewrite Hd in Hl.
  pose proof (dims_step_layout a' (source_max img)) as Hlay.
  assert (Hn : forall k, length (shape a) = k ->
            match img with
            | NdArray _ | TorchTensor _ =>
                num_images img
                = (if k =? 4 then Z.of_nat (nth 0 (shape a) 0) else 1%Z)
            | _ => True
            end).
  { intros k <-. destruct img; cbn in Ha; try exact I;
      injection Ha as ->; reflexivity. }
  rewrite <- Hs in Hn.
  destruct (shape a') as [|s0 [|s1 [|s2 [|s3 [|? ?]]]]] eqn:Esh;
    try congruence.
  - destruct Hlay as (o & Ho & Hsh & _). rewrite Ho in Hl.
    injection Hl as <- _. eexists _, _, _, _. split; [exact Hsh|].
    specialize (Hn 2 eq_refl). destruct img; auto.
  - specialize (Hn 3 eq_refl).
    destruct ((s2 =? 1) || (s2 =? 3)).
    + destruct Hlay as (o & Ho & Hsh & _). rewrite Ho in Hl.
      injection Hl as <- _. eexists _, _, _, _. split; [exact Hsh|].
      destruct img; auto.
    + destruct ((s0 =? 1) || (s0 =? 3)); [|congruence].
      destruct Hlay as (o & Ho & Hsh & _). rewrite Ho in Hl.
      injection Hl as <- _. eexists _, _, _, _. split; [exact Hsh|].
      destruct img; auto.
  - rewrite Hlay in Hl. injection Hl as <- _.
    specialize (Hn 4 eq_refl). cbn [nth] in Hn.
    eexists _, _, _, _. split; [exact Esh|].
    destruct img; auto.
Qed.

Lemma to_dtype_shape (d : dtype) (t : tensor spec_float) :
  shape (to_dtype d t) = shape t /\ t_dtype (to_dtype d t) = d.
Proof. unfold to_dtype. destruct (format_of d). split; reflexivity. Qed.

Lemma rescale_shape (d : dtype) (t : tensor spec_float) (m : Z) :
  shape (rescale d t m) = shape t /\ t_dtype (rescale d t m) = t_dtype t.
Proof. unfold rescale. destruct (format_of d). split; reflexivity. Qed.

(** X11: when the preprocessing of [__call__] succeeds, the image it hands
    to the encoder is 4-D, of the pipeline's dtype, with height and width
    multiples of 8; the padding record has entries in [0, 8); without the
    padding the larger edge is the processing resolution, or, at resolution
    0, the image has its original size; the original resolution is the
    spatial size of the canonical image, whose batch and channel axes the
    result keeps; and the batch axis of an array or tensor image is
    [num_images]. *)
Theorem preprocess_result
    (resample : tensor spec_float -> nat * nat -> string -> bool ->
                list nat -> spec_float)
    (self : pipeline) (a : call_args) (res : option Z)
    (img : tensor spec_float) (ph pw : Z) (orig : list nat) :
  preprocess resample self a res = Ok (img, (ph, pw), orig) ->
  exists r n c h w h' w',
    res = Some r /\
    (exists canonical m,
       load_image_canonical (Float.round 24 128) (image a)
         = Ok (canonical, m) /\
       shape canonical = [n; c; h; w]) /\
    orig = [h; w] /\
    shape img = [n; c; h'; w'] /\
    t_dtype img = self_dtype self /\
    (8 | Z.of_nat h')%Z /\ (8 | Z.of_nat w')%Z /\
    (0 <= ph < 8)%Z /\ (0 <= pw < 8)%Z /\
    (if (r >? 0)%Z
     then Z.max (Z.of_nat h' - ph) (Z.of_nat w' - pw) = r
     else (Z.of_nat h' - ph = Z.of_nat h /\ Z.of_nat w' - pw = Z.of_nat w)%Z) /\
    match image a with
    | NdArray _ | TorchTensor _ => Z.of_nat n = num_images (image a)
    | _ => True
    end.
Proof.
  unfold preprocess.
  destruct (load_image_canonical _ (image a)) as [[img0 m]|e] eqn:Hl;
    cbn [bind]; [|discriminate].
  destruct (load_batch_axis _ Hl) as (n & c & h & w & Hs0 & Hn).
  destruct (to_dtype_shape (self_dtype self) img0) as [Hs1 Hd1].
  rewrite Hs0 in Hs1.
  assert (Hmid : forall x : result (tensor spec_float),
    x = match m with
        | Some m0 => Ok (rescale (self_dtype self) (to_dtype (self_dtype self) img0) m0)
        | None =>
            if check_input a
            then _ <- check_image_values_range (to_dtype (self_dtype self) img0) ;;
                 Ok (to_dtype (self_dtype self) img0)
            else Ok (to_dtype (self_dtype self) img0)
        end ->
    forall img1, x = Ok img1 ->
    shape img1 = [n; c; h; w] /\ t_dtype img1 = self_dtype self).
  { intros x -> img1. destruct m as [m0|].
    - intros [= <-].
      destruct (rescale_shape (self_dtype self)
                  (to_dtype (self_dtype self) img0) m0) as [-> ->]. auto.
    - destruct (check_input a).
      + destruct (check_image_values_range _); cbn [bind]; [|discriminate].
        intros [= <-]. auto.
      + intros [= <-]. auto. }
  match goal with
  | |- bind ?x _ = _ -> _ =>
      specialize (Hmid x eq_refl); destruct x as [img1|e]; cbn [bind];
        [|discriminate]
  end.
  destruct (Hmid img1 eq_refl) as [Hs2 Hd2]. clear Hmid.
  destruct res as [r|]; cbn [bind]; [|discriminate].
  unfold dim. rewrite Hs1. cbn [length Nat.sub skipn].
  assert (Ha : (0 < latent_size_scale)%Z) by reflexivity.
  destruct (Z.gtb_spec r 0) as [Hr|Hr].
  - destruct (resize_to_max_edge _ img1 r _) as [img2|e] eqn:Hrs;
      cbn [bind]; [|discriminate].
    destruct (resize_to_max_edge_inv _ _ _ Hr Hrs)
      as (n2 & c2 & h2 & w2 & h3 & w3 & Hs2' & Hs3 & Hh3 & Hw3 & Hmax & Hd3).
    rewrite Hs2 in Hs2'. injection Hs2' as <- <- <- <-.
    destruct (pad_image img2 latent_size_scale) as [[img3 pad]|e] eqn:Hp;
      cbn [bind]; [|discriminate].
    destruct (pad_image_inv img2 Ha Hp) as (n4 & c4 & h4 & w4 & Hs4 & Hc & Hh & Hw).
    rewrite Hs3 in Hs4. injection Hs4 as <- <- <- <-.
    rewrite (pad_image_ok img2 Hs3 Hc Hh Hw Ha) in Hp.
    injection Hp as <- <-. intros [= <- <- <- <-].
    pose proof (neg_mod_bounds h3 Ha) as Bh.
    pose proof (neg_mod_bounds w3 Ha) as Bw.
    destruct (next_multiple (Z.of_nat h3) Ha) as (Dh & _ & _).
    destruct (next_multiple (Z.of_nat w3) Ha) as (Dw & _ & _).
    change latent_size_scale with 8%Z in *.
    exists r, n, c, h, w. eexists _, _.
    split; [reflexivity|].
    split; [exists img0, m; split; [reflexivity|exact Hs0]|].
    split; [reflexivity|].
    cbn [shape t_dtype]. split; [reflexivity|]. split; [congruence|].
    rewrite !Nat2Z.inj_add, !Z2Nat.id by lia.
    repeat split; try lia; try assumption.
    destruct (Z.gtb_spec r 0); [|lia].
    rewrite Nat2Z.inj_max in Hmax. lia.
  - cbn [bind].
    destruct (pad_image img1 latent_size_scale) as [[img3 pad]|e] eqn:Hp;
      cbn [bind]; [|discriminate].
    destruct (pad_image_inv img1 Ha Hp) as (n4 & c4 & h4 & w4 & Hs4 & Hc & Hh & Hw).
    rewrite Hs2 in Hs4. injection Hs4 as <- <- <- <-.
    rewrite (pad_image_ok img1 Hs2 Hc Hh Hw Ha) in Hp.
    injection Hp as <- <-. intros [= <- <- <- <-].
    pose proof (neg_mod_bounds h Ha) as Bh.
    pose proof (neg_mod_bounds w Ha) as Bw.
    destruct (next_multiple (Z.of_nat h) Ha) as (Dh & _ & _).
    destruct (next_multiple (Z.of_nat w) Ha) as (Dw & _ & _).
    change latent_size_scale with 8%Z in *.
    exists r, n, c, h, w. eexists _, _.
    split; [reflexivity|].
    split; [exists img0, m; split; [reflexivity|exact Hs0]|].
    split; [reflexivity|].
    cbn [shape t_dtype]. split; [reflexivity|]. split; [congruence|].
    rewrite !Nat2Z.inj_add, !Z2Nat.id by lia.
    repeat split; try lia; try assumption.
    destruct (Z.gtb_spec r 0); [lia|]. lia.
Qed.

Lemma preprocess_result_witness :
  exists img ph pw orig r n c h w h' w',
    preprocess nearest sample_pipeline
      (sample_args (TorchTensor (constant_image half)) None) (Some 32%Z)
      = Ok (img, (ph, pw), orig) /\
    Some 32%Z = Some r /\
    (exists canonical m,
       load_image_canonical (Float.round 24 128)
         (TorchTensor (constant_image half)) = Ok (canonical, m) /\
       shape canonical = [n; c; h; w]) /\
    orig = [h; w] /\
    shape img = [n; c; h'; w'] /\
    t_dtype img = self_dtype sample_pipeline /\
    (8 | Z.of_nat h')%Z /\ (8 | Z.of_nat w')%Z /\
    (0 <= ph < 8)%Z /\ (0 <= pw < 8)%Z /\
    (if (r >? 0)%Z
     then Z.max (Z.of_nat h' - ph) (Z.of_nat w' - pw) = r
     else (Z.of_nat h' - ph = Z.of_nat h /\ Z.of_nat w' - pw = Z.of_nat w)%Z) /\
    Z.of_nat n = num_images (TorchTensor (constant_image half)).
Proof.
  destruct (preprocess nearest sample_pipeline
              (sample_args (TorchTensor (constant_image half)) None)
              (Some 32%Z)) as [[[img [ph pw]] orig]|e] eqn:Hp.
  - destruct (preprocess_result _ _ _ _ Hp)
      as (r & n & c & h & w & h' & w' & Hr).
    exists img, ph, pw, orig, r, n, c, h, w, h', w'. split; [reflexivity|].
    exact Hr.
  - exfalso. vm_compute in Hp. discriminate Hp.
Defined.

(** ** More on encoding a prediction *)

(** X13: with [check_input=True], [encode_prediction] encodes only
    predictions that hold an infinite element and, in ray space
    ([use_full_z_range] unset or false), a negative z component: every
    finite prediction is refused, and so is every ray-space prediction
    whose z components are all non-negative. *)
Theorem encode_prediction_checked_accepts_only
    (prec emax : Z) (vae : tensor spec_float -> tensor spec_float)
    (scaling : spec_float) (self : pipeline)
    (prediction latent : tensor spec_float) :
  encode_prediction prec emax vae scaling self prediction true = Ok latent ->
  (exists x, In x (elements prediction) /\
     Float.is_finite x = false /\ Float.is_nan x = false) /\
  (py_not (use_full_z_range self) = true ->
   exists z, In z (elements (z_channel prediction)) /\
     SFltb z (S754_zero false) = true).
Proof.
  unfold encode_prediction.
  destruct (is_floating_point (t_dtype prediction)); cbn [negb];
    [|discriminate].
  destruct (shape prediction) as [|b [|c l]] eqn:Hs; try discriminate.
  destruct c as [|[|[|[|c]]]]; try discriminate;
    destruct l as [|h [|w [|? ?]]]; try discriminate.
  destruct (existsb Float.is_nan (elements prediction)) eqn:Hnan;
    cbn [bind]; [discriminate|].
  destruct (forallb Float.is_finite (elements prediction)) eqn:Hfin;
    cbn [bind]; [discriminate|].
  destruct (Float.torch_max _) as [m|e]; cbn [bind]; [|discriminate].
  destruct (Float.py_lt (Float.item m) _); cbn [bind]; [discriminate|].
  intros Hok. split.
  - apply forallb_false_witness in Hfin as (x & Hin & Hx).
    exists x. split; [exact Hin|]. split; [exact Hx|].
    exact (existsb_false_all _ _ _ Hnan Hin).
  - intros Hray. rewrite Hray in Hok. cbn [andb] in Hok.
    destruct (existsb _ (elements (z_channel prediction))) eqn:Hneg.
    + apply existsb_exists in Hneg. exact Hneg.
    + exfalso. revert Hok. vm_compute. discriminate.
Qed.

Lemma encode_prediction_checked_accepts_only_witness :
  (exists x, In x (elements infinite) /\
     Float.is_finite x = false /\ Float.is_nan x = false) /\
  (py_not (use_full_z_range sample_pipeline) = true ->
   exists z, In z (elements (z_channel infinite)) /\
     SFltb z (S754_zero false) = true).
Proof.
  destruct (encode_prediction 24 128 zero_latent scaling_factor
              sample_pipeline infinite true) as [latent|e] eqn:He.
  - exact (encode_prediction_checked_accepts_only _ _ _ _ _ _ He).
  - exfalso. vm_compute in He. discriminate He.
Defined.

(** ** More on ensembling *)

Section EnsembleFacts.
Context {T : Type} {scalar : Scalar T}.
Variable arccos : T -> T.
Variable pi : T.

Lemma reduction_cases (reduction : string) :
  Py.str_in reduction ["closest"; "mean"]%string = true <->
  reduction = "closest"%string \/ reduction = "mean"%string.
Proof.
  cbn [Py.str_in]. rewrite orb_false_r, orb_true_iff, !String.eqb_eq.
  reflexivity.
Qed.

Lemma ensemble_normals_only_if (normals : tensor T) (unc : bool)
    (reduction : string) (r : tensor T * option (tensor T)) :
  ensemble_normals arccos pi normals unc reduction = Ok r ->
  exists E H W,
    shape normals = [E; 3; H; W] /\
    (reduction = "mean"%string \/ (reduction = "closest"%string /\ 0 < E)).
Proof.
  unfold ensemble_normals.
  destruct (shape normals) as [|E [|C [|H [|W [|? ?]]]]] eqn:Hs;
    try discriminate.
  destruct (Py.str_in reduction _) eqn:Hred; cbn [negb]; [|discriminate].
  apply reduction_cases in Hred.
  destruct (Nat.eqb_spec C 3) as [->|]; cbn [negb]; [|discriminate].
  destruct (normalize_normals _ _); cbn [bind]; [|discriminate].
  destruct (String.eqb_spec reduction "mean") as [->|Hnm].
  - intros _. exists E, H, W. split; [reflexivity|]. now left.
  - destruct Hred as [-> | ->]; [|contradiction].
    destruct (Nat.eqb_spec E 0); [discriminate|].
    intros _. exists E, H, W. split; [reflexivity|]. right. split; [reflexivity|lia].
Qed.

Lemma ensemble_normals_if (normals : tensor T) (unc : bool)
    (reduction : string) (E H W : nat) :
  shape normals = [E; 3; H; W] ->
  reduction = "mean"%string \/ (reduction = "closest"%string /\ 0 < E) ->
  exists out uncertainty,
    ensemble_normals arccos pi normals unc reduction = Ok (out, uncertainty) /\
    shape out = [1; 3; H; W] /\
    t_dtype out = t_dtype normals /\
    if unc
    then exists u, uncertainty = Some u /\ shape u = [1; 1; H; W]
    else uncertainty = None.
Proof.
  intros Hs Hred. unfold ensemble_normals. rewrite Hs.
  assert (Hm : shape (mean_dim0 normals) = [1; 3; H; W]).
  { unfold mean_dim0. rewrite Hs. reflexivity. }
  destruct (normalize_normals_ok (mean_dim0 normals) eps_default Hm)
    as (mn & Hn & Hsn & _).
  assert (Hdn : t_dtype mn = t_dtype normals).
  { revert Hn. unfold normalize_normals. rewrite Hm. intros [= <-].
    unfold mean_dim0. rewrite Hs. reflexivity. }
  rewrite Hn.
  destruct Hred as [-> | [-> HE]].
  - cbn. eexists _, _. split; [reflexivity|]. split; [exact Hsn|].
    split; [exact Hdn|]. destruct unc; eauto.
  - destruct (Nat.eqb_spec E 0) as [->|_]; [lia|].
    cbn. eexists _, _. split; [reflexivity|]. split; [reflexivity|].
    split; [reflexivity|]. destruct unc; eauto.
Qed.

(** X14: [ensemble_normals] returns exactly on a 4-D tensor with three
    channels and a reduction that is "mean", or "closest" with at least one
    sample (an empty ensemble has a mean, of NaNs, but no closest sample);
    the result then has shape [1,3,H,W] and the dtype of the input, and the
    uncertainty is a [1,1,H,W] tensor when it is asked for and absent
    otherwise. *)
Theorem ensemble_normals_returns (normals : tensor T) (unc : bool)
    (reduction : string) :
  ((exists r, ensemble_normals arccos pi normals unc reduction = Ok r)
   <->
   (exists E H W,
      shape normals = [E; 3; H; W] /\
      (reduction = "mean"%string \/ (reduction = "closest"%string /\ 0 < E))))
  /\
  (forall out uncertainty,
     ensemble_normals arccos pi normals unc reduction = Ok (out, uncertainty) ->
     exists H W,
       shape normals = [nth 0 (shape normals) 0; 3; H; W] /\
       shape out = [1; 3; H; W] /\
       t_dtype out = t_dtype normals /\
       if unc
       then exists u, uncertainty = Some u /\ shape u = [1; 1; H; W]
       else uncertainty = None).
Proof.
  split; [split|].
  - intros [r Hr]. exact (ensemble_normals_only_if _ _ _ Hr).
  - intros (E & H & W & Hs & Hred).
    destruct (ensemble_normals_if normals unc Hs Hred) as (out & u & Hr & _).
    eauto.
  - intros out u Hr.
    destruct (ensemble_normals_only_if _ _ _ Hr) as (E & H & W & Hs & Hred).
    destruct (ensemble_normals_if normals unc Hs Hred)
      as (out' & u' & Hr' & Hrest).
    rewrite Hr in Hr'. injection Hr' as <- <-.
    exists H, W. rewrite Hs. cbn [nth]. split; [reflexivity|]. exact Hrest.
Qed.
End EnsembleFacts.

(** ** More on renormalization *)

Section FloatNormalize.
Variables prec emax : Z.

Lemma fold_add_nan (l : list spec_float) (acc : spec_float) :
  Float.is_nan acc = true \/ (exists v, In v l /\ Float.is_nan v = true) ->
  fold_left (SFadd prec emax) l acc = S754_nan.
Proof.
  revert acc. induction l as [|x l IH]; intros acc [Hacc|(v & Hin & Hv)];
    cbn [fold_left].
  - destruct acc; try discriminate. reflexivity.
  - destruct Hin.
  - apply IH. left. destruct acc; try discriminate. reflexivity.
  - destruct Hin as [->|Hin].
    + apply IH. left. destruct v; try discriminate. destruct acc; reflexivity.
    + apply IH. right. eauto.
Qed.

Lemma sqnorm_nan (v : list spec_float) (x : spec_float) :
  In x v -> Float.is_nan x = true ->
  @sqnorm _ (Float.scalar prec emax) v = S754_nan.
Proof.
  intros Hin Hx. unfold sqnorm, sum.
  assert (Hsq : In S754_nan
                  (map (fun y => @fmul _ (Float.scalar prec emax) y y) v)).
  { apply in_map_iff. exists x. split; [|exact Hin].
    destruct x; try discriminate. reflexivity. }
  destruct (map _ v) as [|y l]; [destruct Hsq|].
  apply fold_add_nan. destruct Hsq as [->|Hsq]; [now left|right; eauto].
Qed.

(** X17: in floating point, whatever the format and the floor, a NaN in one
    channel of a pixel makes renormalization return a NaN in every channel
    of that pixel. *)
Theorem normalize_normals_spreads_nan (t out : tensor spec_float)
    (eps : spec_float) (N H W n c i j : nat) :
  shape t = [N; 3; H; W] -> c < 3 ->
  Float.is_nan (get t [n; c; i; j]) = true ->
  @normalize_normals _ (Float.scalar prec emax) t eps = Ok out ->
  forall c', get out [n; c'; i; j] = S754_nan.
Proof.
  intros Hs Hc Hnan Hn c'.
  destruct (@normalize_normals_ok _ (Float.scalar prec emax) t eps _ _ _ _ Hs)
    as (out' & Hn' & _ & Hget).
  rewrite Hn in Hn'. injection Hn' as <-. rewrite Hget.
  assert (Hnorm : @norm _ (Float.scalar prec emax) (pixel t n i j) = S754_nan).
  { unfold norm.
    rewrite (@sqnorm_nan (pixel t n i j) (get t [n; c; i; j])); auto.
    unfold pixel. rewrite Hs. cbn [nth].
    apply (in_map (fun c => get t [n; c; i; j])). apply in_seq. lia. }
  rewrite Hnorm. unfold clamp_min. cbn [flt fdiv Float.scalar].
  destruct (get t [n; c'; i; j]); reflexivity.
Qed.

(** X18: in floating point, whatever the format, with a positive finite
    floor, a pixel of zeros stays a pixel of zeros, each with its sign. *)
Theorem normalize_normals_keeps_zero (t out : tensor spec_float)
    (m : positive) (e : Z) (N H W n i j : nat) (s0 s1 s2 : bool) :
  shape t = [N; 3; H; W] ->
  get t [n; 0; i; j] = S754_zero s0 ->
  get t [n; 1; i; j] = S754_zero s1 ->
  get t [n; 2; i; j] = S754_zero s2 ->
  @normalize_normals _ (Float.scalar prec emax) t (S754_finite false m e)
    = Ok out ->
  get out [n; 0; i; j] = S754_zero s0 /\
  get out [n; 1; i; j] = S754_zero s1 /\
  get out [n; 2; i; j] = S754_zero s2.
Proof.
  intros Hs H0 H1 H2 Hn.
  destruct (@normalize_normals_ok _ (Float.scalar prec emax) t
              (S754_finite false m e) _ _ _ _ Hs)
    as (out' & Hn' & _ & Hget).
  rewrite Hn in Hn'. injection Hn' as <-. rewrite !Hget.
  rewrite (pixel_3 t n i j Hs), H0, H1, H2.
  destruct s0, s1, s2; repeat split; reflexivity.
Qed.
End FloatNormalize.

Lemma normalize_normals_spreads_nan_witness :
  exists out,
    @normalize_normals _ (Float.scalar 24 128)
      (one_pixel (S754_zero false) S754_nan one)
      (@eps_default _ Float.binary32) = Ok out /\
    forall c', get out [0; c'; 0; 0] = S754_nan.
Proof.
  eexists. split; [reflexivity|].
  apply (@normalize_normals_spreads_nan 24 128
           (one_pixel (S754_zero false) S754_nan one) _
           (@eps_default _ Float.binary32) 1 1 1 0 1 0 0);
    [reflexivity | lia | reflexivity | reflexivity].
Defined.

Lemma normalize_normals_keeps_zero_witness :
  exists out,
    @normalize_normals _ (Float.scalar 24 128)
      (one_pixel (S754_zero false) (S754_zero true) (S754_zero false))
      (S754_finite false 8796093 (-43)) = Ok out /\
    get out [0; 0; 0; 0] = S754_zero false /\
    get out [0; 1; 0; 0] = S754_zero true /\
    get out [0; 2; 0; 0] = S754_zero false.
Proof.
  eexists. split; [reflexivity|].
  apply (@normalize_normals_keeps_zero 24 128
           (one_pixel (S754_zero false) (S754_zero true) (S754_zero false)) _
           8796093 (-43) 1 1 1 0 0 0 false true false);
    reflexivity.
Defined.

(** ** Post-processing *)

Lemma for_each_spec {A B} (f : A -> result B) (l : list A) (ys : list B) :
  for_each f l = Ok ys -> Forall2 (fun x y => f x = Ok y) l ys.
Proof.
  revert ys. induction l as [|x l IH]; intros ys; cbn [for_each].
  - intros [= <-]. constructor.
  - destruct (f x) as [y|e] eqn:Hx; cbn [bind]; [|discriminate].
    destruct (for_each f l) as [ys'|e]; cbn [bind]; [|discriminate].
    intros [= <-]. constructor; auto.
Qed.


Lemma for_each_build {A B} (f : A -> result B) (P : A -> B -> Prop)
    (l : list A) :
  (forall x, In x l -> exists y, f x = Ok y /\ P x y) ->
  exists ys, for_each f l = Ok ys /\ Forall2 P l ys.
Proof.
  induction l as [|x l IH]; intros Hall; cbn [for_each].
  - exists []. split; [reflexivity|constructor].
  - destruct (Hall x (or_introl eq_refl)) as (y & -> & Hy).
    destruct IH as (ys & -> & Hys); [intros z Hz; apply Hall; now right|].
    cbn [bind]. exists (y :: ys). split; [reflexivity|now constructor].
Qed.

Lemma Forall2_at {A B} (P : A -> B -> Prop) (l : list A) (ys : list B)
    (i : nat) (a : A) (b : B) :
  Forall2 P l ys -> i < length l -> P (nth i l a) (nth i ys b).
Proof.
  intros HF. revert i. induction HF as [|x y l ys Hxy HF IH]; intros i Hi;
    cbn [length] in Hi; [lia|].
  destruct i as [|i]; cbn [nth]; [exact Hxy|]. apply IH. lia.
Qed.

Lemma Forall2_in_right {A B} (P : A -> B -> Prop) (l : list A)
    (ys : list B) (y : B) :
  Forall2 P l ys -> In y ys -> exists x, In x l /\ P x y.
Proof.
  induction 1 as [|x y' l ys Hxy HF IH]; intros Hin; [destruct Hin|].
  destruct Hin as [<-|Hin].
  - exists x. split; [now left|exact Hxy].
  - destruct (IH Hin) as (x' & Hx' & HP). exists x'. split; [now right|exact HP].
Qed.

Lemma Forall2_same_length {A B} (P : A -> B -> Prop) (l : list A)
    (ys : list B) :
  Forall2 P l ys -> length ys = length l.
Proof. induction 1; cbn [length]; congruence. Qed.

Lemma shape_eqb_refl (s : list Z) : shape_eqb s s = true.
Proof.
  induction s as [|x s IH]; cbn [shape_eqb]; [reflexivity|].
  now rewrite Z.eqb_refl, IH.
Qed.

Lemma cat_get_units {T} (ts : list (tensor T)) (s r : list nat) (i : nat)
    (dflt : T) (d : tensor T) :
  Forall (fun t => shape t = 1 :: s) ts -> i < length ts ->
  cat_get ts i r dflt = get (nth i ts d) (0 :: r).
Proof.
  intros HF. revert i. induction HF as [|t ts Ht HF IH]; intros i Hi;
    cbn [length] in Hi; [lia|].
  cbn [cat_get]. rewrite Ht. cbn [hd].
  destruct i as [|i]; cbn [Nat.ltb Nat.leb nth]; [reflexivity|].
  replace (S i - 1) with i by lia. apply IH. lia.
Qed.

(** [torch.cat] of one-row tensors stacks them. *)
Lemma cat_dim0_units {T} (ts : list (tensor T)) (s : list nat) :
  ts <> [] -> Forall (fun t => shape t = 1 :: s) ts ->
  exists out,
    cat_dim0 ts = Ok out /\ shape out = length ts :: s /\
    forall i r d, i < length ts -> get out (i :: r) = get (nth i ts d) (0 :: r).
Proof.
  intros Hne HF. destruct ts as [|t ts']; [congruence|].
  unfold cat_dim0.
  assert (Hall : forallb
            (fun u => shape_eqb (map Z.of_nat (tl (shape u)))
                        (map Z.of_nat (tl (shape t)))) ts' = true).
  { apply forallb_forall. intros u Hu.
    rewrite Forall_forall in HF.
    rewrite (HF u (or_intror Hu)), (HF t (or_introl eq_refl)).
    apply shape_eqb_refl. }
  rewrite Hall. eexists. split; [reflexivity|]. cbn [shape get]. split.
  - f_equal.
    + clear Hall Hne. induction HF as [|u us Hu HF IH]; [reflexivity|].
      cbn [fold_right length]. rewrite Hu, IH. reflexivity.
    + inversion HF as [|? ? Ht _]; subst. rewrite Ht. reflexivity.
  - intros i r d Hi. now apply cat_get_units with (s := s).
Qed.

Section PostprocessFacts.
Context {T : Type} {scalar : Scalar T}.
Variable resample : tensor T -> nat * nat -> string -> bool -> list nat -> T.
Variable arccos : T -> T.
Variable pi : T.

Lemma resize_antialias_shape (image out : tensor T) (size : Z * Z)
    (mode : string) (aa : option bool) :
  resize_antialias resample image size mode aa = Ok out ->
  exists n c h w,
    shape image = [n; c; h; w] /\
    shape out = [n; c; Z.to_nat (fst size); Z.to_nat (snd size)] /\
    (0 < fst size)%Z /\ (0 < snd size)%Z.
Proof.
  unfold resize_antialias, dim, F_interpolate.
  destruct (shape image) as [|n [|c [|h [|w [|? ?]]]]] eqn:Hs; cbn [length];
    try discriminate.
  destruct aa as [aa|]; [|discriminate].
  destruct size as [nh nw].
  destruct (negb _); [discriminate|].
  destruct (h =? 0), (w =? 0); cbn [orb]; try discriminate.
  destruct (Z.leb_spec nh 0); cbn [orb]; [discriminate|].
  destruct (Z.leb_spec nw 0); cbn [orb]; [discriminate|].
  intros [= <-]. exists n, c, h, w. cbn [shape fst snd]. auto.
Qed.

(** The ensembling of a call that returns: one result per image, with its
    uncertainty. *)
Lemma postprocess_inv (prediction : tensor T)
    (padding : Z * Z) (num_images : nat) (ensemble_size : Z)
    (kwargs : option py_kwargs) (unc match_input_resolution : bool)
    (original_resolution : list nat) (mode : string)
    (out : tensor T) (u : option (tensor T)) :
  postprocess resample arccos pi prediction padding num_images ensemble_size
    kwargs unc match_input_resolution original_resolution mode = Ok (out, u) ->
  if (ensemble_size >? 1)%Z
  then unc = true /\ exists t, u = Some t
  else u = None.
Proof.
  unfold postprocess.
  destruct (unpad_image prediction padding) as [p|e]; cbn [bind];
    [|discriminate].
  destruct (ensemble_size >? 1)%Z.
  - destruct (negb _); cbn [bind]; [discriminate|].
    destruct (for_each _ (seq 0 num_images)) as [results|e] eqn:Hres;
      cbn [bind]; [|discriminate].
    apply for_each_spec in Hres.
    destruct results as [|[out0 u0] results]; [discriminate|].
    inversion Hres as [|i0 y l0 l1 Hfirst Hrest Hl Hy]; subst.
    destruct (ensembling_reduction kwargs) as [reduction|e];
      cbn [bind] in Hfirst; [|discriminate].
    destruct (ensemble_normals_only_if _ _ _ _ _ Hfirst)
      as (E & H & W & Hs & Hred).
    destruct (ensemble_normals_if arccos pi _ unc Hs Hred)
      as (out' & u' & Hr' & _ & _ & Hu).
    rewrite Hfirst in Hr'. injection Hr' as _ <-.
    destruct unc.
    + destruct (cat_dim0 (map fst _)) as [c|e]; cbn [bind]; [|discriminate].
      destruct (for_each _ (map snd _)) as [us|e]; cbn [bind]; [|discriminate].
      destruct (cat_dim0 us) as [cu|e]; cbn [bind]; [|discriminate].
      destruct match_input_resolution; [|intros [= _ <-]; eauto].
      destruct (size_of _) as [size|e]; cbn [bind]; [|discriminate].
      destruct (resize_antialias _ c _ _ _) as [c'|e]; cbn [bind];
        [|discriminate].
      destruct (normalize_normals _ _) as [c''|e]; cbn [bind]; [|discriminate].
      destruct (resize_antialias _ cu _ _ _) as [cu'|e]; cbn [bind];
        [|discriminate].
      intros [= _ <-]. eauto.
    + subst u0. cbn [map fst snd for_each bind].
      destruct (cat_dim0 _) as [c|e]; cbn [bind]; discriminate.
  - cbn [bind].
    destruct match_input_resolution; [|intros [= _ <-]; reflexivity].
    destruct (size_of _) as [size|e]; cbn [bind]; [|discriminate].
    destruct (resize_antialias _ p _ _ _) as [c'|e]; cbn [bind];
      [|discriminate].
    destruct (normalize_normals _ _) as [c''|e]; cbn [bind]; [|discriminate].
    intros [= _ <-]. reflexivity.
Qed.

(** X19: with more than one ensemble member and [output_uncertainty=False]
    the post-processing never returns: each call of [ensemble_normals]
    yields [None] as uncertainty, and [torch.cat] over them raises. *)
Theorem postprocess_needs_uncertainty (prediction : tensor T)
    (padding : Z * Z) (num_images : nat) (ensemble_size : Z)
    (kwargs : option py_kwargs) (match_input_resolution : bool)
    (original_resolution : list nat) (mode : string)
    (r : tensor T * option (tensor T)) :
  (1 < ensemble_size)%Z ->
  postprocess resample arccos pi prediction padding num_images ensemble_size
    kwargs false match_input_resolution original_resolution mode <> Ok r.
Proof.
  intros HE Hr. destruct r as [out u]. apply postprocess_inv in Hr.
  destruct (Z.gtb_spec ensemble_size 1); [|lia].
  destruct Hr as [Hr _]. discriminate.
Qed.

(** X20: when the post-processing returns, the uncertainty is [None]
    exactly for a single ensemble member. *)
Theorem postprocess_uncertainty (prediction : tensor T)
    (padding : Z * Z) (num_images : nat) (ensemble_size : Z)
    (kwargs : option py_kwargs) (unc match_input_resolution : bool)
    (original_resolution : list nat) (mode : string)
    (out : tensor T) (u : option (tensor T)) :
  postprocess resample arccos pi prediction padding num_images ensemble_size
    kwargs unc match_input_resolution original_resolution mode = Ok (out, u) ->
  (u = None <-> (ensemble_size <= 1)%Z).
Proof.
  intros Hr. apply postprocess_inv in Hr.
  destruct (Z.gtb_spec ensemble_size 1) as [HE|HE].
  - destruct Hr as (_ & t & ->). split; [discriminate|lia].
  - split; auto.
Qed.

(** X21: with [match_input_resolution] set, the prediction the
    post-processing returns has the original resolution as height and
    width, and so has the uncertainty when there is one. *)
Theorem postprocess_matches_resolution (prediction : tensor T)
    (padding : Z * Z) (num_images : nat) (ensemble_size : Z)
    (kwargs : option py_kwargs) (unc : bool)
    (H W : nat) (mode : string)
    (out : tensor T) (u : option (tensor T)) :
  postprocess resample arccos pi prediction padding num_images ensemble_size
    kwargs unc true [H; W] mode = Ok (out, u) ->
  (exists n c, shape out = [n; c; H; W]) /\
  (forall t, u = Some t -> exists n c, shape t = [n; c; H; W]).
Proof.
  intros Hr.
  pose proof (postprocess_inv _ _ _ _ _ _ _ _ _ Hr) as Hu.
  revert Hr. unfold postprocess.
  destruct (unpad_image prediction padding) as [p|e]; cbn [bind];
    [|discriminate].
  match goal with
  | |- bind ?x _ = _ -> _ => destruct x as [[p1 u1]|e]
  end; cbn [bind size_of]; [|discriminate].
  destruct (resize_antialias _ p1 _ _ _) as [p2|e] eqn:Hrs; cbn [bind];
    [|discriminate].
  destruct (resize_antialias_shape _ _ _ _ Hrs)
    as (n & c & h & w & Hs1 & Hs2 & _).
  cbn [fst snd] in Hs2. rewrite !Nat2Z.id in Hs2.
  destruct (normalize_normals_ok p2 eps_default Hs2) as (p3 & Hn & Hs3 & _).
  rewrite Hn. cbn [bind].
  destruct u1 as [t1|]; cbn [bind].
  - destruct unc.
    + destruct (resize_antialias _ t1 _ _ _) as [t2|e] eqn:Hru; cbn [bind];
        [|discriminate].
      destruct (resize_antialias_shape _ _ _ _ Hru)
        as (n' & c' & h' & w' & _ & Hsu & _).
      cbn [fst snd] in Hsu. rewrite !Nat2Z.id in Hsu.
      intros [= <- <-]. split; [eauto|].
      intros t [= <-]. eauto.
    + intros [= <- <-]. destruct (ensemble_size >? 1)%Z.
      * destruct Hu as [Hu _]. discriminate.
      * discriminate.
  - intros [= <- <-]. split; [eauto|]. intros t Ht. discriminate.
Qed.

Lemma argmax_from_bound (l : list T) (best : nat) (v : T) (k : nat) :
  best < k -> argmax_from best v k l < k + length l.
Proof.
  revert best v k. induction l as [|x l IH]; intros best v k Hb;
    cbn [argmax_from length]; [lia|].
  destruct (greater x v).
  - specialize (IH k x (S k)). lia.
  - specialize (IH best v (S k)). lia.
Qed.

Lemma argmax_bound (l : list T) : l <> [] -> argmax l < length l.
Proof.
  destruct l as [|x l]; [congruence|]. intros _. cbn [argmax length].
  apply (argmax_from_bound l x (k := 1)). lia.
Qed.

Lemma image_samples_pixel (p : tensor T) (E i e h w : nat) :
  pixel (image_samples p E i) e h w = pixel p (i * E + e) h w.
Proof.
  unfold pixel, image_samples. cbn [shape get].
  destruct (shape p) as [|b [|c l]]; reflexivity.
Qed.

(** X22: with the default "closest" reduction and without the final resize,
    every pixel of the normals returned for image [i] is the pixel of one
    of the [E] samples predicted for that image, rows [i*E .. i*E+E-1] of
    the unpadded prediction. *)
Theorem postprocess_closest_picks_sample (prediction p : tensor T)
    (padding : Z * Z) (N E H W : nat) (kwargs : option py_kwargs)
    (original_resolution : list nat) (mode : string) :
  unpad_image prediction padding = Ok p ->
  shape p = [N * E; 3; H; W] ->
  0 < N -> 1 < E ->
  ensembling_reduction kwargs = Ok "closest"%string ->
  exists out u,
    postprocess resample arccos pi prediction padding N (Z.of_nat E) kwargs
      true false original_resolution mode = Ok (out, Some u) /\
    shape out = [N; 3; H; W] /\
    shape u = [N; 1; H; W] /\
    forall i h w, i < N ->
      exists e, e < E /\ pixel out i h w = pixel p (i * E + e) h w.
Proof.
  intros Hunpad Hs HN HE Hred. unfold postprocess.
  rewrite Hunpad. cbn [bind].
  destruct (Z.gtb_spec (Z.of_nat E) 1) as [_|Hle]; [|lia].
  assert (Hnum : (Z.of_nat (fold_right Nat.mul 1%nat (shape p))
                  =? Z.of_nat N * Z.of_nat E
                     * Z.of_nat (fold_right Nat.mul 1%nat (tl (shape p))))%Z
                 = true).
  { rewrite Hs. cbn [fold_right tl]. apply Z.eqb_eq.
    rewrite <- !Nat2Z.inj_mul. reflexivity. }
  rewrite Hnum, Hred, Nat2Z.id. cbn [negb bind].
  set (f := fun i : nat => ensemble_normals arccos pi (image_samples p E i)
                             true "closest").
  destruct (for_each_build f
              (fun i r =>
                 shape (fst r) = [1; 3; H; W] /\
                 (exists t, snd r = Some t /\ shape t = [1; 1; H; W]) /\
                 forall h w, exists e,
                   e < E /\ pixel (fst r) 0 h w = pixel p (i * E + e) h w)
              (seq 0 N)) as (results & Hres & HF).
  { intros i _. unfold f.
    assert (Hsi : shape (image_samples p E i) = [E; 3; H; W]).
    { unfold image_samples. cbn [shape]. rewrite Hs. reflexivity. }
    destruct (ensemble_closest_result arccos pi _ true Hsi)
      as (o & u & mn & Hr & _ & Hso & Hpix); [lia|].
    destruct (ensemble_normals_if arccos pi _ true Hsi
                (or_intror (conj eq_refl (Nat.lt_trans _ _ _ Nat.lt_0_1 HE))))
      as (o' & u' & Hr' & _ & _ & t & -> & Hst).
    rewrite Hr in Hr'. injection Hr' as <- ->.
    eexists. split; [exact Hr|]. cbn [fst snd].
    split; [exact Hso|]. split; [eauto|].
    intros h w. eexists. split; [|rewrite Hpix; apply image_samples_pixel].
    match goal with
    | |- argmax ?l < _ =>
        replace E with (length l) at 2
          by (now rewrite length_map, length_seq);
        apply argmax_bound
    end.
    destruct E; [lia|]. discriminate. }
  rewrite Hres. cbn [bind].
  pose proof (Forall2_same_length HF) as Hlen. rewrite length_seq in Hlen.
  destruct results as [|r0 rs] eqn:Hrs; [cbn [length] in Hlen; lia|].
  rewrite <- Hrs in *. clear Hrs r0 rs.
  destruct (@cat_dim0_units T (map fst results) [3; H; W])
    as (out & Hout & Hso & Hget).
  { intros Hnil. apply (f_equal (@length _)) in Hnil.
    rewrite length_map, Hlen in Hnil. cbn [length] in Hnil. lia. }
  { apply Forall_forall. intros t Ht. apply in_map_iff in Ht.
    destruct Ht as (r & <- & Hin).
    destruct (@Forall2_in_right _ _ _ _ _ _ HF Hin) as (i & _ & Hr & _).
    exact Hr. }
  rewrite Hout. cbn [bind].
  destruct (for_each_build
              (fun u : option (tensor T) =>
                 match u with Some t => Ok t | None => Raise TypeError end)
              (fun u t => u = Some t /\ shape t = [1; 1; H; W])
              (map snd results)) as (us & Hus & HFu).
  { intros u Hu. apply in_map_iff in Hu. destruct Hu as (r & <- & Hin).
    destruct (@Forall2_in_right _ _ _ _ _ _ HF Hin) as (i & _ & _ & (t & -> & Hst) & _).
    eauto. }
  rewrite Hus. cbn [bind].
  pose proof (Forall2_same_length HFu) as Hlenu.
  rewrite length_map, Hlen in Hlenu.
  destruct (@cat_dim0_units T us [1; H; W]) as (cu & Hcu & Hscu & _).
  { intros ->. cbn [length] in Hlenu. lia. }
  { apply Forall_forall. intros t Ht.
    destruct (@Forall2_in_right _ _ _ _ _ _ HFu Ht) as (u & _ & _ & Hst).
    exact Hst. }
  rewrite Hcu. cbn [bind].
  exists out, cu. split; [reflexivity|].
  rewrite Hso, Hscu, length_map, Hlen, Hlenu.
  split; [reflexivity|]. split; [reflexivity|].
  intros i h w Hi.
  assert (Hi' : i < length (seq 0 N)) by now rewrite length_seq.
  pose proof (Forall2_at 0 (out, None) HF Hi') as (Hsr & _ & Hpix).
  rewrite seq_nth in Hpix by exact Hi. cbn [Nat.add] in Hpix.
  destruct (Hpix h w) as (e & He & Hp).
  exists e. split; [exact He|]. rewrite <- Hp.
  unfold pixel. rewrite Hso, Hsr. cbn [nth].
  apply map_ext. intros c.
  rewrite (Hget i [c; h; w] out) by (now rewrite length_map, Hlen).
  f_equal. change out with (fst (out, @None (tensor T))) at 1.
  apply map_nth.
Qed.
End PostprocessFacts.

Lemma postprocess_needs_uncertainty_witness :
  ~ exists r,
      postprocess (scalar := Float.binary32) nearest no_arccos np_pi
        three_samples (0, 0)%Z 1 3 None false false [1; 1] "bilinear" = Ok r.
Proof.
  intros [r Hr].
  exact (@postprocess_needs_uncertainty spec_float Float.binary32 nearest
           no_arccos np_pi three_samples (0, 0)%Z 1 3 None false [1; 1]
           "bilinear"%string r ltac:(lia) Hr).
Defined.

Lemma postprocess_uncertainty_witness :
  exists out u,
    postprocess (scalar := Float.binary32) nearest no_arccos np_pi
      facing (0, 0)%Z 1 1 None false false [1; 1] "bilinear" = Ok (out, u) /\
    (u = None <-> (1 <= 1)%Z).
Proof.
  eexists _, _. split; [reflexivity|].
  exact (@postprocess_uncertainty spec_float Float.binary32 nearest
           no_arccos np_pi facing (0, 0)%Z 1 1 None false false [1; 1]
           "bilinear"%string _ _ eq_refl).
Defined.

Lemma postprocess_matches_resolution_witness :
  exists out u,
    postprocess (scalar := Float.binary32) nearest no_arccos np_pi
      facing (0, 0)%Z 1 1 None false true [2; 2] "bilinear" = Ok (out, u) /\
    (exists n c, shape out = [n; c; 2; 2]) /\
    (forall t, u = Some t -> exists n c, shape t = [n; c; 2; 2]).
Proof.
  eexists _, _. split; [reflexivity|].
  exact (@postprocess_matches_resolution spec_float Float.binary32 nearest
           no_arccos np_pi facing (0, 0)%Z 1 1 None false 2 2
           "bilinear"%string _ _ eq_refl).
Defined.

Lemma postprocess_closest_picks_sample_witness :
  exists out u,
    postprocess (scalar := Float.binary32) nearest no_arccos np_pi
      three_samples (0, 0)%Z 1 (Z.of_nat 3) None true false [1; 1] "bilinear"
      = Ok (out, Some u) /\
    shape out = [1; 3; 1; 1] /\
    shape u = [1; 1; 1; 1] /\
    forall i h w, i < 1 ->
      exists e, e < 3 /\ pixel out i h w = pixel three_samples (i * 3 + e) h w.
Proof.
  exact (@postprocess_closest_picks_sample spec_float Float.binary32 nearest
           no_arccos np_pi three_samples
           (mkTensor Float32 [1 * 3; 3; 1; 1] (get three_samples))
           (0, 0)%Z 1 3 1 1 None [1; 1] "bilinear"%string
           eq_refl eq_refl ltac:(lia) ltac:(lia) eq_refl).
Defined.

(** ** Decoding *)

Section FloatDecode.
Variables prec emax : Z.
Variable vae_decode : tensor spec_float -> tensor spec_float.
Variable latent_scaling_factor : spec_float.
Variable self : pipeline.

Lemma clip_nan (x lo hi : spec_float) :
  Float.is_nan x = true ->
  @clip _ (Float.scalar prec emax) x lo hi = S754_nan.
Proof.
  destruct x; try discriminate. intros _.
  unfold clip. cbn [flt Float.scalar]. destruct lo, hi; reflexivity.
Qed.

(** A NaN in one channel of a pixel makes the renormalized pixel NaN. *)
Lemma normalized_nan_pixel (t out : tensor spec_float) (eps : spec_float)
    (N H W n c i j : nat) :
  shape t = [N; 3; H; W] -> c < 3 ->
  Float.is_nan (get t [n; c; i; j]) = true ->
  @normalize_normals _ (Float.scalar prec emax) t eps = Ok out ->
  forall c', get out [n; c'; i; j] = S754_nan.
Proof.
  intros Hs Hc Hnan Hn c'.
  destruct (@normalize_normals_ok _ (Float.scalar prec emax) t eps _ _ _ _ Hs)
    as (out' & Hn' & _ & Hget).
  rewrite Hn in Hn'. injection Hn' as <-. rewrite Hget.
  assert (Hnorm : @norm _ (Float.scalar prec emax) (pixel t n i j) = S754_nan).
  { unfold norm.
    rewrite (@sqnorm_nan prec emax (pixel t n i j) (get t [n; c; i; j])); auto.
    unfold pixel. rewrite Hs. cbn [nth].
    apply (in_map (fun c => get t [n; c; i; j])). apply in_seq. lia. }
  rewrite Hnorm. unfold clamp_min. cbn [flt fdiv Float.scalar].
  destruct (get t [n; c'; i; j]); reflexivity.
Qed.

(** X24: in floating point, whatever the format, [decode_prediction] does
    not clean the decoder's output: a NaN in one channel of a pixel comes
    back as a NaN in every channel of that pixel, through the clipping, the
    shift of z and the renormalization. *)
Theorem decode_prediction_keeps_nan (pred_latent d : tensor spec_float)
    (B H W n c i j : nat) :
  @decode_image _ (Float.scalar prec emax) vae_decode latent_scaling_factor
    self pred_latent = Ok d ->
  shape d = [B; 3; H; W] -> c < 3 ->
  Float.is_nan (get d [n; c; i; j]) = true ->
  exists out,
    @decode_prediction _ (Float.scalar prec emax) (float_literals prec emax)
      vae_decode latent_scaling_factor self pred_latent = Ok out /\
    forall c', get out [n; c'; i; j] = S754_nan.
Proof.
  unfold decode_prediction, decode_image.
  destruct (shape pred_latent) as [|b [|c0 [|h [|w [|? ?]]]]]; try discriminate.
  destruct (negb _); [discriminate|].
  set (d0 := vae_decode _). intros [= <-] Hsd Hc Hnan.
  cbn [bind shape t_dtype]. rewrite Hsd.
  destruct (py_not (use_full_z_range self)); cbn [Nat.leb bind].
  - match goal with
    | |- exists out, normalize_normals ?t _ = _ /\ _ =>
        destruct (@normalize_normals_ok _ (Float.scalar prec emax) t
                    (@eps_default _ (Float.scalar prec emax)) B 3 H W eq_refl)
          as (out & Hn & _);
        exists out; split; [exact Hn|];
        apply (@normalized_nan_pixel t out
                 (@eps_default _ (Float.scalar prec emax)) B H W n c i j eq_refl
                 Hc); [|exact Hn]
    end.
    cbn [get]. rewrite (@clip_nan _ _ _ Hnan).
    destruct c as [|[|[|c]]]; [reflexivity|reflexivity|reflexivity|lia].
  - match goal with
    | |- exists out, normalize_normals ?t _ = _ /\ _ =>
        destruct (@normalize_normals_ok _ (Float.scalar prec emax) t
                    (@eps_default _ (Float.scalar prec emax)) B 3 H W eq_refl)
          as (out & Hn & _);
        exists out; split; [exact Hn|];
        apply (@normalized_nan_pixel t out
                 (@eps_default _ (Float.scalar prec emax)) B H W n c i j eq_refl
                 Hc); [|exact Hn]
    end.
    cbn [get]. rewrite (@clip_nan _ _ _ Hnan). reflexivity.
Qed.
End FloatDecode.

Lemma decode_prediction_keeps_nan_witness :
  exists out,
    @decode_prediction _ Float.binary32 (float_literals 24 128)
      (fun _ => one_pixel (S754_zero false) S754_nan one) scaling_factor
      sample_pipeline
      sample_latent = Ok out /\
    forall c', get out [0; c'; 0; 0] = S754_nan.
Proof.
  exact (@decode_prediction_keeps_nan 24 128
           (fun _ => one_pixel (S754_zero false) S754_nan one) scaling_factor
           sample_pipeline sample_latent
           (one_pixel (S754_zero false) S754_nan one) 1 1 1 0 1 0 0
           eq_refl eq_refl ltac:(lia) eq_refl).
Defined.

(** ** Batching *)

Section BatchingFacts.
Context {T : Type}.
Variable t : tensor T.
Variable s : nat.
Hypothesis s_pos : 0 < s.

Local Abbreviation batch k := (rows t (k * s) (k * s + s)).

Lemma cat_get_batches (r : list nat) (d : T) (m k0 a : nat) :
  k0 * s + a < hd 0 (shape t) -> hd 0 (shape t) <= (k0 + m) * s ->
  cat_get (map (fun k => batch k) (seq k0 m)) a r d
  = get t ((k0 * s + a) :: r).
Proof.
  revert k0 a. induction m as [|m IH]; intros k0 a Ha Hm.
  - rewrite Nat.add_0_r in Hm. lia.
  - cbn [seq map cat_get rows shape hd get].
    destruct (Nat.ltb_spec a
                (Nat.min (k0 * s + s) (hd 0 (shape t))
                 - Nat.min (k0 * s) (hd 0 (shape t)))) as [Hlt|Hge].
    + reflexivity.
    + rewrite IH.
      * f_equal. f_equal. cbn [Nat.mul]. lia.
      * cbn [Nat.mul]. lia.
      * replace (S k0 + m) with (k0 + S m) by lia. exact Hm.
Qed.

Lemma batches_rows (m k0 : nat) :
  fold_right (fun u n => hd 0 (shape u) + n) 0
    (map (fun k => batch k) (seq k0 m))
  = Nat.min ((k0 + m) * s) (hd 0 (shape t))
    - Nat.min (k0 * s) (hd 0 (shape t)).
Proof.
  revert k0. induction m as [|m IH]; intros k0.
  - rewrite Nat.add_0_r. cbn [seq map fold_right]. lia.
  - cbn [seq map fold_right rows shape hd]. rewrite IH.
    replace (S k0 + m) with (k0 + S m) by lia.
    assert (k0 * s + s = S k0 * s) as -> by (cbn [Nat.mul]; lia).
    assert (S k0 * s <= (k0 + S m) * s) by nia.
    assert (k0 * s <= S k0 * s) by nia.
    lia.
Qed.
End BatchingFacts.

(** [torch.cat] of tensors that agree beyond the first axis. *)
Lemma cat_dim0_ok {T} (ts : list (tensor T)) (rest : list nat) :
  ts <> [] -> Forall (fun u => tl (shape u) = rest) ts ->
  exists out,
    cat_dim0 ts = Ok out /\
    shape out = fold_right (fun u n => hd 0 (shape u) + n) 0 ts :: rest /\
    forall a r, exists d, get out (a :: r) = cat_get ts a r d.
Proof.
  intros Hne HF. destruct ts as [|t0 ts']; [congruence|].
  unfold cat_dim0.
  assert (Hall : forallb
            (fun u => shape_eqb (map Z.of_nat (tl (shape u)))
                        (map Z.of_nat (tl (shape t0)))) ts' = true).
  { apply forallb_forall. intros u Hu.
    rewrite Forall_forall in HF.
    rewrite (HF u (or_intror Hu)), (HF t0 (or_introl eq_refl)).
    apply shape_eqb_refl. }
  rewrite Hall. eexists. split; [reflexivity|]. cbn [shape get].
  inversion HF as [|? ? Ht _]; subst. split; [reflexivity|]. eauto.
Qed.

Lemma batch_count (B s : nat) :
  0 < s -> 0 < B ->
  ((B - 1) / s) * s < B /\ B <= ((B - 1) / s + 1) * s.
Proof.
  intros Hs HB.
  pose proof (Nat.div_mod_eq (B - 1) s) as Hdm.
  pose proof (Nat.mod_upper_bound (B - 1) s ltac:(lia)) as Hlt.
  nia.
Qed.

(** The batches of a tensor with at least one row. *)
Lemma batches_cat_parts {T} (t : tensor T) (batch_size : Z) (B : nat)
    (rest : list nat) :
  (1 <= batch_size)%Z -> shape t = B :: rest -> 0 < B ->
  exists bs,
    batches t batch_size = Some bs /\
    Forall (fun b => exists k, shape b = k :: rest /\ 1 <= k /\
                               (Z.of_nat k <= batch_size)%Z) bs /\
    bs <> [] /\
    fold_right (fun u n => hd 0 (shape u) + n) 0 bs = B /\
    forall a r d, a < B -> cat_get bs a r d = get t (a :: r).
Proof.
  intros Hbs Hs HB. unfold batches, py_range. rewrite Hs. cbn [hd].
  destruct (Z.eqb_spec batch_size 0) as [|_]; [lia|].
  destruct (Z.ltb_spec batch_size 0) as [|_]; [lia|].
  destruct (Nat.eqb_spec B 0) as [|_]; [lia|]. cbn [orb].
  set (s := Z.to_nat batch_size).
  assert (Hspos : 0 < s) by (unfold s; lia).
  assert (Hm : Z.to_nat ((Z.of_nat B - 1) / batch_size + 1) = (B - 1) / s + 1).
  { rewrite Z2Nat.inj_add, Z2Nat.inj_div by
      (try apply Z.div_pos; lia).
    unfold s. f_equal. f_equal. lia. }
  rewrite Hm, map_map.
  rewrite (map_ext _ (fun k => rows t (k * s) (k * s + s))).
  2:{ intros k. unfold s. f_equal.
      - rewrite Z2Nat.inj_mul, Nat2Z.id by lia. reflexivity.
      - rewrite Z2Nat.inj_add, Z2Nat.inj_mul, Nat2Z.id by lia. reflexivity. }
  destruct (batch_count Hspos HB) as [Hlo Hhi].
  set (m := (B - 1) / s + 1) in *.
  eexists. split; [reflexivity|]. split; [|split; [|split]].
  - apply Forall_forall. intros b Hb. apply in_map_iff in Hb.
    destruct Hb as (k & <- & Hk). apply in_seq in Hk.
    eexists. cbn [rows shape]. rewrite Hs. cbn [hd tl].
    split; [reflexivity|].
    assert (k * s <= ((B - 1) / s) * s) by (unfold m in Hk; nia).
    unfold s in *. lia.
  - unfold m. rewrite Nat.add_1_r. discriminate.
  - rewrite (@batches_rows T t s Hspos m 0), Hs. cbn [hd Nat.add Nat.mul]. lia.
  - intros a r d Ha.
    rewrite (@cat_get_batches T t s Hspos r d m 0 a);
      rewrite ?Hs; cbn [hd Nat.add Nat.mul]; [reflexivity|lia|lia].
Qed.

(** X25: with a batch size of at least 1 and at least one row, cutting a
    tensor into batches as [prepare_latent] and [__call__] do leaves no row
    out and repeats none: every batch has between 1 and [batch_size] rows,
    and [torch.cat] of the batches is the tensor again. *)
Theorem batches_cat_roundtrip {T} (t : tensor T) (batch_size : Z) (B : nat)
    (rest : list nat) :
  (1 <= batch_size)%Z -> shape t = B :: rest -> 0 < B ->
  exists bs out,
    batches t batch_size = Some bs /\
    Forall (fun b => exists k, shape b = k :: rest /\ 1 <= k /\
                               (Z.of_nat k <= batch_size)%Z) bs /\
    cat_dim0 bs = Ok out /\
    shape out = shape t /\
    forall a r, a < B -> get out (a :: r) = get t (a :: r).
Proof.
  intros Hbs Hs HB.
  destruct (batches_cat_parts t Hbs Hs HB)
    as (bs & Hb & HF & Hne & Hrows & Hget).
  destruct (@cat_dim0_ok T bs rest) as (out & Hout & Hso & Hg); [exact Hne| |].
  { apply Forall_forall. intros b Hin.
    rewrite Forall_forall in HF. destruct (HF b Hin) as (k & -> & _).
    reflexivity. }
  exists bs, out. split; [exact Hb|]. split; [exact HF|].
  split; [exact Hout|]. split; [now rewrite Hso, Hrows, Hs|].
  intros a r Ha. destruct (Hg a r) as (d & ->). now apply Hget.
Qed.

Lemma rows_total {T} (bs ys : list (tensor T)) :
  Forall2 (fun b y => hd 0 (shape y) = hd 0 (shape b)) bs ys ->
  fold_right (fun u n => hd 0 (shape u) + n) 0 ys
  = fold_right (fun u n => hd 0 (shape u) + n) 0 bs.
Proof.
  induction 1 as [|b y bs ys Hby HF IH]; cbn [fold_right]; [reflexivity|].
  now rewrite Hby, IH.
Qed.

(** X26: when the model applied to a batch keeps its number of rows and
    gives the same other axes for every batch, the concatenated result has
    as many rows as the input. *)
Theorem cat_batches_rows {T} (f : tensor T -> result (tensor T))
    (t : tensor T) (batch_size : Z) (B : nat) (rest rest' : list nat) :
  (1 <= batch_size)%Z -> shape t = B :: rest -> 0 < B ->
  (forall b k, shape b = k :: rest -> 1 <= k -> (Z.of_nat k <= batch_size)%Z ->
     exists y, f b = Ok y /\ shape y = k :: rest') ->
  exists out,
    cat_batches f t batch_size = Some (Ok out) /\ shape out = B :: rest'.
Proof.
  intros Hbs Hs HB Hf.
  destruct (batches_cat_parts t Hbs Hs HB) as (bs & Hb & HF & Hne & Hrows & _).
  unfold cat_batches. rewrite Hb.
  destruct (for_each_build f
              (fun b y => exists k, shape b = k :: rest /\ shape y = k :: rest')
              bs) as (ys & Hys & HF2).
  { intros b Hin. rewrite Forall_forall in HF.
    destruct (HF b Hin) as (k & Hk & H1 & H2).
    destruct (Hf b k Hk H1 H2) as (y & Hy & Hsy). eauto. }
  rewrite Hys. cbn [bind].
  destruct (@cat_dim0_ok T ys rest') as (out & Hout & Hso & _).
  { intros ->. inversion HF2; subst. congruence. }
  { apply Forall_forall. intros y Hy.
    destruct (@Forall2_in_right _ _ _ _ _ _ HF2 Hy) as (b & _ & k & _ & ->).
    reflexivity. }
  exists out. rewrite Hout. split; [reflexivity|].
  rewrite Hso. f_equal. rewrite <- Hrows.
  apply rows_total.
  eapply Forall2_impl; [|exact HF2].
  intros b y (k & -> & ->). reflexivity.
Qed.

(** X27: an input without rows gives no batch, and [torch.cat] of an empty
    list raises, whatever the model is. *)
Theorem cat_batches_of_nothing {T} (f : tensor T -> result (tensor T))
    (t : tensor T) (batch_size : Z) (rest : list nat) :
  (1 <= batch_size)%Z -> shape t = 0 :: rest ->
  cat_batches f t batch_size = Some (Raise RuntimeError).
Proof.
  intros Hbs Hs. unfold cat_batches, batches, py_range. rewrite Hs. cbn [hd].
  destruct (Z.eqb_spec batch_size 0) as [|_]; [lia|].
  rewrite orb_true_r. reflexivity.
Qed.

(** X28: [prepare_latent] repeats the latent of each image [E] times in a
    row, and step 7 of [__call__] groups the rows by [E]: the [E] members
    of the group of image [i] all come from row [i] of the encoded batch. *)
Theorem ensemble_members_share_image {T} (t : tensor T) (E i e : nat)
    (r : list nat) :
  e < E ->
  shape (image_samples (repeat_interleave t E) E i) = E :: tl (shape t) /\
  get (image_samples (repeat_interleave t E) E i) (e :: r) = get t (i :: r).
Proof.
  intros He. split; [reflexivity|].
  cbn [image_samples repeat_interleave get].
  rewrite Nat.div_add_l, Nat.div_small by lia.
  now rewrite Nat.add_0_r.
Qed.

Lemma batches_cat_roundtrip_witness :
  exists bs out,
    batches three_samples 2 = Some bs /\
    Forall (fun b => exists k, shape b = [k; 3; 1; 1] /\ 1 <= k /\
                               (Z.of_nat k <= 2)%Z) bs /\
    cat_dim0 bs = Ok out /\
    shape out = shape three_samples /\
    forall a r, a < 3 -> get out (a :: r) = get three_samples (a :: r).
Proof.
  exact (@batches_cat_roundtrip _ three_samples 2 3 [3; 1; 1]
           ltac:(lia) eq_refl ltac:(lia)).
Defined.

Lemma cat_batches_rows_witness :
  exists out,
    cat_batches (@Ok _) three_samples 2 = Some (Ok out) /\
    shape out = [3; 3; 1; 1].
Proof.
  apply (@cat_batches_rows _ (@Ok _) three_samples 2 3 [3; 1; 1] [3; 1; 1]);
    [lia | reflexivity | lia |].
  intros b k Hb _ _. exists b. split; [reflexivity|exact Hb].
Defined.

Lemma cat_batches_of_nothing_witness :
  cat_batches (@Ok _)
    (mkTensor Float32 [0; 3; 1; 1] (fun _ => S754_zero false)) 2
  = Some (Raise RuntimeError).
Proof.
  exact (@cat_batches_of_nothing _ (@Ok _)
           (mkTensor Float32 [0; 3; 1; 1] (fun _ => S754_zero false)) 2
           [3; 1; 1] ltac:(lia) eq_refl).
Defined.

Lemma ensemble_members_share_image_witness :
  shape (image_samples (repeat_interleave three_samples 2) 2 1)
    = 2 :: tl (shape three_samples) /\
  get (image_samples (repeat_interleave three_samples 2) 2 1) [1; 2; 0; 0]
    = get three_samples [1; 2; 0; 0].
Proof.
  exact (@ensemble_members_share_image _ three_samples 2 1 1 [2; 0; 0]
           ltac:(lia)).
Defined.

(** ** Validation and model invocations *)

Lemma quiet_ok {A} (a : A) : quiet (Ok a).
Proof. intros e. discriminate. Qed.

Lemma quiet_raise {A} (e : exn) : validation_error e = false -> quiet (@Raise A e).
Proof. intros He e' [= <-]. exact He. Qed.

Lemma quiet_bind {A B} (r : result A) (k : A -> result B) :
  quiet r -> (forall a, quiet (k a)) -> quiet (bind r k).
Proof.
  intros Hr Hk. destruct r as [a|e0]; cbn [bind]; [apply Hk|].
  intros e [= <-]. now apply Hr.
Qed.

Lemma quiet_for_each {A B} (f : A -> result B) (l : list A) :
  (forall x, quiet (f x)) -> quiet (for_each f l).
Proof.
  intros Hf. induction l as [|x l IH]; cbn [for_each]; [apply quiet_ok|].
  apply quiet_bind; [apply Hf|]. intros y.
  apply quiet_bind; [exact IH|]. intros ys. apply quiet_ok.
Qed.

Ltac quiet_step :=
  match goal with
  | |- quiet (Ok _) => apply quiet_ok
  | |- quiet (Raise _) => apply quiet_raise; reflexivity
  | |- quiet (bind _ _) => apply quiet_bind; [|intros]
  | |- quiet (for_each _ _) => apply quiet_for_each; intros
  | |- quiet (if ?b then _ else _) => destruct b
  | |- quiet (match ?x with _ => _ end) => destruct x
  | |- quiet (let '(_, _) := ?x in _) => destruct x
  end.

Lemma quiet_cat_dim0 {T} (ts : list (tensor T)) : quiet (cat_dim0 ts).
Proof. unfold cat_dim0. repeat quiet_step. Qed.

Lemma quiet_cat2_dim1 {T} (a b : tensor T) : quiet (cat2_dim1 a b).
Proof. unfold cat2_dim1. repeat quiet_step. Qed.

Lemma quiet_repeat_first {T} (t : tensor T) (n : Z) : quiet (repeat_first t n).
Proof. unfold repeat_first. repeat quiet_step. Qed.

Lemma quiet_image_hwc {T} (t : tensor T) (i : nat) : quiet (image_hwc t i).
Proof. unfold image_hwc. repeat quiet_step. Qed.

Lemma quiet_encode_image (prec emax : Z)
    (vae : tensor spec_float -> tensor spec_float) (k : spec_float)
    (x : tensor spec_float) :
  quiet (encode_image prec emax vae k x).
Proof. unfold encode_image. repeat quiet_step. Qed.

Lemma quiet_normalize_normals {T} {scalar : Scalar T} (t : tensor T) (eps : T) :
  quiet (normalize_normals t eps).
Proof. unfold normalize_normals. repeat quiet_step. Qed.

Lemma quiet_resize_antialias {T}
    (resample : tensor T -> nat * nat -> string -> bool -> list nat -> T)
    (t : tensor T) (size : Z * Z) (mode : string) (aa : option bool) :
  quiet (resize_antialias resample t size mode aa).
Proof. unfold resize_antialias, F_interpolate. repeat quiet_step. Qed.

Lemma quiet_unpad_image {T} (t : tensor T) (padding : Z * Z) :
  quiet (unpad_image t padding).
Proof. unfold unpad_image. repeat quiet_step. Qed.

Lemma quiet_ensemble_normals {T} {scalar : Scalar T} (arccos : T -> T) (pi : T)
    (t : tensor T) (unc : bool) (reduction : string) :
  quiet (ensemble_normals arccos pi t unc reduction).
Proof.
  unfold ensemble_normals.
  repeat first [apply quiet_normalize_normals | quiet_step].
Qed.

Lemma quiet_decode_prediction {T} {scalar : Scalar T} {literals : Literals T}
    (vae : tensor T -> tensor T) (k : T) (self : pipeline) (x : tensor T) :
  quiet (decode_prediction vae k self x).
Proof.
  unfold decode_prediction, decode_image.
  repeat first [apply quiet_normalize_normals | quiet_step].
Qed.

Lemma quiet_postprocess {T} {scalar : Scalar T}
    (resample : tensor T -> nat * nat -> string -> bool -> list nat -> T)
    (arccos : T -> T) (pi : T) (prediction : tensor T) (padding : Z * Z)
    (num_images : nat) (ensemble_size : Z) (kwargs : option py_kwargs)
    (unc match_input_resolution : bool) (original_resolution : list nat)
    (mode : string) :
  quiet (postprocess resample arccos pi prediction padding num_images
           ensemble_size kwargs unc match_input_resolution
           original_resolution mode).
Proof.
  unfold postprocess, ensembling_reduction, size_of.
  repeat first [ apply quiet_unpad_image | apply quiet_cat_dim0
               | apply quiet_ensemble_normals | apply quiet_resize_antialias
               | apply quiet_normalize_normals | quiet_step ].
Qed.

Section CallFacts.
Variable resample :
  tensor spec_float -> nat * nat -> string -> bool -> list nat -> spec_float.
Variables S Timestep V : Type.
Variable text_encoder_output : tensor spec_float.
Variable vae_encode_mean : tensor spec_float -> tensor spec_float.
Variable vae_decode : tensor spec_float -> tensor spec_float.
Variable latent_scaling_factor : spec_float.
Variable unet :
  tensor spec_float -> Timestep -> tensor spec_float -> tensor spec_float.
Variable set_timesteps : S -> option Z -> S.
Variable timesteps : S -> list Timestep.
Variable scheduler_step :
  S -> tensor spec_float -> Timestep -> tensor spec_float ->
  option py_generator -> S * tensor spec_float.
Variable randn_tensor :
  S -> list nat -> option py_generator -> dtype -> S * tensor spec_float.
Variable visualize_normals : tensor spec_float -> option py_kwargs -> V.
Variable arccos : spec_float -> spec_float.
Variable pi : spec_float.

Lemma late_ret {A} (a : A) : late (@ret S A a).
Proof.
  intros s. cbn. split; [reflexivity|]. split; [|apply quiet_ok].
  exists []. now rewrite app_nil_r.
Qed.

Lemma late_lift {A} (r : result A) : quiet r -> late (@lift S A r).
Proof.
  intros Hr s. cbn. split; [reflexivity|]. split; [|exact Hr].
  exists []. now rewrite app_nil_r.
Qed.

Lemma late_bind {A B} (m : M S A) (k : A -> M S B) :
  late m -> (forall a, late (k a)) -> late (bindM m k).
Proof.
  intros Hm Hk s. unfold bindM.
  destruct (Hm s) as (Hself & (added & Hinv & Hadded) & Hq).
  destruct (m s) as [s' [a|e]]; cbn [fst snd] in *.
  - destruct (Hk a s') as (Hself' & (added' & Hinv' & Hadded') & Hq').
    split; [congruence|]. split; [|exact Hq'].
    exists (added ++ added'). rewrite Hinv', Hinv, app_assoc.
    split; [reflexivity|]. rewrite forallb_app, Hadded, Hadded'. reflexivity.
  - split; [exact Hself|]. split; [eauto|].
    intros e' [= <-]. now apply Hq.
Qed.

Lemma late_invoke (c : collaborator) :
  is_model c = true -> late (@invoke S c).
Proof.
  intros Hc s. cbn. split; [reflexivity|]. split; [|apply quiet_ok].
  exists [c]. cbn. now rewrite Hc.
Qed.

Lemma late_with_world {A} (f : S -> S * A) : late (with_world f).
Proof.
  intros s. unfold with_world. destruct (f (st_world s)) as [w a]. cbn.
  split; [reflexivity|]. split; [|apply quiet_ok].
  exists []. now rewrite app_nil_r.
Qed.

Lemma late_get_self : late (@get_self S).
Proof.
  intros s. cbn. split; [reflexivity|]. split; [|apply quiet_ok].
  exists []. now rewrite app_nil_r.
Qed.

Lemma late_for_each {A B} (f : A -> M S B) (l : list A) :
  (forall x, late (f x)) -> late (for_eachM f l).
Proof.
  intros Hf. induction l as [|x l IH]; cbn [for_eachM]; [apply late_ret|].
  apply late_bind; [apply Hf|]. intros y.
  apply late_bind; [exact IH|]. intros ys. apply late_ret.
Qed.

Lemma late_range (stop : nat) (step : Z) : late (@range S stop step).
Proof.
  unfold range. destruct (py_range stop step); [apply late_ret|].
  apply late_lift, quiet_raise. reflexivity.
Qed.

Ltac late_step :=
  match goal with
  | |- late (ret _) => apply late_ret
  | |- late (bindM _ _) => apply late_bind; [|intros]
  | |- late (invoke _) => apply late_invoke; reflexivity
  | |- late (with_world _) => apply late_with_world
  | |- late (@get_self _) => apply late_get_self
  | |- late (range _ _) => apply late_range
  | |- late (for_eachM _ _) => apply late_for_each; intros
  | |- late (lift _) => apply late_lift
  | |- late (if ?b then _ else _) => destruct b
  | |- late (match ?x with _ => _ end) => destruct x
  | |- late (let '(_, _) := ?x in _) => destruct x
  | |- late _ => progress cbv zeta
  end.

Ltac quiet_known :=
  first [ apply quiet_cat_dim0 | apply quiet_cat2_dim1
        | apply quiet_repeat_first | apply quiet_image_hwc
        | apply quiet_encode_image | apply quiet_decode_prediction
        | apply quiet_postprocess | quiet_step ].

Lemma late_encode_batch (self : pipeline) (x : tensor spec_float) :
  late (@encode_batch S vae_encode_mean latent_scaling_factor self x).
Proof. unfold encode_batch. repeat first [late_step | quiet_known]. Qed.

Lemma late_prepare_latent (self : pipeline) (image : tensor spec_float)
    (input_latent : option py_latent) (generator : option py_generator)
    (ensemble_size batch_size : Z) :
  late (prepare_latent vae_encode_mean latent_scaling_factor randn_tensor self
          image input_latent generator ensemble_size batch_size).
Proof.
  unfold prepare_latent.
  repeat first [apply late_encode_batch | late_step | quiet_known].
Qed.

Lemma late_denoise (ts : list Timestep) (img pred emb : tensor spec_float)
    (generator : option py_generator) :
  late (denoise unet scheduler_step ts img pred emb generator).
Proof.
  revert pred. induction ts as [|t ts IH]; intros pred; cbn [denoise].
  - apply late_ret.
  - repeat first [apply IH | late_step | quiet_known].
Qed.

Lemma late_denoising_loop (image_latent pred_latent : tensor spec_float)
    (num_images : Z) (a : call_args) (steps : option Z) :
  late (denoising_loop unet set_timesteps timesteps scheduler_step
          image_latent pred_latent num_images a steps).
Proof.
  unfold denoising_loop.
  repeat first [apply late_denoise | late_step | quiet_known].
Qed.

Lemma late_decode_batch (self : pipeline) (x : tensor spec_float) :
  late (@decode_batch S vae_decode latent_scaling_factor self x).
Proof. unfold decode_batch. repeat first [late_step | quiet_known]. Qed.

Lemma late_decode (self : pipeline) (x : tensor spec_float) (batch_size : Z) :
  late (@decode S vae_decode latent_scaling_factor self x batch_size).
Proof.
  unfold decode. repeat first [apply late_decode_batch | late_step | quiet_known].
Qed.

Lemma late_visualize (prediction : tensor spec_float) (num_images : Z)
    (kwargs : option py_kwargs) :
  late (@visualize S V visualize_normals prediction num_images kwargs).
Proof. unfold visualize. repeat first [late_step | quiet_known]. Qed.

(** Steps 4 to 7 leave the pipeline as it is, invoke models only and raise
    no [ValueError] of this file. *)
Lemma late_steps_4_to_7 (a : call_args) (num_images : Z) (steps : option Z)
    (image : tensor spec_float) (padding : Z * Z) (orig : list nat) :
  late (steps_4_to_7 resample vae_encode_mean vae_decode latent_scaling_factor
          unet set_timesteps timesteps scheduler_step randn_tensor
          visualize_normals arccos pi a num_images steps image padding orig).
Proof.
  unfold steps_4_to_7.
  repeat first [ apply late_prepare_latent | apply late_denoising_loop
               | apply late_decode | apply late_visualize
               | late_step | quiet_known ].
Qed.

Local Abbreviation the_call self world a :=
  (call resample text_encoder_output vae_encode_mean vae_decode
     latent_scaling_factor unet set_timesteps timesteps scheduler_step
     randn_tensor visualize_normals arccos pi self world a).

Local Abbreviation cached self :=
  (mkPipeline (latent_space_size self) (default_denoising_steps self)
     (default_processing_resolution self) (use_full_z_range self)
     (execution_device self) (self_dtype self)
     (Some (to_dtype (self_dtype self) text_encoder_output))).

Local Abbreviation resolution self a :=
  (resolve (processing_resolution a) (default_processing_resolution self)).

(** The state in which step 3 of a call that passed [check_inputs] runs. *)
Local Abbreviation after_step_2 self world :=
  (if has_empty_text_embedding self then mkState self world []
   else mkState (cached self) world [Tokenizer; TextEncoder]).

Lemma call_steps (self : pipeline) (world : S) (a : call_args) :
  the_call self world a =
  match resolve_and_check self a with
  | Raise e => ([], self, world, Raise e)
  | Ok _ =>
      let s := after_step_2 self world in
      match preprocess resample self a (resolution self a) with
      | Raise e => (st_invoked s, st_self s, st_world s, Raise e)
      | Ok (image', padding, orig) =>
          let '(s', r) :=
            steps_4_to_7 resample vae_encode_mean vae_decode
              latent_scaling_factor unet set_timesteps timesteps
              scheduler_step randn_tensor visualize_normals arccos pi a
              (num_images (image a))
              (resolve (num_inference_steps a) (default_denoising_steps self))
              image' padding orig s in
          (st_invoked s', st_self s', st_world s', r)
      end
  end.
Proof.
  unfold call, call_body, bindM, get_self, lift. cbn [st_self].
  destruct (resolve_and_check self a) as [u|e]; [|reflexivity].
  destruct (has_empty_text_embedding self).
  - cbn [ret]. destruct (preprocess _ _ _ _) as [[[img pad] orig]|e];
      reflexivity.
  - cbn. destruct (preprocess _ _ _ _) as [[[img pad] orig]|e]; reflexivity.
Qed.

(** C2, amended: a [ValueError] of this file comes out of [check_inputs] or
    out of the preprocessing of step 3; the VAE, the U-Net, the scheduler
    and the visualizer have not been invoked before it and the state of the
    scheduler and the generators is untouched; the tokenizer and the text
    encoder have been invoked exactly when the error comes out of the
    preprocessing and the empty text embedding was not cached. *)
Theorem call_raises_before_models (self self' : pipeline) (world world' : S)
    (a : call_args) (invoked : list collaborator) (e : exn) :
  the_call self world a = (invoked, self', world', Raise e) ->
  validation_error e = true ->
  world' = world /\
  ((resolve_and_check self a = Raise e /\ invoked = []) \/
   (resolve_and_check self a = Ok tt /\
    preprocess resample self a (resolution self a) = Raise e /\
    invoked = if has_empty_text_embedding self then []
              else [Tokenizer; TextEncoder])).
Proof.
  rewrite call_steps. intros Hcall He.
  destruct (resolve_and_check self a) as [[]|e0].
  - destruct (preprocess _ _ _ _) as [[[img pad] orig]|e1].
    + exfalso. cbv zeta in Hcall.
      match type of Hcall with
      | (let '(_, _) := ?m ?s in _) = _ =>
          pose proof (late_steps_4_to_7 a (num_images (image a))
                        (resolve (num_inference_steps a)
                           (default_denoising_steps self))
                        img pad orig s) as (_ & _ & Hq);
          destruct (m s) as [s' r]
      end.
      injection Hcall as _ _ _ ->. cbn [snd] in Hq.
      rewrite (Hq e eq_refl) in He. discriminate.
    + cbv zeta in Hcall.
      destruct (has_empty_text_embedding self); cbn in Hcall;
        injection Hcall as <- _ <- <-; (split; [reflexivity|right; auto]).
  - injection Hcall as <- _ <- <-. split; [reflexivity|left; auto].
Qed.

(** X12: a call keeps the configuration of the pipeline and fills the cache
    of the empty text embedding as soon as the inputs pass [check_inputs],
    never emptying it; the tokenizer and the text encoder run, first and
    once, exactly when the inputs pass [check_inputs] and the cache was
    empty; whatever is invoked besides is a model. *)
Theorem call_caches_text_embedding (self self' : pipeline) (world world' : S)
    (a : call_args) (invoked : list collaborator)
    (r : result (output V)) :
  the_call self world a = (invoked, self', world', r) ->
  latent_space_size self' = latent_space_size self /\
  default_denoising_steps self' = default_denoising_steps self /\
  default_processing_resolution self' = default_processing_resolution self /\
  use_full_z_range self' = use_full_z_range self /\
  execution_device self' = execution_device self /\
  self_dtype self' = self_dtype self /\
  empty_text_embedding self'
  = match resolve_and_check self a, empty_text_embedding self with
    | Ok _, None => Some (to_dtype (self_dtype self) text_encoder_output)
    | _, e => e
    end /\
  exists rest,
    invoked
    = match resolve_and_check self a, empty_text_embedding self with
      | Ok _, None => [Tokenizer; TextEncoder]
      | _, _ => []
      end ++ rest /\
    forall c, In c rest -> c <> Tokenizer /\ c <> TextEncoder.
Proof.
  rewrite call_steps. intros Hcall.
  assert (Hlate : forall s' r' img pad orig,
            steps_4_to_7 resample vae_encode_mean vae_decode
              latent_scaling_factor unet set_timesteps timesteps
              scheduler_step randn_tensor visualize_normals arccos pi a
              (num_images (image a))
              (resolve (num_inference_steps a) (default_denoising_steps self))
              img pad orig (after_step_2 self world) = (s', r') ->
            st_self s' = st_self (after_step_2 self world) /\
            exists rest,
              st_invoked s' = st_invoked (after_step_2 self world) ++ rest /\
              forall c, In c rest -> c <> Tokenizer /\ c <> TextEncoder).
  { intros s' r' img pad orig Hs.
    pose proof (late_steps_4_to_7 a (num_images (image a))
                  (resolve (num_inference_steps a)
                     (default_denoising_steps self))
                  img pad orig (after_step_2 self world))
      as (Hself & (added & Hinv & Hadded) & _).
    rewrite Hs in Hself, Hinv. cbn [fst] in Hself, Hinv.
    split; [exact Hself|]. exists added. split; [exact Hinv|].
    intros c Hc. rewrite forallb_forall in Hadded. specialize (Hadded c Hc).
    split; intros ->; discriminate. }
  unfold has_empty_text_embedding in *.
  destruct (resolve_and_check self a) as [[]|e0].
  - cbv zeta in Hcall.
    destruct (preprocess _ _ _ _) as [[[img pad] orig]|e1].
    + match type of Hcall with
      | (let '(_, _) := ?m ?s in _) = _ =>
          destruct (m s) as [s' r'] eqn:Hs
      end.
      destruct (Hlate _ _ _ _ _ Hs) as (Hself & rest & Hinv & Hrest).
      injection Hcall as <- <- _ _. rewrite Hself, Hinv.
      destruct (empty_text_embedding self) eqn:Hc; cbn [st_self st_invoked];
        repeat split; try assumption; try reflexivity; eauto.
    + destruct (empty_text_embedding self) eqn:Hc; cbn in Hcall;
        injection Hcall as <- <- _ _; cbn;
        repeat split; try assumption; try reflexivity;
        (exists []; split; [reflexivity|intros c []]).
  - injection Hcall as <- <- _ _.
    repeat split; try reflexivity.
    exists []. split; [reflexivity|intros c []].
Qed.
End CallFacts.

(** The claim of C2 fails on the first call of a pipeline: the range error
    of an image with elements 2.0 is raised after the tokenizer and the text
    encoder have run. *)
Lemma call_range_error_after_text_encoder :
  sample_call sample_pipeline 0
    (sample_args (TorchTensor (constant_image two)) None)
  = ([Tokenizer; TextEncoder], cached_pipeline, 0,
     Raise (ValueError OutsideRange)).
Proof. vm_compute. reflexivity. Qed.

(** [check_inputs] looks at the type of [ensembling_kwargs] only: a
    reduction that does not exist passes it, and the assertion of
    [ensemble_normals] fails in step 7, after every model has run. *)
Lemma call_reduction_asserted_after_models :
  resolve_and_check sample_pipeline median_args = Ok tt /\
  sample_call sample_pipeline 0 median_args
  = ([Tokenizer; TextEncoder; VaeEncoder;
      SchedulerSetTimesteps; UNet; SchedulerStep;
      SchedulerSetTimesteps; UNet; SchedulerStep;
      VaeDecoder; VaeDecoder],
     cached_pipeline, 2, Raise AssertionError).
Proof. split; vm_compute; reflexivity. Qed.

Lemma call_raises_before_models_witness :
  0 = 0 /\
  ((resolve_and_check sample_pipeline
      (sample_args (TorchTensor (constant_image two)) None)
    = Raise (ValueError OutsideRange) /\ [Tokenizer; TextEncoder] = []) \/
   (resolve_and_check sample_pipeline
      (sample_args (TorchTensor (constant_image two)) None) = Ok tt /\
    preprocess nearest sample_pipeline
      (sample_args (TorchTensor (constant_image two)) None)
      (resolve
         (processing_resolution
            (sample_args (TorchTensor (constant_image two)) None))
         (default_processing_resolution sample_pipeline))
    = Raise (ValueError OutsideRange) /\
    [Tokenizer; TextEncoder]
    = if has_empty_text_embedding sample_pipeline then []
      else [Tokenizer; TextEncoder])).
Proof.
  apply (@call_raises_before_models nearest nat unit unit sample_embedding
           zero_latent sample_decoder scaling_factor
           (fun x (_ : unit) _ => x) (fun w _ => w) (fun _ => [tt])
           sample_step sample_randn (fun _ _ => tt) no_arccos np_pi
           sample_pipeline cached_pipeline 0 0
           (sample_args (TorchTensor (constant_image two)) None)
           [Tokenizer; TextEncoder] (ValueError OutsideRange)).
  - vm_compute. reflexivity.
  - reflexivity.
Defined.

Lemma call_caches_text_embedding_witness :
  exists invoked self' world' r,
    sample_call sample_pipeline 0
      (sample_args (TorchTensor (constant_image half)) None)
    = (invoked, self', world', r) /\
    empty_text_embedding self'
    = match
        resolve_and_check sample_pipeline
          (sample_args (TorchTensor (constant_image half)) None),
        empty_text_embedding sample_pipeline
      with
      | Ok _, None => Some (to_dtype Float32 sample_embedding)
      | _, e => e
      end /\
    exists rest,
      invoked
      = match
          resolve_and_check sample_pipeline
            (sample_args (TorchTensor (constant_image half)) None),
          empty_text_embedding sample_pipeline
        with
        | Ok _, None => [Tokenizer; TextEncoder]
        | _, _ => []
        end ++ rest /\
      forall c, In c rest -> c <> Tokenizer /\ c <> TextEncoder.
Proof.
  remember (sample_call sample_pipeline 0
              (sample_args (TorchTensor (constant_image half)) None))
    as x eqn:Hc.
  destruct x as [[[invoked self'] world'] r]. symmetry in Hc.
  exists invoked, self', world', r. split; [reflexivity|].
  exact (proj2 (proj2 (proj2 (proj2 (proj2 (proj2
           (@call_caches_text_embedding nearest nat unit unit
              sample_embedding zero_latent sample_decoder scaling_factor
              (fun x (_ : unit) _ => x) (fun w _ => w) (fun _ => [tt])
              sample_step sample_randn (fun _ _ => tt) no_arccos np_pi
              sample_pipeline self' 0 world'
              (sample_args (TorchTensor (constant_image half)) None)
              invoked r Hc))))))).
Defined.

(** Nor does it hold away from the floor in half precision: the normal
    (1, 1, 1) is renormalized to a vector of norm 2047/2048, further than
    1e-4 from 1. *)
Lemma half_precision_normal_off_tolerance :
  exists out,
    @normalize_normals _ (Float.scalar 11 16)
      (mkTensor Float16 [1; 3; 1; 1] (fun _ => Float.of_Z 11 16 1))
      (@eps_default _ (Float.scalar 11 16)) = Ok out /\
    @norm _ (Float.scalar 11 16) (pixel out 0 0 0)
    = S754_finite false 2047 (-11) /\
    SFleb
      (SFabs
         (SFsub 11 16 (@norm _ (Float.scalar 11 16) (pixel out 0 0 0))
            (Float.of_Z 11 16 1)))
      (Float.of_dec 11 16 1 4) = false.
Proof.
  eexists. split; [reflexivity|]. split; vm_compute; reflexivity.
Qed.

Section UnitLength.
Variables prec emax : Z.

Lemma mean_dim0_spec (normals : tensor spec_float) (E H W c i j : nat) :
  shape normals = [E; 3; H; W] ->
  get (@mean_dim0 _ (Float.scalar prec emax) normals) [0; c; i; j]
  = @spec_mean _ (Float.scalar prec emax) normals E c i j.
Proof.
  intros Hs. unfold mean_dim0, spec_mean. rewrite Hs. cbn [get tl].
  destruct E as [|n]; reflexivity.
Qed.

End UnitLength.

